(** * tidy_table: the validation endpoint and the structured-output helpers

    A shallow embedding of

    - the validation route handler ([POST] and its eight rule functions),
    - the response cleaning and the attempt loop of
      [OllamaClient.generateStructuredOutput] (src/utils/ollama.ts),
    - the rate-limit loop of [generateStructuredOutput] (src/utils/gemini.ts),
    - the provider switch of [generateStructuredOutput] (ai-provider),

    followed by the properties proved about them. *)

From Stdlib Require Import List String Ascii Bool Arith ZArith NArith QArith Qminmax Qpower Qround Lia Lqa Sorted.
From Stdlib Require Import DecimalString.
Import ListNotations.

Set Warnings "-register-all".

Close Scope Q_scope.
Open Scope list_scope.
Open Scope string_scope.

(* ================================================================= *)
(** ** JavaScript values as [JSON.parse] produces them *)

Module JS.

(** A JS number.  A finite double is represented by the rational it
    denotes; [+0] and [-0] are identified (the handler never tells them
    apart: both are falsy, equal under SameValueZero and print as "0"). *)
Inductive number : Type :=
| NaN
| Infinity (negative : bool)
| Finite (q : Q).

(** The request body is decoded by [req.json()], so every cell is a JSON
    value.  An object is the list of its own properties; a property read
    takes the first binding of the key.  [undefined] is not a JSON value:
    it only arises from reading an absent property and is [None] below. *)
Inductive value : Type :=
| Null
| Bool (b : bool)
| Num (n : number)
| Str (s : string)
| Arr (items : list value)
| Obj (props : list (string * value)).

(** Exceptions: the TypeErrors of ToPrimitive.  The limits of the engine
    are not modelled: a [join] over arrays nested deeper than its stack
    allows raises a RangeError there, where the conversion below returns. *)
Inductive exn : Type :=
| TypeError (msg : string).

(** Computations that may throw. *)
Definition M (A : Type) : Type := (exn + A)%type.

Definition ret {A} (a : A) : M A := inr a.
Definition throw {A} (e : exn) : M A := inl e.
Definition bind {A B} (m : M A) (k : A -> M B) : M B :=
  match m with
  | inl e => inl e
  | inr a => k a
  end.

(** Built-ins of the runtime that are not code of the repository:
    Number::toString, StringToNumber, and whether [JSON.parse] accepts a
    text.  Every theorem about the handler holds for any choice of them. *)
Class Runtime : Type := {
  NumberToString : number -> string;
  StringToNumber : string -> number;
  JSON_parses : string -> bool
}.

(** [obj[key]]: the own property, or [undefined].  (The keys the handler
    reads are column names, none of which [Object.prototype] defines, so an
    absent own property reads as [undefined].) *)
Fixpoint get (props : list (string * value)) (key : string) : option value :=
  match props with
  | [] => None
  | (k, v) :: rest => if String.eqb k key then Some v else get rest key
  end.

(** [Object.keys(obj)]: the names of the own properties, in their order. *)
Definition keys (props : list (string * value)) : list string := map fst props.

(** [array.includes(s)] on an array of strings. *)
Definition includes (array : list string) (s : string) : bool :=
  existsb (String.eqb s) array.

Definition hasOwn (props : list (string * value)) (key : string) : bool :=
  match get props key with Some _ => true | None => false end.

(** ToBoolean. *)
Definition numberTruthy (n : number) : bool :=
  match n with
  | NaN => false
  | Infinity _ => true
  | Finite q => negb (Qeq_bool q 0%Q)
  end.

Definition truthy (v : option value) : bool :=
  match v with
  | None => false
  | Some Null => false
  | Some (Bool b) => b
  | Some (Num n) => numberTruthy n
  | Some (Str s) => negb (String.eqb s "")
  | Some (Arr _) => true
  | Some (Obj _) => true
  end.

(** [typeof v]. *)
Definition typeof (v : value) : string :=
  match v with
  | Null => "object"
  | Bool _ => "boolean"
  | Num _ => "number"
  | Str _ => "string"
  | Arr _ => "object"
  | Obj _ => "object"
  end.

Definition isArray (v : option value) : bool :=
  match v with Some (Arr _) => true | _ => false end.

(** SameValueZero on numbers: NaN equals NaN, otherwise numeric equality. *)
Definition numberSame (a b : number) : bool :=
  match a, b with
  | NaN, NaN => true
  | Infinity s, Infinity t => Bool.eqb s t
  | Finite p, Finite q => Qeq_bool p q
  | _, _ => false
  end.

(** SameValueZero, as [Set.prototype.has] uses it.  Arrays and objects are
    compared by reference; [JSON.parse] never shares a reference between two
    places of its result, and every comparison the handler makes is between
    values taken from two different places, so it is [false] on them. *)
Definition sameValueZero (a b : value) : bool :=
  match a, b with
  | Null, Null => true
  | Bool x, Bool y => Bool.eqb x y
  | Num x, Num y => numberSame x y
  | Str x, Str y => String.eqb x y
  | _, _ => false
  end.

(** A [Set] in insertion order. *)
Definition JSSet : Type := list value.

Definition has (s : JSSet) (v : value) : bool := existsb (sameValueZero v) s.

Definition add (s : JSSet) (v : value) : JSSet :=
  if has s v then s else (s ++ [v])%list.

(** [a < b] on numbers ([false] as soon as one side is NaN). *)
Definition lt (a b : number) : bool :=
  match a, b with
  | NaN, _ => false
  | _, NaN => false
  | Infinity true, Infinity true => false
  | Infinity true, _ => true
  | _, Infinity true => false
  | Infinity false, _ => false
  | Finite _, Infinity false => true
  | Finite p, Finite q => negb (Qle_bool q p)
  end.

Definition isNaN (n : number) : bool :=
  match n with NaN => true | _ => false end.

Definition ofNat (n : nat) : number := Finite (inject_Z (Z.of_nat n)).

(** Decimal digits of an array index or a length. *)
Definition natToString (n : nat) : string := NilEmpty.string_of_uint (Nat.to_uint n).

(** [Array.prototype.join] over already chosen element conversions:
    elements are converted left to right, the first exception wins. *)
Definition joinWith {A} (sep : string) (conv : A -> M string) : list A -> M string :=
  fix go (l : list A) : M string :=
    match l with
    | [] => ret ""
    | x :: rest =>
        bind (conv x) (fun s =>
        match rest with
        | [] => ret s
        | _ :: _ => bind (go rest) (fun r => ret (s ++ sep ++ r))
        end)
    end.

Definition cannotConvert : exn := TypeError "Cannot convert object to primitive value".

Section Coercions.
Context {rt : Runtime}.

(** ToString.  For an object, OrdinaryToPrimitive looks up [toString] and
    then [valueOf]: an own property of a JSON object is never callable, so
    an own [toString] disables the inherited one, the ([valueOf]) fallback
    returns the object itself or is not callable either, and the conversion
    throws.  Without an own [toString] the result is "[object Object]".
    An array is joined with ","; [null] elements give the empty string
    (at any depth of nesting: the stack of the engine is not modelled). *)
Fixpoint ToString (v : value) : M string :=
  match v with
  | Null => ret "null"
  | Bool true => ret "true"
  | Bool false => ret "false"
  | Num n => ret (NumberToString n)
  | Str s => ret s
  | Arr items =>
      joinWith ","
        (fun x => match x with Null => ret "" | _ => ToString x end) items
  | Obj props =>
      if hasOwn props "toString" then throw cannotConvert
      else ret "[object Object]"
  end.

(** The element conversion of [join]. *)
Definition joinElement (x : value) : M string :=
  match x with Null => ret "" | _ => ToString x end.

(** [array.join(sep)]. *)
Definition join (sep : string) (array : list value) : M string :=
  joinWith sep joinElement array.

(** [Number(v)] (ToNumber).  Arrays and objects go through ToPrimitive with
    hint number: [valueOf] yields no primitive, so the string conversion
    above decides, and its result is read as a numeric literal. *)
Definition ToNumber (v : value) : M number :=
  match v with
  | Null => ret (Finite 0%Q)
  | Bool true => ret (Finite 1%Q)
  | Bool false => ret (Finite 0%Q)
  | Num n => ret n
  | Str s => ret (StringToNumber s)
  | Arr _ => bind (ToString v) (fun s => ret (StringToNumber s))
  | Obj _ => bind (ToString v) (fun s => ret (StringToNumber s))
  end.

End Coercions.

End JS.

(* ================================================================= *)
(** ** The validation route handler *)

Module Validation.
Import JS.

Inductive Severity : Type := error | warning.

(** [ValidationError] (app/page.tsx). *)
Record ValidationError : Type := {
  id : string;
  type : string;
  message : string;
  severity : Severity;
  entityType : string;
  rowIndex : nat;
  columnName : string;
  suggestions : list string
}.

(** A row is an object; a collection is an array of rows.  For an array
    the test [!data] of every rule is false, which leaves the test
    [data.length === 0]. *)
Definition row : Type := list (string * value).

(** [array.forEach((item, index) => ...)] from [index] on, threading what
    the callback mutates. *)
Fixpoint forEach {A St : Type} (callback : A -> nat -> St -> M St)
    (array : list A) (index : nat) (s : St) : M St :=
  match array with
  | [] => ret s
  | item :: rest => bind (callback item index s) (forEach callback rest (S index))
  end.

(** [errors.push(e)]. *)
Definition push (errors : list ValidationError) (e : ValidationError) : list ValidationError :=
  (errors ++ [e])%list.

Section Rules.
Context {rt : Runtime}.

Definition validateRequiredColumns (data : list row) (entityType : string)
    (requiredColumns : list string) (errors : list ValidationError)
    : M (list ValidationError) :=
  match data with
  | [] => ret errors
  | first :: _ =>
      let availableColumns := keys first in
      let missingColumns :=
        filter (fun col => negb (includes availableColumns col)) requiredColumns in
      match missingColumns with
      | [] => ret errors
      | missing0 :: _ =>
          ret (push errors
            {| id := "missing-columns-" ++ entityType;
               type := "missingColumns";
               message := "Missing required columns: " ++ String.concat ", " missingColumns;
               severity := error;
               entityType := entityType;
               rowIndex := 0;
               columnName := missing0;
               suggestions := ["Add columns: " ++ String.concat ", " missingColumns] |})
      end
  end.

(** The callback of [validateUniqueIds]; its state is the [ids] set and the
    [errors] array (the [duplicates] set is written and never read). *)
Definition uniqueIdsRow (entityType idColumn : string) (r : row) (index : nat)
    (st : JSSet * list ValidationError) : M (JSSet * list ValidationError) :=
  let (ids, errors) := st in
  match get r idColumn with
  | Some v =>
      if truthy (Some v) then
        if has ids v then
          bind (ToString v) (fun idText =>
          ret (ids, push errors
            {| id := "duplicate-id-" ++ entityType ++ "-" ++ natToString index;
               type := "duplicateId";
               message := "Duplicate " ++ idColumn ++ ": " ++ idText;
               severity := error;
               entityType := entityType;
               rowIndex := index;
               columnName := idColumn;
               suggestions := ["Change " ++ idColumn ++ " to a unique value"] |}))
        else ret (add ids v, errors)
      else ret st
  | None => ret st
  end.

Definition validateUniqueIds (data : list row) (entityType idColumn : string)
    (errors : list ValidationError) : M (list ValidationError) :=
  match data with
  | [] => ret errors
  | _ :: _ =>
      bind (forEach (uniqueIdsRow entityType idColumn) data 0 ([], errors))
        (fun st => ret (snd st))
  end.

(** The filter of [validateArrayFields]: the elements that are not of the
    expected type. *)
Definition invalidElement (expectedType : string) (item : value) : bool :=
  if String.eqb expectedType "number" then
    negb (String.eqb (typeof item) "number")
    || match item with Num n => isNaN n | _ => false end
  else negb (String.eqb (typeof item) expectedType).

Definition arrayFieldsRow (entityType fieldName expectedType : string) (r : row)
    (index : nat) (errors : list ValidationError) : M (list ValidationError) :=
  match get r fieldName with
  | None => ret errors
  | Some Null => ret errors
  | Some (Arr items) =>
      let invalidElements := filter (invalidElement expectedType) items in
      match invalidElements with
      | [] => ret errors
      | _ :: _ =>
          bind (join ", " invalidElements) (fun joined =>
          ret (push errors
            {| id := "invalid-array-elements-" ++ entityType ++ "-" ++ natToString index
                     ++ "-" ++ fieldName;
               type := "invalidArrayElements";
               message := fieldName ++ " contains invalid " ++ expectedType ++ " values: "
                          ++ joined;
               severity := error;
               entityType := entityType;
               rowIndex := index;
               columnName := fieldName;
               suggestions := ["Ensure all " ++ fieldName ++ " values are valid "
                               ++ expectedType ++ "s"] |}))
      end
  | Some _ =>
      ret (push errors
        {| id := "malformed-array-" ++ entityType ++ "-" ++ natToString index
                 ++ "-" ++ fieldName;
           type := "malformedArray";
           message := fieldName ++ " should be an array";
           severity := error;
           entityType := entityType;
           rowIndex := index;
           columnName := fieldName;
           suggestions := ["Convert " ++ fieldName ++ " to array format"] |})
  end.

Definition validateArrayFields (data : list row) (entityType fieldName expectedType : string)
    (errors : list ValidationError) : M (list ValidationError) :=
  match data with
  | [] => ret errors
  | _ :: _ => forEach (arrayFieldsRow entityType fieldName expectedType) data 0 errors
  end.

Definition rangeRow (entityType fieldName : string) (min max : number) (r : row)
    (index : nat) (errors : list ValidationError) : M (list ValidationError) :=
  match get r fieldName with
  | None => ret errors
  | Some Null => ret errors
  | Some v =>
      bind (ToNumber v) (fun numValue =>
      if isNaN numValue || lt numValue min || lt max numValue then
        bind (ToString v) (fun valueText =>
        ret (push errors
          {| id := "out-of-range-" ++ entityType ++ "-" ++ natToString index
                   ++ "-" ++ fieldName;
             type := "outOfRange";
             message := fieldName ++ " must be between " ++ NumberToString min ++ " and "
                        ++ NumberToString max ++ ", got: " ++ valueText;
             severity := error;
             entityType := entityType;
             rowIndex := index;
             columnName := fieldName;
             suggestions := ["Set " ++ fieldName ++ " to a value between "
                             ++ NumberToString min ++ " and " ++ NumberToString max] |}))
      else ret errors)
  end.

Definition validateRange (data : list row) (entityType fieldName : string)
    (min max : number) (errors : list ValidationError) : M (list ValidationError) :=
  match data with
  | [] => ret errors
  | _ :: _ => forEach (rangeRow entityType fieldName min max) data 0 errors
  end.

Definition minValueRow (entityType fieldName : string) (min : number) (r : row)
    (index : nat) (errors : list ValidationError) : M (list ValidationError) :=
  match get r fieldName with
  | None => ret errors
  | Some Null => ret errors
  | Some v =>
      bind (ToNumber v) (fun numValue =>
      if isNaN numValue || lt numValue min then
        bind (ToString v) (fun valueText =>
        ret (push errors
          {| id := "below-minimum-" ++ entityType ++ "-" ++ natToString index
                   ++ "-" ++ fieldName;
             type := "belowMinimum";
             message := fieldName ++ " must be at least " ++ NumberToString min
                        ++ ", got: " ++ valueText;
             severity := error;
             entityType := entityType;
             rowIndex := index;
             columnName := fieldName;
             suggestions := ["Set " ++ fieldName ++ " to " ++ NumberToString min
                             ++ " or higher"] |}))
      else ret errors)
  end.

Definition validateMinValue (data : list row) (entityType fieldName : string)
    (min : number) (errors : list ValidationError) : M (list ValidationError) :=
  match data with
  | [] => ret errors
  | _ :: _ => forEach (minValueRow entityType fieldName min) data 0 errors
  end.

(** The only guarded step of the catalog: [JSON.parse] inside try/catch. *)
Definition jsonRow (entityType fieldName : string) (r : row)
    (index : nat) (errors : list ValidationError) : M (list ValidationError) :=
  match get r fieldName with
  | Some (Str s) =>
      if truthy (Some (Str s)) then
        if JSON_parses s then ret errors
        else
          ret (push errors
            {| id := "invalid-json-" ++ entityType ++ "-" ++ natToString index
                     ++ "-" ++ fieldName;
               type := "invalidJSON";
               message := fieldName ++ " contains invalid JSON";
               severity := error;
               entityType := entityType;
               rowIndex := index;
               columnName := fieldName;
               suggestions := ["Fix JSON syntax or use empty object {}"] |})
      else ret errors
  | _ => ret errors
  end.

Definition validateJSON (data : list row) (entityType fieldName : string)
    (errors : list ValidationError) : M (list ValidationError) :=
  match data with
  | [] => ret errors
  | _ :: _ => forEach (jsonRow entityType fieldName) data 0 errors
  end.

(** [new Set(tasks.map((task) => task.TaskID).filter(Boolean))]. *)
Definition setOf (vs : list (option value)) : JSSet :=
  fold_left (fun s o => match o with Some v => add s v | None => s end)
    (filter truthy vs) [].

Definition taskReferencesRow (taskIds : JSSet) (client : row)
    (index : nat) (errors : list ValidationError) : M (list ValidationError) :=
  match get client "RequestedTaskIDs" with
  | Some (Arr requestedTasks) =>
      let unknownTasks := filter (fun taskId => negb (has taskIds taskId)) requestedTasks in
      match unknownTasks with
      | [] => ret errors
      | _ :: _ =>
          bind (join ", " unknownTasks) (fun joined =>
          ret (push errors
            {| id := "unknown-task-refs-" ++ natToString index;
               type := "unknownReferences";
               message := "Unknown task references: " ++ joined;
               severity := error;
               entityType := "clients";
               rowIndex := index;
               columnName := "RequestedTaskIDs";
               suggestions := ["Remove unknown task IDs or add missing tasks"] |}))
      end
  | _ => ret errors
  end.

Definition validateTaskReferences (clients tasks : list row)
    (errors : list ValidationError) : M (list ValidationError) :=
  match clients, tasks with
  | [], _ => ret errors
  | _, [] => ret errors
  | _ :: _, _ :: _ =>
      let taskIds := setOf (map (fun task => get task "TaskID") tasks) in
      forEach (taskReferencesRow taskIds) clients 0 errors
  end.

Definition workerCapacityRow (worker : row)
    (index : nat) (errors : list ValidationError) : M (list ValidationError) :=
  match get worker "AvailableSlots", get worker "MaxLoadPerPhase" with
  | Some (Arr availableSlots), Some (Num maxLoad) =>
      if lt (ofNat (List.length availableSlots)) maxLoad then
        ret (push errors
          {| id := "overloaded-worker-" ++ natToString index;
             type := "overloadedWorker";
             message := "Worker has " ++ natToString (List.length availableSlots)
                        ++ " available slots but MaxLoadPerPhase is "
                        ++ NumberToString maxLoad;
             severity := warning;
             entityType := "workers";
             rowIndex := index;
             columnName := "MaxLoadPerPhase";
             suggestions := ["Reduce MaxLoadPerPhase to "
                             ++ natToString (List.length availableSlots)
                             ++ " or add more available slots"] |})
      else ret errors
  | _, _ => ret errors
  end.

Definition validateWorkerCapacity (workers : list row)
    (errors : list ValidationError) : M (list ValidationError) :=
  match workers with
  | [] => ret errors
  | _ :: _ => forEach workerCapacityRow workers 0 errors
  end.

(** The first loop of [validateSkillCoverage]: the union of the workers'
    skill arrays. *)
Definition collectSkills (workers : list row) : JSSet :=
  fold_left (fun availableSkills worker =>
    match get worker "Skills" with
    | Some (Arr skills) => fold_left add skills availableSkills
    | _ => availableSkills
    end) workers [].

Definition skillCoverageRow (availableSkills : JSSet) (task : row)
    (index : nat) (errors : list ValidationError) : M (list ValidationError) :=
  match get task "RequiredSkills" with
  | Some (Arr requiredSkills) =>
      let uncoveredSkills :=
        filter (fun skill => negb (has availableSkills skill)) requiredSkills in
      match uncoveredSkills with
      | [] => ret errors
      | _ :: _ =>
          bind (join ", " uncoveredSkills) (fun joined =>
          ret (push errors
            {| id := "uncovered-skills-" ++ natToString index;
               type := "uncoveredSkills";
               message := "Required skills not available in worker pool: " ++ joined;
               severity := warning;
               entityType := "tasks";
               rowIndex := index;
               columnName := "RequiredSkills";
               suggestions := ["Add workers with these skills or remove skill requirements"] |}))
      end
  | _ => ret errors
  end.

Definition validateSkillCoverage (workers tasks : list row)
    (errors : list ValidationError) : M (list ValidationError) :=
  match workers, tasks with
  | [], _ => ret errors
  | _, [] => ret errors
  | _ :: _, _ :: _ =>
      forEach (skillCoverageRow (collectSkills workers)) tasks 0 errors
  end.

(** The calls of the [try] block, in order; each takes the [errors] array
    as the previous call left it. *)
Definition catalog (clients workers tasks : list row)
    : list (list ValidationError -> M (list ValidationError)) :=
  [ (* 1. Missing required columns *)
    validateRequiredColumns clients "clients" ["ClientID"; "Name"; "PriorityLevel"];
    validateRequiredColumns workers "workers" ["WorkerID"; "Name"; "Skills"; "AvailableSlots"];
    validateRequiredColumns tasks "tasks" ["TaskID"; "Name"; "Duration"; "RequiredSkills"];
    (* 2. Duplicate IDs *)
    validateUniqueIds clients "clients" "ClientID";
    validateUniqueIds workers "workers" "WorkerID";
    validateUniqueIds tasks "tasks" "TaskID";
    (* 3. Malformed lists *)
    validateArrayFields workers "workers" "AvailableSlots" "number";
    validateArrayFields workers "workers" "Skills" "string";
    validateArrayFields tasks "tasks" "RequiredSkills" "string";
    validateArrayFields tasks "tasks" "PreferredPhases" "number";
    (* 4. Out-of-range values *)
    validateRange clients "clients" "PriorityLevel" (Finite 1%Q) (Finite 5%Q);
    validateMinValue tasks "tasks" "Duration" (Finite 1%Q);
    validateMinValue tasks "tasks" "MaxConcurrent" (Finite 1%Q);
    validateMinValue workers "workers" "MaxLoadPerPhase" (Finite 1%Q);
    (* 5. Broken JSON in AttributesJSON *)
    validateJSON clients "clients" "AttributesJSON";
    validateJSON workers "workers" "AttributesJSON";
    validateJSON tasks "tasks" "AttributesJSON";
    (* 6. Unknown references *)
    validateTaskReferences clients tasks;
    (* 7. Overloaded workers *)
    validateWorkerCapacity workers;
    (* 8. Skill coverage *)
    validateSkillCoverage workers tasks ].

(** Statement after statement. *)
Fixpoint runAll (calls : list (list ValidationError -> M (list ValidationError)))
    (errors : list ValidationError) : M (list ValidationError) :=
  match calls with
  | [] => ret errors
  | call :: rest => bind (call errors) (runAll rest)
  end.

(** [Response.json(body, { status })]; the status defaults to 200. *)
Record Response : Type := {
  status : nat;
  errors : list ValidationError
}.

(** [POST]: the [try] block runs the catalog on a fresh [errors] array and
    answers with it; the [catch] answers with an empty list and status 500. *)
Definition POST (clients workers tasks : list row) : Response :=
  match runAll (catalog clients workers tasks) [] with
  | inr errs => {| status := 200; errors := errs |}
  | inl _ => {| status := 500; errors := [] |}
  end.

(** The contract the handler implements:
    [validate(clients, workers, tasks) -> ValidationError[]]. *)
Definition validate (clients workers tasks : list row) : list ValidationError :=
  errors (POST clients workers tasks).

End Rules.

End Validation.

(* ================================================================= *)
(** ** Response cleaning (OllamaClient.generateStructuredOutput) *)

Module Cleaning.

(** The cleaning step looks at single characters (white space, line
    terminators, braces, backticks), so a response is the list of its
    UTF-16 code units. *)
Definition ustring : Type := list N.

(** A literal without characters above U+00FF. *)
Definition u (s : string) : ustring := map N_of_ascii (list_ascii_of_string s).

Definition LBRACE : N := 123.
Definition RBRACE : N := 125.
Definition BACKTICK : N := 96.

(** LineTerminator: LF, CR, LS, PS. *)
Definition isLineTerminator (c : N) : bool :=
  (c =? 10)%N || (c =? 13)%N || (c =? 8232)%N || (c =? 8233)%N.

(** What [trim] removes and [\s] matches: WhiteSpace and LineTerminator. *)
Definition isWhiteSpace (c : N) : bool :=
  (c =? 9)%N || (c =? 11)%N || (c =? 12)%N || (c =? 32)%N || (c =? 160)%N
  || (c =? 5760)%N || ((8192 <=? c)%N && (c <=? 8202)%N)
  || (c =? 8239)%N || (c =? 8287)%N || (c =? 12288)%N || (c =? 65279)%N
  || isLineTerminator c.

Fixpoint dropWhile {A} (p : A -> bool) (l : list A) : list A :=
  match l with
  | [] => []
  | x :: rest => if p x then dropWhile p rest else l
  end.

Fixpoint takeWhile {A} (p : A -> bool) (l : list A) : list A :=
  match l with
  | [] => []
  | x :: rest => if p x then x :: takeWhile p rest else []
  end.

(** [s.trim()]. *)
Definition trim (s : ustring) : ustring :=
  rev (dropWhile isWhiteSpace (rev (dropWhile isWhiteSpace s))).

(** [s.indexOf(c)]; [None] is -1. *)
Fixpoint indexOf (c : N) (s : ustring) : option nat :=
  match s with
  | [] => None
  | x :: rest =>
      if (x =? c)%N then Some 0
      else match indexOf c rest with Some i => Some (S i) | None => None end
  end.

(** [s.lastIndexOf(c)]. *)
Fixpoint lastIndexOf (c : N) (s : ustring) : option nat :=
  match s with
  | [] => None
  | x :: rest =>
      match lastIndexOf c rest with
      | Some i => Some (S i)
      | None => if (x =? c)%N then Some 0 else None
      end
  end.

Fixpoint startsWith (prefix s : ustring) : bool :=
  match prefix, s with
  | [], _ => true
  | _ :: _, [] => false
  | p :: prefix', x :: s' => (p =? x)%N && startsWith prefix' s'
  end.

(** The [$] assertion under the [m] flag: the end of the input or the
    position before a line terminator. *)
Definition atLineEnd (s : ustring) : bool :=
  match s with
  | [] => true
  | c :: _ => isLineTerminator c
  end.

(** [s.replace(re, '')] for a global regular expression that never matches
    the empty string.  [matchLength atLineStart rest] is the length of the
    match that starts at the current position, where [atLineStart] is the
    [^] assertion under the [m] flag (start of the input, or the previous
    character is a line terminator).  The scan is leftmost-first and goes
    on after each match; [skip] counts the characters of the current match
    still to drop. *)
Fixpoint removeMatches (matchLength : bool -> ustring -> option nat)
    (atLineStart : bool) (skip : nat) (s : ustring) : ustring :=
  match s with
  | [] => []
  | c :: rest =>
      match skip with
      | S k => removeMatches matchLength (isLineTerminator c) k rest
      | O =>
          match matchLength atLineStart s with
          | Some (S k) => removeMatches matchLength (isLineTerminator c) k rest
          | _ => c :: removeMatches matchLength (isLineTerminator c) 0 rest
          end
      end
  end.

Definition replaceAll (matchLength : bool -> ustring -> option nat) (s : ustring) : ustring :=
  removeMatches matchLength true 0 s.

(** [^<marker>\s*] under [gm]: the marker at a line start and the white
    space after it ([\s*] is greedy, and what follows is unconstrained). *)
Definition lineStartMarker (marker : ustring) (atLineStart : bool) (s : ustring) : option nat :=
  if atLineStart && startsWith marker s
  then Some (List.length marker
             + List.length (takeWhile isWhiteSpace (skipn (List.length marker) s)))
  else None.

(** [\s*```$] under [gm]: a backtick is no white space, so only the longest
    white-space run can be followed by the fence. *)
Definition lineEndFence (atLineStart : bool) (s : ustring) : option nat :=
  let ws := List.length (takeWhile isWhiteSpace s) in
  let after := skipn ws s in
  if startsWith (u "```") after && atLineEnd (skipn 3 after)
  then Some (ws + 3)
  else None.

(** The cleaning of [response] between [generateText] and [JSON.parse]. *)
Definition clean (response : ustring) : ustring :=
  let jsonStr := trim response in
  (* Remove any text before the first { *)
  let jsonStr :=
    match indexOf LBRACE jsonStr with
    | Some (S firstBrace') => skipn (S firstBrace') jsonStr
    | _ => jsonStr
    end in
  (* Remove any text after the last } *)
  let jsonStr :=
    match lastIndexOf RBRACE jsonStr with
    | Some lastBrace => firstn (lastBrace + 1) jsonStr
    | None => jsonStr
    end in
  (* Remove markdown code blocks if present *)
  replaceAll lineEndFence
    (replaceAll (lineStartMarker (u "```"))
      (replaceAll (lineStartMarker (u "```json")) jsonStr)).

End Cleaning.

(* ================================================================= *)
(** ** Double arithmetic

    JS numbers are IEEE 754 binary64 values.  A finite double is
    represented by the rational it denotes, and an operation on doubles is
    the exact operation followed by rounding to the nearest double, ties to
    the even significand.  Overflow to Infinity (from 2^1024 on) is left
    out: the numbers the code computes stay far below. *)

Module Binary64.

(** The integer nearest to [q], the even one of the two at a tie. *)
Definition roundHalfEven (q : Q) : Z :=
  let f := Qfloor q in
  match Qcompare (q - inject_Z f) (1 # 2) with
  | Lt => f
  | Gt => (f + 1)%Z
  | Eq => if Z.even f then f else (f + 1)%Z
  end.

(** For [q > 0], the [e] with [2^e <= q < 2^(e + 1)]. *)
Definition exponent (q : Q) : Z :=
  let k := (Z.log2 (Qnum q) - Z.log2 (Zpos (Qden q)))%Z in
  if Qlt_le_dec q (2 ^ k) then (k - 1)%Z else k.

(** The exponent of the last place of the doubles around [q]: 53
    significant bits, and no finer than [2^-1074] (subnormal numbers). *)
Definition quantum (q : Q) : Z := Z.max (exponent q - 52) (-1074).

Definition roundPositive (q : Q) : Q :=
  (inject_Z (roundHalfEven (q / 2 ^ quantum q)) * 2 ^ quantum q)%Q.

(** The double nearest to [q]; also the value of a decimal literal. *)
Definition round (q : Q) : Q :=
  match Qcompare q 0 with
  | Eq => 0%Q
  | Gt => roundPositive q
  | Lt => (- roundPositive (- q))%Q
  end.

(** [x + y] and [x * y] on doubles. *)
Definition add (x y : Q) : Q := round (x + y).
Definition mul (x y : Q) : Q := round (x * y).

End Binary64.

(* ================================================================= *)
(** ** The structured-output loops *)

Module Mediator.
Import Cleaning.

(** A thrown [Error] object ([generateText], [JSON.parse] and
    [schema.parse] throw nothing else, so [lastError] is the caught value
    itself). *)
Record Error : Type := {
  name : string;
  message : string
}.

(** [new Error(message)]. *)
Definition newError (message : string) : Error :=
  {| name := "Error"; message := message |}.

Inductive Outcome (T : Type) : Type :=
| Returned (value : T)
| Thrown (e : Error).
Arguments Returned {T} value.
Arguments Thrown {T} e.

(** What a call leaves behind: how often the backend was called, how many
    random numbers were drawn, and the delays slept, oldest first (ms). *)
Record World : Type := {
  calls : nat;
  draws : nat;
  sleeps : list Q
}.

Definition start : World := {| calls := 0; draws := 0; sleeps := [] |}.

Definition called (w : World) : World :=
  {| calls := S (calls w); draws := draws w; sleeps := sleeps w |}.

Definition drawn (w : World) : World :=
  {| calls := calls w; draws := S (draws w); sleeps := sleeps w |}.

(** [await sleep(ms)]. *)
Definition sleep (ms : Q) (w : World) : World :=
  {| calls := calls w; draws := draws w; sleeps := (sleeps w ++ [ms])%list |}.

(** [haystack.includes(needle)]. *)
Definition includes (haystack needle : string) : bool :=
  match String.index 0 needle haystack with Some _ => true | None => false end.

Inductive AIProvider : Type := gemini | ollama | openai.

Section Loops.

(** The schema's output type and the type of parsed JSON. *)
Variables T J : Type.

(** [JSON.parse] and [schema.parse]; both throw on failure. *)
Variable JSON_parse : ustring -> Error + J.
Variable schema_parse : J -> Error + T.

(** The backend: the outcome of its [n]-th generate call (from 0), a
    transport error or the response text ([ollama.generateText],
    [geminiModel.generateContent] with [response.text()], or the content of
    the first choice of [openai.chat.completions.create], "" when absent).
    The prompt is the same for every attempt of one call and is left out. *)
Variable generate : nat -> Error + ustring.

(** The [n]-th result of [Math.random()], a double in [0, 1). *)
Variable random : nat -> Q.

Definition callBackend (w : World) : (Error + ustring) * World :=
  (generate (calls w), called w).

Definition Math_random (w : World) : Q * World :=
  (random (draws w), drawn w).

Definition parseAndValidate (text : ustring) : Error + T :=
  match JSON_parse text with
  | inl e => inl e
  | inr parsed => schema_parse parsed
  end.

(* ----------------------------------------------------------------- *)
(** *** ollama.ts *)

Definition ollama_maxAttempts : nat := 3.

(** The [try] block of one attempt: [generateText], cleaning, [JSON.parse],
    [schema.parse]; whatever throws lands in the same [catch]. *)
Definition ollama_attempt (w : World) : (Error + T) * World :=
  let (response, w1) := callBackend w in
  (match response with
   | inl e => inl e
   | inr text => parseAndValidate (clean text)
   end, w1).

(** [for (let attempt = 1; attempt <= maxAttempts; attempt++)], over the
    attempt numbers still to run. *)
Fixpoint ollama_loop (attempts : list nat) (lastError : option Error) (w : World)
    : Outcome T * World :=
  match attempts with
  | [] =>
      (Thrown (match lastError with
               | Some e => e
               | None => newError "Failed to generate valid structured output"
               end), w)
  | attempt :: rest =>
      let (r, w1) := ollama_attempt w in
      match r with
      | inr result => (Returned result, w1)
      | inl e =>
          let w2 := if (attempt <? ollama_maxAttempts)%nat then sleep 1000%Q w1 else w1 in
          ollama_loop rest (Some e) w2
      end
  end.

Definition ollama_generateStructuredOutput (w : World) : Outcome T * World :=
  ollama_loop (seq 1 ollama_maxAttempts) None w.

(* ----------------------------------------------------------------- *)
(** *** gemini.ts *)

Definition maxRetries : nat := 5.
Definition baseDelay : Q := 1000%Q.
Definition maxDelay : Q := 60000%Q.

(** [error.message && error.message.includes("429 Too Many Requests")]. *)
Definition isRateLimit (e : Error) : bool :=
  negb (String.eqb (message e) "") && includes (message e) "429 Too Many Requests".

(** [Math.min(maxDelay, baseDelay * Math.pow(2, retryCount) * (0.8 + Math.random() * 0.4))]
    in double arithmetic, evaluated as JS does: [0.8] and [0.4] are the
    doubles nearest to the decimals, every product and sum is rounded, and
    the products associate to the left.  [Math.pow(2, retryCount)] is the
    power of two itself, and [Math.min] picks one of its arguments. *)
Definition expBackoff (retryCount : nat) (rnd : Q) : Q :=
  Qmin maxDelay
    (Binary64.mul
       (Binary64.mul baseDelay (2 ^ Z.of_nat retryCount))
       (Binary64.add (Binary64.round (8 # 10)) (Binary64.mul rnd (Binary64.round (4 # 10))))).

(** The outer [try] block: the backend call, then the inner [try] whose
    [catch] replaces any parse or schema error by a fresh [Error]. *)
Definition gemini_attempt (w : World) : (Error + T) * World :=
  let (response, w1) := callBackend w in
  (match response with
   | inl e => inl e
   | inr responseText =>
       match parseAndValidate responseText with
       | inr result => inr result
       | inl _ => inl (newError "Failed to parse structured output from AI")
       end
   end, w1).

(** [while (retryCount < maxRetries)]; [None] when [fuel] iterations did
    not finish the loop. *)
Fixpoint gemini_loop (fuel retryCount : nat) (lastError : option Error) (w : World)
    : option (Outcome T * World) :=
  if (retryCount <? maxRetries)%nat then
    match fuel with
    | O => None
    | S fuel' =>
        let (r, w1) := gemini_attempt w in
        match r with
        | inr result => Some (Returned result, w1)
        | inl e =>
            if isRateLimit e then
              let retryCount' := S retryCount in
              let (rnd, w2) := Math_random w1 in
              gemini_loop fuel' retryCount' (Some e) (sleep (expBackoff retryCount' rnd) w2)
            else Some (Thrown e, w1)
        end
    end
  else
    Some (Thrown (match lastError with
                  | Some e => e
                  | None => newError "Failed after maximum retry attempts"
                  end), w).

Definition gemini_generateStructuredOutput (w : World) : option (Outcome T * World) :=
  gemini_loop maxRetries 0 None w.

(* ----------------------------------------------------------------- *)
(** *** ai-provider: the switch over the configured provider

    (The [default] branch throws for a string that is no provider; a value
    of type [AIProvider] never reaches it.) *)

(** The [openai] case: one completion, [JSON.parse], [schema.parse], no
    [try]. *)
Definition openai_generateStructuredOutput (w : World) : Outcome T * World :=
  let (response, w1) := callBackend w in
  (match response with
   | inl e => Thrown e
   | inr text =>
       match parseAndValidate text with
       | inr result => Returned result
       | inl e => Thrown e
       end
   end, w1).

Definition generateStructuredOutput (provider : AIProvider) (w : World)
    : option (Outcome T * World) :=
  match provider with
  | ollama => Some (ollama_generateStructuredOutput w)
  | gemini => gemini_generateStructuredOutput w
  | openai => Some (openai_generateStructuredOutput w)
  end.

End Loops.

End Mediator.

(* ================================================================= *)
(** ** The AI routes (search, generate-corrections, modify-data,
       create-rule, suggest-rules) *)

Module Routes.
Import Mediator.

(** [Response.json(body, { status })] of an AI route. *)
Record Answer (T : Type) : Type := {
  status : nat;
  body : T
}.
Arguments status {T} _.
Arguments body {T} _.

Section Route.

Variables T J : Type.
Variable JSON_parse : Cleaning.ustring -> Error + J.
Variable schema_parse : J -> Error + T.
Variable generate : nat -> Error + Cleaning.ustring.
Variable random : nat -> Q.

(** The shape these five routes share (the sixth AI route, parse-data, is
    of another shape and is not modelled).  The [try] block reads the
    request and builds the prompt (either may throw: a body that is no
    JSON, [data.clients.length] on a body without [data]), calls
    [generateStructuredOutput] with [{ provider: "ollama" }] and answers
    with the result; the [catch] answers with the route's fallback body and
    status 500. *)
Definition POST (prompt : Error + Cleaning.ustring) (fallback : T) (w : World)
    : Answer T * World :=
  match prompt with
  | inl _ => ({| status := 500; body := fallback |}, w)
  | inr _ =>
      match generateStructuredOutput T J JSON_parse schema_parse generate random ollama w with
      | Some (Returned result, w') => ({| status := 200; body := result |}, w')
      | Some (Thrown _, w') => ({| status := 500; body := fallback |}, w')
      | None => ({| status := 500; body := fallback |}, w)
      end
  end.

End Route.

End Routes.

(* ================================================================= *)
(** ** The components that read the error list *)

Module Panels.
Import JS Validation.

(** [response.ok]: a status from 200 to 299. *)
Definition ok (response : Response) : bool :=
  (200 <=? status response)%nat && (status response <=? 299)%nat.

(** [validateData] (FileUpload).  [None] is a [fetch] that rejects.  The
    body of a response that is not ok is not read; [result.errors || []]
    is [result.errors], an array being truthy. *)
Definition validateData (response : option Response) : list ValidationError :=
  match response with
  | Some r => if ok r then errors r else []
  | None => []
  end.

(** The re-validation at the end of [applyCorrection], [autoFixAll],
    [saveEdit] and [saveHeaderEdit]: [onValidationErrors] is only called
    for an ok response, so otherwise the list stays what it was. *)
Definition revalidate (validationErrors : list ValidationError)
    (response : option Response) : list ValidationError :=
  match response with
  | Some r => if ok r then errors r else validationErrors
  | None => validationErrors
  end.

(** [e.severity === "error"] and [e.severity === "warning"]. *)
Definition isError (e : ValidationError) : bool :=
  match severity e with error => true | warning => false end.

Definition isWarning (e : ValidationError) : bool :=
  match severity e with warning => true | error => false end.

(** ExportPanel, ValidationPanel and AIErrorCorrection. *)
Definition errorCount (validationErrors : list ValidationError) : nat :=
  List.length (filter isError validationErrors).

Definition warningCount (validationErrors : list ValidationError) : nat :=
  List.length (filter isWarning validationErrors).

(** ExportPanel: the export button is disabled unless [canExport]. *)
Definition canExport (validationErrors : list ValidationError) : bool :=
  (errorCount validationErrors =? 0)%nat.

(** DataGrid: the badge of an entity's tab. *)
Definition entityErrors (validationErrors : list ValidationError) (entity : string) : nat :=
  List.length (filter (fun e => entityType e =? entity) validationErrors).

(** DataGrid: the errors shown on a cell and the count behind the mark of
    a header. *)
Definition getErrorsForCell (validationErrors : list ValidationError)
    (entity : string) (index : nat) (column : string) : list ValidationError :=
  filter (fun e => (entityType e =? entity) && (rowIndex e =? index)%nat
                   && (columnName e =? column)) validationErrors.

Definition headerErrors (validationErrors : list ValidationError)
    (entity column : string) : nat :=
  List.length (filter (fun e => (entityType e =? entity) && (columnName e =? column))
                 validationErrors).

(** DataGrid [renderTable]: the columns of a table are the keys of its
    first row; there is no table for an empty collection. *)
Definition columns (entityData : list row) : list string :=
  match entityData with
  | [] => []
  | first :: _ => keys first
  end.

(** The errors the table of an entity shows: those of its cells, row by
    row and column by column. *)
Definition cellErrors (validationErrors : list ValidationError) (entity : string)
    (entityData : list row) : list ValidationError :=
  flat_map (fun index =>
              flat_map (fun column => getErrorsForCell validationErrors entity index column)
                (columns entityData))
    (seq 0 (List.length entityData)).

(** The names a fresh object [{}] inherits from [Object.prototype]: reading
    one of them yields a function (or, for [__proto__], the prototype), and
    none of these has a [push] method. *)
Definition inherited : list string :=
  ["constructor"; "hasOwnProperty"; "isPrototypeOf"; "propertyIsEnumerable";
   "toLocaleString"; "toString"; "valueOf"; "__proto__";
   "__defineGetter__"; "__defineSetter__"; "__lookupGetter__"; "__lookupSetter__"].

Definition notAFunction : exn := TypeError "acc[error.type].push is not a function".

(** [acc[key].push(e)] on an own property. *)
Fixpoint pushTo (acc : list (string * list ValidationError)) (key : string)
    (e : ValidationError) : list (string * list ValidationError) :=
  match acc with
  | [] => []
  | (k, group) :: rest =>
      if k =? key then (k, (group ++ [e])%list) :: rest
      else (k, group) :: pushTo rest key e
  end.

Fixpoint own (acc : list (string * list ValidationError)) (key : string)
    : option (list ValidationError) :=
  match acc with
  | [] => None
  | (k, group) :: rest => if k =? key then Some group else own rest key
  end.

(** One step of the [reduce] of ValidationPanel: the own properties of
    [acc] in insertion order. *)
Definition groupStep (acc : list (string * list ValidationError)) (e : ValidationError)
    : M (list (string * list ValidationError)) :=
  match own acc (type e) with
  | Some _ => ret (pushTo acc (type e) e)
  | None =>
      if existsb (String.eqb (type e)) inherited then throw notAFunction
      else ret (acc ++ [(type e, [e])])%list
  end.

Fixpoint reduce (errors : list ValidationError) (acc : list (string * list ValidationError))
    : M (list (string * list ValidationError)) :=
  match errors with
  | [] => ret acc
  | e :: rest => bind (groupStep acc e) (reduce rest)
  end.

Definition groupedErrors (errors : list ValidationError)
    : M (list (string * list ValidationError)) :=
  reduce errors [].

End Panels.

(* ================================================================= *)
(** ** Applying corrections (AIErrorCorrection) *)

Module Corrections.
Import JS.

(** A correction as the corrections route returns it, with the fields the
    component reads.  The suggested value is a JSON value: a correction
    without that property is not represented. *)
Record CorrectionSuggestion : Type := {
  id : string;
  entityType : string;
  rowIndex : number;
  field : string;
  suggestedValue : value;
  confidence : number;
  autoApplicable : bool
}.

Record Data : Type := {
  clients : list (list (string * value));
  workers : list (list (string * value));
  tasks : list (list (string * value))
}.

(** The array index a property name spells, if any: the decimal digits,
    without leading zeros, of an integer below 2^32 - 1. *)
Definition arrayIndexOf (key : string) : option N :=
  match NilEmpty.uint_of_string key with
  | Some digits =>
      let n := N.of_uint digits in
      if (NilEmpty.string_of_uint (N.to_uint n) =? key) && (n <? 4294967295)%N
      then Some n else None
  | None => None
  end.

(** The own properties of an object are listed in the order of
    [Object.keys]: the array indices first, ascending, then the other
    names in the order of their creation.  A new array index goes before
    the first name that is no smaller index. *)
Fixpoint insertIndex (props : list (string * value)) (key : string) (n : N) (v : value)
    : list (string * value) :=
  match props with
  | [] => [(key, v)]
  | (k, x) :: rest =>
      match arrayIndexOf k with
      | Some m =>
          if (m <? n)%N then (k, x) :: insertIndex rest key n v
          else (key, v) :: props
      | None => (key, v) :: props
      end
  end.

(** A new own property. *)
Definition defineField (props : list (string * value)) (key : string) (v : value)
    : list (string * value) :=
  match arrayIndexOf key with
  | Some n => insertIndex props key n v
  | None => (props ++ [(key, v)])%list
  end.

(** A new value for an own property, which keeps its place. *)
Fixpoint replaceField (props : list (string * value)) (key : string) (v : value)
    : list (string * value) :=
  match props with
  | [] => []
  | (k, x) :: rest =>
      if k =? key then (k, v) :: rest else (k, x) :: replaceField rest key v
  end.

(** [row[key] = v].  An own property takes the value.  Otherwise, for
    [__proto__] the setter inherited from [Object.prototype] runs: no own
    property is made (it sets the prototype when [v] is an object or
    [null], which is not modelled: rows are read through their own
    properties).  Any other name becomes a new own property. *)
Definition setField (props : list (string * value)) (key : string) (v : value)
    : list (string * value) :=
  if hasOwn props key then replaceField props key v
  else if key =? "__proto__" then props
  else defineField props key v.

(** [array[n]] for a number [n]: an element only at a non-negative
    integer. *)
Definition arrayIndex (n : number) : option nat :=
  match n with
  | Finite q =>
      let q' := Qred q in
      if (Qden q' =? 1)%positive && (0 <=? Qnum q')%Z then Some (Z.to_nat (Qnum q'))
      else None
  | _ => None
  end.

Fixpoint setRow (entityData : list (list (string * value))) (index : nat)
    (r : list (string * value)) : list (list (string * value)) :=
  match entityData, index with
  | [], _ => []
  | _ :: rest, O => r :: rest
  | x :: rest, S index' => x :: setRow rest index' r
  end.

(** [newData[correction.entityType]]: one of the three arrays, or
    [undefined]. *)
Definition entityData (data : Data) (entity : string)
    : option (list (list (string * value))) :=
  if entity =? "clients" then Some (clients data)
  else if entity =? "workers" then Some (workers data)
  else if entity =? "tasks" then Some (tasks data)
  else None.

Definition withEntityData (data : Data) (entity : string)
    (rows : list (list (string * value))) : Data :=
  if entity =? "clients" then
    {| clients := rows; workers := workers data; tasks := tasks data |}
  else if entity =? "workers" then
    {| clients := clients data; workers := rows; tasks := tasks data |}
  else if entity =? "tasks" then
    {| clients := clients data; workers := workers data; tasks := rows |}
  else data.

(** The edit of [applyCorrection] and of each round of [autoFixAll]:
    [if (entityData && entityData[correction.rowIndex])
       entityData[correction.rowIndex][correction.field] = correction.suggestedValue]. *)
Definition edit (data : Data) (correction : CorrectionSuggestion) : Data :=
  match entityData data (entityType correction) with
  | Some rows =>
      match arrayIndex (rowIndex correction) with
      | Some index =>
          match nth_error rows index with
          | Some r =>
              withEntityData data (entityType correction)
                (setRow rows index
                   (setField r (field correction) (suggestedValue correction)))
          | None => data
          end
      | None => data
      end
  | None => data
  end.

(** The filter of [autoFixAll]:
    [c.autoApplicable && c.confidence > 0.8 && !appliedCorrections.includes(c.id)],
    where [0.8] is the double nearest to the decimal. *)
Definition autoApplicableNow (appliedCorrections : list string)
    (c : CorrectionSuggestion) : bool :=
  autoApplicable c && lt (Finite (Binary64.round (8 # 10))) (confidence c)
  && negb (existsb (String.eqb (id c)) appliedCorrections).

(** The data [autoFixAll] hands to [onDataChange] (it returns before that
    when no correction passes the filter, which leaves the data as they
    are as well). *)
Definition autoFixAll (data : Data) (corrections : list CorrectionSuggestion)
    (appliedCorrections : list string) : Data :=
  fold_left edit (filter (autoApplicableNow appliedCorrections) corrections) data.

End Corrections.

(* ================================================================= *)
(** ** The Ollama client (ollama.ts) *)

Module OllamaClient.
Import Cleaning Mediator.

(** [process.env]: a variable is unset or a string. *)
Record Env : Type := {
  OLLAMA_BASE_URL : option ustring;
  OLLAMA_DEFAULT_MODEL : option ustring;
  OLLAMA_MODEL : option ustring
}.

(** [a || b] for a string or [undefined] on the left: the empty string is
    falsy. *)
Definition orElse (a : option ustring) (b : ustring) : ustring :=
  match a with
  | Some (c :: s) => c :: s
  | _ => b
  end.

Definition BASE_URL (env : Env) : ustring :=
  orElse (OLLAMA_BASE_URL env) (u "http://localhost:11434").

Definition DEFAULT_MODEL (env : Env) : ustring :=
  orElse (OLLAMA_DEFAULT_MODEL env) (u "llama3.1:8b").

Record Client : Type := {
  baseUrl : ustring;
  model : ustring
}.

Definition emptyModelName : Error :=
  newError "Ollama model name cannot be empty. Please set OLLAMA_MODEL environment variable or provide a model name.".

(** [this.model = model || process.env.OLLAMA_MODEL || DEFAULT_MODEL]. *)
Definition modelName (env : Env) (model : option ustring) : ustring :=
  orElse model (orElse (OLLAMA_MODEL env) (DEFAULT_MODEL env)).

(** [new OllamaClient(baseUrl, model)]; the default of [baseUrl] applies
    to [undefined] only. *)
Definition constructor (env : Env) (baseUrlArg modelArg : option ustring) : Error + Client :=
  let baseUrl := match baseUrlArg with Some s => s | None => BASE_URL env end in
  let model := modelName env modelArg in
  match model with
  | [] => inl emptyModelName
  | _ :: _ =>
      match trim model with
      | [] => inl emptyModelName
      | _ :: _ => inr {| baseUrl := baseUrl; model := model |}
      end
  end.





End OllamaClient.

(* ================================================================= *)
(** ** Editing cells and headers (DataGrid)

    The repository has two grids.  The one with editable headers converts
    what was typed according to the column name before it stores it; the
    other stores the text as typed. *)

Module DataGrid.
Import JS Corrections.

(** [s.split(",")]: the pieces between the commas, at least one. *)
Fixpoint split (s : string) : list string :=
  match s with
  | EmptyString => [EmptyString]
  | String c rest =>
      match split rest with
      | [] => [EmptyString]
      | piece :: pieces =>
          if Ascii.eqb c "," then EmptyString :: piece :: pieces
          else String c piece :: pieces
      end
  end.

Definition isListColumn (column : string) : bool :=
  Mediator.includes column "Skills" || Mediator.includes column "TaskIDs"
  || Mediator.includes column "Phases" || Mediator.includes column "Slots".

Definition isNumberListColumn (column : string) : bool :=
  Mediator.includes column "Slots" || Mediator.includes column "Phases".

Definition isNumberColumn (column : string) : bool :=
  Mediator.includes column "Level" || Mediator.includes column "Duration"
  || Mediator.includes column "Load" || Mediator.includes column "Concurrent".

Section SaveEdit.
Context {rt : Runtime}.

(** [String.prototype.trim]. *)
Variable trim : string -> string.

(** The callback of the [map] in [saveEdit]. *)
Definition element (column : string) (v : string) : value :=
  let trimmed := trim v in
  if isNumberListColumn column then
    let num := StringToNumber trimmed in
    if isNaN num then Str trimmed else Num num
  else Str trimmed.

(** [v !== ""]. *)
Definition notEmptyString (v : value) : bool :=
  match v with
  | Str s => negb (s =? "")
  | _ => true
  end.

(** [processedValue] of [saveEdit]. *)
Definition processedValue (column editValue : string) : value :=
  if isListColumn column then
    Arr (filter notEmptyString (map (element column) (split editValue)))
  else if isNumberColumn column then
    let n := StringToNumber editValue in
    Num (if numberTruthy n then n else Finite 0%Q)
  else Str editValue.

Definition cannotSet : exn := TypeError "Cannot set properties of undefined".

(** The data [saveEdit] hands to [onDataChange]:
    [newData[entityType][rowIndex][column] = processedValue], without a
    guard. *)
Definition saveEdit (data : Data) (entity : string) (index : nat)
    (column editValue : string) : M Data :=
  match entityData data entity with
  | Some rows =>
      match nth_error rows index with
      | Some r =>
          ret (withEntityData data entity
                 (setRow rows index (setField r column (processedValue column editValue))))
      | None => throw cannotSet
      end
  | None => throw cannotSet
  end.

End SaveEdit.

(** [saveEdit] of the grid that stores the text as typed:
    [newData[entityType][rowIndex][column] = editValue]. *)
Definition saveEditAsTyped (data : Data) (entity : string) (index : nat)
    (column editValue : string) : M Data :=
  match entityData data entity with
  | Some rows =>
      match nth_error rows index with
      | Some r =>
          ret (withEntityData data entity (setRow rows index (setField r column (Str editValue))))
      | None => throw cannotSet
      end
  | None => throw cannotSet
  end.

(** [delete row[key]]. *)
Fixpoint deleteField (props : list (string * value)) (key : string)
    : list (string * value) :=
  match props with
  | [] => []
  | (k, x) :: rest => if k =? key then rest else (k, x) :: deleteField rest key
  end.

Definition notCallable : exn := TypeError "row.hasOwnProperty is not a function".

(** The callback of the [forEach] in [saveHeaderEdit]:
    [if (row.hasOwnProperty(oldColumn)) { row[newColumn] = row[oldColumn]; delete row[oldColumn] }].
    A row with a column named hasOwnProperty hides the inherited method
    behind a JSON value, and the call throws. *)
Definition renameColumn (oldColumn newColumn : string) (r : list (string * value))
    : M (list (string * value)) :=
  if hasOwn r "hasOwnProperty" then throw notCallable
  else
    match get r oldColumn with
    | Some v => ret (deleteField (setField r newColumn v) oldColumn)
    | None => ret r
    end.

End DataGrid.

(* ================================================================= *)
(** ** The CSV export (ExportPanel.downloadCSV) *)

Module ExportPanel.
Import JS Validation.

Definition QUOTE : ascii := Ascii.ascii_of_nat 34.
Definition COMMA : ascii := Ascii.ascii_of_nat 44.
Definition NEWLINE : ascii := Ascii.ascii_of_nat 10.

(** [value.includes(c)] for a single character. *)
Fixpoint contains (c : ascii) (s : string) : bool :=
  match s with
  | EmptyString => false
  | String x rest => Ascii.eqb x c || contains c rest
  end.

(** The [replace] of the callback, with the global pattern that matches a
    quote: every quote is doubled. *)
Fixpoint doubleQuotes (s : string) : string :=
  match s with
  | EmptyString => EmptyString
  | String x rest =>
      if Ascii.eqb x QUOTE then String QUOTE (String QUOTE (doubleQuotes rest))
      else String x (doubleQuotes rest)
  end.

(** [array.map(f)] for a callback that may throw. *)
Fixpoint mapM {A B} (f : A -> M B) (l : list A) : M (list B) :=
  match l with
  | [] => ret []
  | x :: rest => bind (f x) (fun y => bind (mapM f rest) (fun ys => ret (y :: ys)))
  end.

Section CSV.
Context {rt : Runtime}.

(** The callback of the inner [map], followed by the element conversion of
    the [join] that consumes its result: a string with a comma or a quote
    is wrapped in quotes, its quotes doubled; any other value is converted
    by [join] ([undefined] and [null] to the empty string). *)
Definition csvField (r : row) (header : string) : M string :=
  match get r header with
  | Some (Str value) =>
      if contains COMMA value || contains QUOTE value
      then ret (String QUOTE (doubleQuotes value ++ String QUOTE EmptyString))
      else ret value
  | Some Null => ret ""
  | None => ret ""
  | Some value => ToString value
  end.

(** [headers.map(...).join(",")]: the line of one row. *)
Definition csvLine (headers : list string) (r : row) : M string :=
  joinWith "," (csvField r) headers.

(** [csvContent]; [None] when [downloadCSV] returns at once on an empty
    array.  The header line is joined as it is. *)
Definition csvContent (data : list row) : option (M string) :=
  match data with
  | [] => None
  | first :: _ =>
      let headers := keys first in
      Some (bind (mapM (csvLine headers) data) (fun lines =>
            ret (String.concat (String NEWLINE EmptyString)
                   (String.concat "," headers :: lines))))
  end.

End CSV.

End ExportPanel.

(* ================================================================= *)
(** ** Vocabulary of the statements *)

Import JS Validation.

(** Row indices ascend strictly along a list of errors. *)
Definition ascending (G : list ValidationError) : Prop :=
  StronglySorted Nat.lt (map rowIndex G).

(** What the errors of one call of the catalog look like: the [type]s the
    call can report, the [entityType] it is given, and the [columnName]
    when the call fixes it. *)
Record Signature : Type := {
  types : list string;
  entity : string;
  column : option string
}.

Definition hasSignature (sg : Signature) (e : ValidationError) : Prop :=
  In (type e) (types sg)
  /\ entityType e = entity sg
  /\ match column sg with Some c => columnName e = c | None => True end.

(** One signature per call of [catalog], in the same order. *)
Definition signatures : list Signature :=
  [ {| types := ["missingColumns"]; entity := "clients"; column := None |};
    {| types := ["missingColumns"]; entity := "workers"; column := None |};
    {| types := ["missingColumns"]; entity := "tasks"; column := None |};
    {| types := ["duplicateId"]; entity := "clients"; column := Some "ClientID" |};
    {| types := ["duplicateId"]; entity := "workers"; column := Some "WorkerID" |};
    {| types := ["duplicateId"]; entity := "tasks"; column := Some "TaskID" |};
    {| types := ["malformedArray"; "invalidArrayElements"]; entity := "workers";
       column := Some "AvailableSlots" |};
    {| types := ["malformedArray"; "invalidArrayElements"]; entity := "workers";
       column := Some "Skills" |};
    {| types := ["malformedArray"; "invalidArrayElements"]; entity := "tasks";
       column := Some "RequiredSkills" |};
    {| types := ["malformedArray"; "invalidArrayElements"]; entity := "tasks";
       column := Some "PreferredPhases" |};
    {| types := ["outOfRange"]; entity := "clients"; column := Some "PriorityLevel" |};
    {| types := ["belowMinimum"]; entity := "tasks"; column := Some "Duration" |};
    {| types := ["belowMinimum"]; entity := "tasks"; column := Some "MaxConcurrent" |};
    {| types := ["belowMinimum"]; entity := "workers"; column := Some "MaxLoadPerPhase" |};
    {| types := ["invalidJSON"]; entity := "clients"; column := Some "AttributesJSON" |};
    {| types := ["invalidJSON"]; entity := "workers"; column := Some "AttributesJSON" |};
    {| types := ["invalidJSON"]; entity := "tasks"; column := Some "AttributesJSON" |};
    {| types := ["unknownReferences"]; entity := "clients";
       column := Some "RequestedTaskIDs" |};
    {| types := ["overloadedWorker"]; entity := "workers";
       column := Some "MaxLoadPerPhase" |};
    {| types := ["uncoveredSkills"]; entity := "tasks"; column := Some "RequiredSkills" |} ].

(** The rule of the catalog (1 to 8) an error type belongs to; 0 for a
    string that is no error type. *)
Definition ruleOfType (t : string) : nat :=
  if t =? "missingColumns" then 1
  else if t =? "duplicateId" then 2
  else if (t =? "malformedArray") || (t =? "invalidArrayElements") then 3
  else if (t =? "outOfRange") || (t =? "belowMinimum") then 4
  else if t =? "invalidJSON" then 5
  else if t =? "unknownReferences" then 6
  else if t =? "overloadedWorker" then 7
  else if t =? "uncoveredSkills" then 8
  else 0.

Definition catalogRule (e : ValidationError) : nat := ruleOfType (type e).

(** The rule a call belongs to, read off its signature. *)
Definition ruleOf (sg : Signature) : nat :=
  match types sg with
  | t :: _ => ruleOfType t
  | [] => 0
  end.

(** A callback of [forEach] that only appends: at most one error, at the
    row it is called on, independent of the array it appends to. *)
Definition appendsAtRow (P : ValidationError -> Prop)
    (callback : row -> nat -> list ValidationError -> M (list ValidationError)) : Prop :=
  forall r i,
    (forall errs,
       callback r i errs = bind (callback r i []) (fun g => ret (errs ++ g)%list))
    /\ (forall g, callback r i [] = inr g ->
          (List.length g <= 1)%nat /\ Forall (fun e => rowIndex e = i /\ P e) g).

(** A call of the catalog that only appends a group [G] satisfying [Q],
    independent of the array it appends to. *)
Definition appendsGroup (Q : list ValidationError -> Prop)
    (call : list ValidationError -> M (list ValidationError)) : Prop :=
  (forall errs, call errs = bind (call []) (fun G => ret (errs ++ G)%list))
  /\ (forall G, call [] = inr G -> Q G).

(** The group a call with signature [sg] may append. *)
Definition groupOf (sg : Signature) (G : list ValidationError) : Prop :=
  Forall (hasSignature sg) G /\ ascending G.

(** The three entity collections of a request. *)
Inductive Entity : Type := Clients | Workers | Tasks.

Definition entityName (en : Entity) : string :=
  match en with Clients => "clients" | Workers => "workers" | Tasks => "tasks" end.

Definition idColumn (en : Entity) : string :=
  match en with Clients => "ClientID" | Workers => "WorkerID" | Tasks => "TaskID" end.

Definition collection (en : Entity) (clients workers tasks : list row) : list row :=
  match en with Clients => clients | Workers => workers | Tasks => tasks end.

(** The required columns [POST] passes for each entity. *)
Definition requiredColumns (en : Entity) : list string :=
  match en with
  | Clients => ["ClientID"; "Name"; "PriorityLevel"]
  | Workers => ["WorkerID"; "Name"; "Skills"; "AvailableSlots"]
  | Tasks => ["TaskID"; "Name"; "Duration"; "RequiredSkills"]
  end.

Definition isDuplicateId (en : Entity) (e : ValidationError) : bool :=
  (type e =? "duplicateId") && (entityType e =? entityName en).

Definition isMissingColumns (en : Entity) (e : ValidationError) : bool :=
  (type e =? "missingColumns") && (entityType e =? entityName en).

(** A primitive value: compared by value in a [Set]. *)
Definition primitive (v : value) : bool :=
  match v with
  | Arr _ => false
  | Obj _ => false
  | _ => true
  end.

(** The row holds identifier [v] in column [col]. *)
Definition holdsId (col : string) (v : value) (r : row) : bool :=
  match get r col with
  | Some x => sameValueZero x v
  | None => false
  end.

(** The indices, from [i] on, of the rows that hold identifier [v]. *)
Fixpoint occurrencesFrom (i : nat) (col : string) (v : value) (data : list row) : list nat :=
  match data with
  | [] => []
  | r :: rest =>
      if holdsId col v r then i :: occurrencesFrom (S i) col v rest
      else occurrencesFrom (S i) col v rest
  end.

Definition occurrences (col : string) (v : value) (data : list row) : list nat :=
  occurrencesFrom 0 col v data.

Definition memNat (n : nat) (l : list nat) : bool := existsb (Nat.eqb n) l.

(** A runtime for evaluating the handler on examples.  It agrees with
    ECMAScript on the integers, on NaN and the infinities, on strings of
    decimal digits and on strings that are no numeric literal at all, which
    is all the examples contain. *)
Definition exampleRuntime : Runtime :=
  {| NumberToString := fun n =>
       match n with
       | NaN => "NaN"
       | Infinity false => "Infinity"
       | Infinity true => "-Infinity"
       | Finite q => NilEmpty.string_of_int (Z.to_int (Qnum q / Zpos (Qden q)))
       end;
     StringToNumber := fun s =>
       match NilEmpty.uint_of_string s with
       | Some d => Finite (inject_Z (Z.of_uint d))
       | None => NaN
       end;
     JSON_parses := fun s => (s =? "{}") || (s =? "[]") || (s =? "null") |}.

(** Case analysis on every [match] of the goal or of a hypothesis. *)
Ltac split_matches :=
  repeat match goal with
  | |- context [match ?x with _ => _ end] => destruct x eqn:?
  | H : context [match ?x with _ => _ end] |- _ => destruct x eqn:?
  end.

(** A callback appends at its row: both halves of [appendsAtRow] by case
    analysis on the callback's tests. *)
Tactic Notation "appends_at_row" reference(callback) :=
  intros ? ?; split;
  [ intros ?; unfold callback, push, bind, ret; split_matches; simpl;
    rewrite ?app_nil_r; reflexivity
  | let H := fresh "H" in
    intros ? H; unfold callback, push, bind, ret in H; split_matches;
    inversion H; subst; (split; [simpl; lia|]);
    repeat (apply Forall_cons || apply Forall_nil);
    unfold hasSignature; simpl; auto 10 ].

(** The rows at which the identifier scan meets an identifier it has seen
    before: [ids] are the identifiers seen so far, [i] the index of the
    first row of [data]. *)
Fixpoint duplicateRows (col : string) (ids : JSSet) (i : nat) (data : list row) : list nat :=
  match data with
  | [] => []
  | r :: rest =>
      match get r col with
      | Some v =>
          if truthy (Some v) then
            if has ids v then i :: duplicateRows col ids (S i) rest
            else duplicateRows col (add ids v) (S i) rest
          else duplicateRows col ids (S i) rest
      | None => duplicateRows col ids (S i) rest
      end
  end.

Definition missingSignature (et : string) : Signature :=
  {| types := ["missingColumns"]; entity := et; column := None |}.

Definition duplicateSignature (et col : string) : Signature :=
  {| types := ["duplicateId"]; entity := et; column := Some col |}.

(** The position of an entity's call within rule 1 and within rule 2. *)
Definition entityIndex (en : Entity) : nat :=
  match en with Clients => 0 | Workers => 1 | Tasks => 2 end.

(** Settles [f e = (j =? k)] for every error [e] carrying the [j]-th
    signature, by running through the twenty signatures. *)
Ltac by_signature en :=
  let j := fresh "j" in
  let Hj := fresh "Hj" in
  let Hsg := fresh "Hsg" in
  let Hty := fresh "Hty" in
  let Hen := fresh "Hen" in
  intros j ? ? Hj Hsg;
  do 20 (destruct j as [|j];
         [ injection Hj as <-; destruct Hsg as [Hty [Hen _]]; simpl in Hty, Hen;
           unfold isDuplicateId, isMissingColumns;
           repeat (destruct Hty as [Hty|Hty]; [rewrite <- Hty, Hen; destruct en; reflexivity|]);
           destruct Hty
         | ]);
  destruct j; discriminate Hj.

(* ----------------------------------------------------------------- *)
(** *** Example requests *)

Definition clientRow (clientId : value) : row :=
  [("ClientID", clientId); ("Name", Str "Acme"); ("PriorityLevel", Num (Finite 3%Q))].

(** Four clients; "C1" is the identifier of rows 0, 2 and 3. *)
Definition repeatedClients : list row :=
  [clientRow (Str "C1"); clientRow (Str "C2"); clientRow (Str "C1"); clientRow (Str "C1")].

(** Two clients whose identifier is the empty string. *)
Definition emptyIdClients : list row :=
  [clientRow (Str ""); clientRow (Str "")].

(** A first row that lacks [Name]; the second row has every column. *)
Definition namelessFirst : list row :=
  [ [("ClientID", Str "C1"); ("PriorityLevel", Num (Finite 3%Q))];
    clientRow (Str "C2") ].

(** A first row with every column, followed by an empty row. *)
Definition emptySecond : list row := [clientRow (Str "C1"); []].

(** A worker whose [Skills] is no array, then one whose [AvailableSlots] is
    no array. *)
Definition malformedWorkers : list row :=
  [ [("WorkerID", Str "W1"); ("Name", Str "Ann"); ("Skills", Str "x");
     ("AvailableSlots", Arr [])];
    [("WorkerID", Str "W2"); ("Name", Str "Bob"); ("Skills", Arr []);
     ("AvailableSlots", Str "y")] ].

(** A client that requests task "T99". *)
Definition requestingClient : row :=
  [("ClientID", Str "C1"); ("Name", Str "Acme"); ("PriorityLevel", Num (Finite 3%Q));
   ("RequestedTaskIDs", Arr [Str "T99"])].

Definition taskRow (taskId : value) : row :=
  [("TaskID", taskId); ("Name", Str "Build"); ("Duration", Num (Finite 2%Q));
   ("RequiredSkills", Arr [])].

(** A worker one of whose skills is the object [{ "toString": null }]. *)
Definition oddWorker : row :=
  [("WorkerID", Str "W1"); ("Name", Str "Ann");
   ("Skills", Arr [Obj [("toString", Null)]]); ("AvailableSlots", Arr [])].

(* ----------------------------------------------------------------- *)
(** *** Vocabulary of the cleaning step *)

(** A run of three backticks that starts a line or ends one: what the
    three fence patterns can match inside a text. *)
Fixpoint fenceAtBoundary (atLineStart : bool) (s : Cleaning.ustring) : bool :=
  match s with
  | [] => false
  | c :: rest =>
      (Cleaning.startsWith (Cleaning.u "```") s
       && (atLineStart || Cleaning.atLineEnd (skipn 3 s)))
      || fenceAtBoundary (Cleaning.isLineTerminator c) rest
  end.

(** No match of a pattern at any position of [s]. *)
Fixpoint noMatch (matchLength : bool -> Cleaning.ustring -> option nat)
    (atLineStart : bool) (s : Cleaning.ustring) : Prop :=
  match s with
  | [] => True
  | c :: rest =>
      matchLength atLineStart s = None
      /\ noMatch matchLength (Cleaning.isLineTerminator c) rest
  end.

(** A response that wraps [object] in a json fence. *)
Definition fenced (before object after : Cleaning.ustring) : Cleaning.ustring :=
  (Cleaning.u "```json" ++ before ++ object ++ after ++ Cleaning.u "```")%list.

(** The text [{"a":1}]: brace, quote, a, quote, colon, 1, brace. *)
Definition objectA1 : Cleaning.ustring := [123; 34; 97; 34; 58; 49; 125]%N.

(** The text of an object whose only member "a" is the string made of
    three backticks and U+2028 (LINE SEPARATOR), which JSON allows
    unescaped inside a string. *)
Definition objectWithLineSeparator : Cleaning.ustring :=
  [123; 34; 97; 34; 58; 34; 96; 96; 96; 8232; 34; 125]%N.

(** A character JSON allows unescaped inside a string: not a control
    character, not the quote, not the backslash. *)
Definition jsonStringChar (c : N) : bool :=
  negb (c <? 32)%N && negb (c =? 34)%N && negb (c =? 92)%N.

(** Right-nest every append before comparing two lists. *)
Ltac list_normal := repeat first [rewrite <- app_assoc | progress cbn [app]].

(* ----------------------------------------------------------------- *)
(** *** Vocabulary of the structured-output loops *)

(** The world after [k] rate-limit failures in a row, starting at retry
    count [retryCount]: each costs a call, a random number and a backoff. *)
Fixpoint afterRetries (random : nat -> Q) (k retryCount : nat) (w : Mediator.World)
    : Mediator.World :=
  match k with
  | O => w
  | S k' =>
      afterRetries random k' (S retryCount)
        (Mediator.sleep
           (Mediator.expBackoff (S retryCount) (random (Mediator.draws w)))
           (Mediator.drawn (Mediator.called w)))
  end.

(** The delay before jitter and cap: the base times a power of two. *)
Definition nominalDelay (retryCount : nat) : Q :=
  (Mediator.baseDelay * 2 ^ Z.of_nat retryCount)%Q.

(** The factor [0.8 + Math.random() * 0.4], in double arithmetic. *)
Definition jitter (rnd : Q) : Q :=
  Binary64.add (Binary64.round (8 # 10)) (Binary64.mul rnd (Binary64.round (4 # 10))).

(** The largest double below one, [1 - 2^-53]: no result of
    [Math.random()] exceeds it. *)
Definition belowOne : Q := (9007199254740991 # 9007199254740992)%Q.

(** Stubs for evaluating the loops: a parser that accepts the texts
    starting with an opening brace and returns them, a schema that accepts
    everything, and a random source stuck at one half. *)
Definition syntaxError : Mediator.Error :=
  {| Mediator.name := "SyntaxError"; Mediator.message := "Unexpected token in JSON" |}.

Definition parseStub (text : Cleaning.ustring) : Mediator.Error + Cleaning.ustring :=
  match text with
  | 123%N :: _ => inr text
  | _ => inl syntaxError
  end.

Definition schemaStub (parsed : Cleaning.ustring) : Mediator.Error + Cleaning.ustring :=
  inr parsed.

Definition halfRandom (n : nat) : Q := (1 # 2)%Q.

Definition rateLimited : Mediator.Error :=
  Mediator.newError "[GoogleGenerativeAI Error]: [429 Too Many Requests] Resource has been exhausted".

Definition refused : Mediator.Error :=
  Mediator.newError "connect ECONNREFUSED 127.0.0.1:11434".

(** A backend that always answers with prose. *)
Definition proseBackend (n : nat) : Mediator.Error + Cleaning.ustring :=
  inr (Cleaning.u "Sure, here is the data you asked for").

(** A backend that always answers with [{"a":1}] inside a json fence:
    malformed as received, well-formed once cleaned. *)
Definition fencedBackend (n : nat) : Mediator.Error + Cleaning.ustring :=
  inr (fenced [10%N] objectA1 [10%N]).

(** A backend that is down. *)
Definition downBackend (n : nat) : Mediator.Error + Cleaning.ustring :=
  inl refused.

(** A backend that reports rate limiting twice and then answers. *)
Definition twiceLimitedBackend (n : nat) : Mediator.Error + Cleaning.ustring :=
  match n with
  | 0%nat => inl rateLimited
  | 1%nat => inl rateLimited
  | _ => inr objectA1
  end.

(** A backend that always reports rate limiting. *)
Definition limitedBackend (n : nat) : Mediator.Error + Cleaning.ustring :=
  inl rateLimited.

(* ================================================================= *)
(** ** Vocabulary of the further properties *)

(** The severity each error type is reported with. *)
Definition severityOf (t : string) : Severity :=
  if (t =? "overloadedWorker") || (t =? "uncoveredSkills") then warning else error.

(** The test that picks the errors of one call out of the list. *)
Definition fromCall (sg : Signature) (e : ValidationError) : bool :=
  existsb (String.eqb (type e)) (types sg)
  && (entityType e =? entity sg)
  && match column sg with Some c => columnName e =? c | None => true end.

(** The collection a call with signature [sg] runs over. *)
Definition dataOf (sg : Signature) (clients workers tasks : list row) : list row :=
  if entity sg =? "clients" then clients
  else if entity sg =? "workers" then workers
  else tasks.

(** What holds of every error a call with signature [sg] appends when it
    runs over [data]. *)
Definition reportedBy (sg : Signature) (data : list row) (e : ValidationError) : Prop :=
  hasSignature sg e
  /\ (rowIndex e < List.length data)%nat
  /\ severity e = severityOf (type e).

(** A callback appends errors of the right severity: the second half of
    [appendsAtRow] for the severity alone. *)
Tactic Notation "severity_at_row" reference(callback) :=
  let H := fresh "H" in
  intros ? ? ? H; unfold callback, push, bind, ret in H; split_matches;
  inversion H; subst;
  repeat (apply Forall_cons || apply Forall_nil); reflexivity.

(** The ten error types of the catalog. *)
Definition errorTypes : list string :=
  ["missingColumns"; "duplicateId"; "malformedArray"; "invalidArrayElements";
   "outOfRange"; "belowMinimum"; "invalidJSON"; "unknownReferences";
   "overloadedWorker"; "uncoveredSkills"].

(** A worker offers a skill: its [Skills] cell is an array with an element
    the [Set] takes for the same value. *)
Definition offers (worker : row) (skill : value) : bool :=
  match get worker "Skills" with
  | Some (Arr skills) => existsb (sameValueZero skill) skills
  | _ => false
  end.

Definition covered (workers : list row) (skill : value) : bool :=
  existsb (fun worker => offers worker skill) workers.

(** A reference names a task: some task row has a truthy [TaskID] the [Set]
    takes for the same value. *)
Definition knownTask (tasks : list row) (ref : value) : bool :=
  existsb (fun task =>
             match get task "TaskID" with
             | Some taskId => truthy (Some taskId) && sameValueZero ref taskId
             | None => false
             end) tasks.

(** The three calls of [validateMinValue] and the four of
    [validateArrayFields] in [POST]. *)
Definition minimumCalls : list (Entity * string) :=
  [(Tasks, "Duration"); (Tasks, "MaxConcurrent"); (Workers, "MaxLoadPerPhase")].

Definition arrayCalls : list (Entity * string * string) :=
  [(Workers, "AvailableSlots", "number"); (Workers, "Skills", "string");
   (Tasks, "RequiredSkills", "string"); (Tasks, "PreferredPhases", "number")].

(** An error of type [t] at row [i]. *)
Definition reportedAt (t : string) (i : nat) (e : ValidationError) : Prop :=
  type e = t /\ rowIndex e = i.

(** An error of type [t] for column [f] of entity [en] at row [i]. *)
Definition reportedFor (t : string) (en : Entity) (f : string) (i : nat)
    (e : ValidationError) : Prop :=
  type e = t /\ entityType e = entityName en /\ columnName e = f /\ rowIndex e = i.

(** A worker with one available slot and a load of three per phase. *)
Definition busyWorker : row :=
  [("WorkerID", Str "W1"); ("Name", Str "Ann"); ("Skills", Arr [Str "welding"]);
   ("AvailableSlots", Arr [Num (Finite 1%Q)]); ("MaxLoadPerPhase", Num (Finite 3%Q))].

(** A task that requires painting. *)
Definition paintingTask : row :=
  [("TaskID", Str "T1"); ("Name", Str "Paint"); ("Duration", Num (Finite 0%Q));
   ("RequiredSkills", Arr [Str "painting"]); ("PreferredPhases", Str "1-3");
   ("AttributesJSON", Str "{")].

(** A client of priority nine. *)
Definition urgentClient : row :=
  [("ClientID", Str "C1"); ("Name", Str "Acme"); ("PriorityLevel", Num (Finite 9%Q))].

(* ----------------------------------------------------------------- *)
(** *** Vocabulary of the loops, whatever the backend answers *)

(** What the [try] block of the ollama loop yields on the backend's [n]-th
    answer (from 0), and what the outer [try] block of the gemini loop
    yields on it. *)
Definition ollamaAttempt {T J : Type} (JSON_parse : Cleaning.ustring -> Mediator.Error + J)
    (schema_parse : J -> Mediator.Error + T)
    (generate : nat -> Mediator.Error + Cleaning.ustring) (n : nat) : Mediator.Error + T :=
  fst (Mediator.ollama_attempt T J JSON_parse schema_parse generate
         {| Mediator.calls := n; Mediator.draws := 0; Mediator.sleeps := [] |}).

Definition geminiAttempt {T J : Type} (JSON_parse : Cleaning.ustring -> Mediator.Error + J)
    (schema_parse : J -> Mediator.Error + T)
    (generate : nat -> Mediator.Error + Cleaning.ustring) (n : nat) : Mediator.Error + T :=
  fst (Mediator.gemini_attempt T J JSON_parse schema_parse generate
         {| Mediator.calls := n; Mediator.draws := 0; Mediator.sleeps := [] |}).

(** The sum of the delays slept. *)
Definition totalSleep (w : Mediator.World) : Q :=
  fold_right Qplus 0%Q (Mediator.sleeps w).

(** A backend that answers with the object text at the third call. *)
Definition slowBackend (n : nat) : Mediator.Error + Cleaning.ustring :=
  match n with
  | 0%nat => inl refused
  | 1%nat => inr (Cleaning.u "Sure, here is the data you asked for")
  | _ => inr objectA1
  end.

(* ----------------------------------------------------------------- *)
(** *** Vocabulary of the components *)

(** The errors of one type, in the order of the list. *)
Definition ofType (ty : string) (errs : list ValidationError) : list ValidationError :=
  filter (fun e => type e =? ty) errs.

(** What the object built by the panel's [reduce] holds under a key when
    it groups [errs] by type. *)
Definition groupOfType (ty : string) (errs : list ValidationError)
    : option (list ValidationError) :=
  match ofType ty errs with
  | [] => None
  | e :: rest => Some (e :: rest)
  end.

(** A finding that does not block the export. *)
Definition isAdvisory (e : ValidationError) : Prop :=
  type e = "overloadedWorker" \/ type e = "uncoveredSkills".

(** The row and the cell of the data a correction may touch. *)
Definition rowAt (data : Corrections.Data) (entity : string) (index : nat) : option row :=
  match Corrections.entityData data entity with
  | Some rows => nth_error rows index
  | None => None
  end.

Definition cell (data : Corrections.Data) (entity : string) (index : nat)
    (column : string) : option value :=
  match rowAt data entity index with
  | Some r => get r column
  | None => None
  end.

(** A correction is aimed at a cell. *)
Definition targets (c : Corrections.CorrectionSuggestion) (entity : string) (index : nat)
    (column : string) : Prop :=
  Corrections.entityType c = entity
  /\ Corrections.arrayIndex (Corrections.rowIndex c) = Some index
  /\ Corrections.field c = column.

(** A correction that sets the priority of the first client to 4, with
    confidence 0.9. *)
Definition priorityFix : Corrections.CorrectionSuggestion :=
  {| Corrections.id := "fix-1"; Corrections.entityType := "clients";
     Corrections.rowIndex := Finite 0%Q; Corrections.field := "PriorityLevel";
     Corrections.suggestedValue := Num (Finite 4%Q);
     Corrections.confidence := Finite (Binary64.round (9 # 10));
     Corrections.autoApplicable := true |}.

Definition urgentData : Corrections.Data :=
  {| Corrections.clients := [urgentClient]; Corrections.workers := [busyWorker];
     Corrections.tasks := [] |}.

(* ----------------------------------------------------------------- *)
(** *** Vocabulary of the client and of the grid's editors *)

(** An environment without any of the three variables. *)
Definition noEnv : OllamaClient.Env :=
  {| OllamaClient.OLLAMA_BASE_URL := None; OllamaClient.OLLAMA_DEFAULT_MODEL := None;
     OllamaClient.OLLAMA_MODEL := None |}.

(** What [saveEdit] keeps of one piece of the text typed into a list
    column: in a column of numbers (Slots, Phases) the number the trimmed
    piece reads as, or the trimmed piece itself when it reads as no number
    and is not empty; in the other list columns the trimmed piece when it
    is not empty. *)
Definition storedFor {rt : Runtime} (trim : string -> string) (column piece : string)
    (x : value) : Prop :=
  if DataGrid.isNumberListColumn column then
    (isNaN (StringToNumber (trim piece)) = false /\ x = Num (StringToNumber (trim piece)))
    \/ (isNaN (StringToNumber (trim piece)) = true /\ trim piece <> ""
        /\ x = Str (trim piece))
  else trim piece <> "" /\ x = Str (trim piece).

(** What an edited list cell may hold: a non-empty string, which in a
    column of numbers reads as no number, or, in a column of numbers, a
    number that is not NaN. *)
Definition listElement {rt : Runtime} (column : string) (v : value) : Prop :=
  match v with
  | Str s =>
      s <> "" /\ (DataGrid.isNumberListColumn column = true -> isNaN (StringToNumber s) = true)
  | Num n => DataGrid.isNumberListColumn column = true /\ isNaN n = false
  | _ => False
  end.

(** The test for a malformedArray error of one cell. *)
Definition malformedAt (entity column : string) (index : nat) (e : ValidationError) : bool :=
  (type e =? "malformedArray") && (entityType e =? entity) && (columnName e =? column)
  && (rowIndex e =? index)%nat.

(** A stand-in for [trim] that removes nothing. *)
Definition noTrim (s : string) : string := s.

Definition busyData : Corrections.Data :=
  {| Corrections.clients := []; Corrections.workers := [busyWorker];
     Corrections.tasks := [] |}.

(* ----------------------------------------------------------------- *)
(** *** Vocabulary of the export: a reader of CSV

    The reader takes a text character by character.  Outside quotes a
    comma ends a field and a line break (a line feed, a carriage return,
    or the two in a row) ends a record; a quote at the start of a field
    opens a quoted field, in which a doubled quote stands for a quote and
    the next single quote closes the field.  A text that ends with a line
    break has no further record. *)

Definition RETURN : ascii := Ascii.ascii_of_nat 13.

(** Where the reader is: at the start of a field, inside an unquoted
    field, inside a quoted field, after the quote that may close it, or
    after a carriage return that ended a record. *)
Inductive ReaderState : Type := FieldStart | InRaw | InQuoted | AfterQuote | AfterReturn.

(** The state, the text of the field being read and the fields of the
    record read so far. *)
Record Reader : Type := {
  readerState : ReaderState;
  pending : string;
  fields : list string
}.

Definition startOfRecord : Reader :=
  {| readerState := FieldStart; pending := ""; fields := [] |}.

Definition recordOf (rd : Reader) : list string := (fields rd ++ [pending rd])%list.

Definition extend (rd : Reader) (st : ReaderState) (c : ascii) : Reader :=
  {| readerState := st; pending := pending rd ++ String c EmptyString; fields := fields rd |}.

(** A character outside quotes. *)
Definition unquoted (rd : Reader) (c : ascii) : Reader * list (list string) :=
  if Ascii.eqb c ExportPanel.COMMA then
    ({| readerState := FieldStart; pending := ""; fields := recordOf rd |}, [])
  else if Ascii.eqb c ExportPanel.NEWLINE then (startOfRecord, [recordOf rd])
  else if Ascii.eqb c RETURN then
    ({| readerState := AfterReturn; pending := ""; fields := [] |}, [recordOf rd])
  else (extend rd InRaw c, []).

Definition atFieldStart (rd : Reader) (c : ascii) : Reader * list (list string) :=
  if Ascii.eqb c ExportPanel.QUOTE then
    ({| readerState := InQuoted; pending := ""; fields := fields rd |}, [])
  else unquoted rd c.

Definition step (rd : Reader) (c : ascii) : Reader * list (list string) :=
  match readerState rd with
  | FieldStart => atFieldStart rd c
  | InRaw => unquoted rd c
  | InQuoted =>
      if Ascii.eqb c ExportPanel.QUOTE then
        ({| readerState := AfterQuote; pending := pending rd; fields := fields rd |}, [])
      else (extend rd InQuoted c, [])
  | AfterQuote =>
      if Ascii.eqb c ExportPanel.QUOTE then (extend rd InQuoted c, [])
      else unquoted rd c
  | AfterReturn =>
      if Ascii.eqb c ExportPanel.NEWLINE then (startOfRecord, [])
      else atFieldStart startOfRecord c
  end.

(** The end of the text. *)
Definition finish (rd : Reader) : list (list string) :=
  match readerState rd, fields rd with
  | FieldStart, [] => []
  | AfterReturn, _ => []
  | _, _ => [recordOf rd]
  end.

Fixpoint run (rd : Reader) (s : string) : list (list string) :=
  match s with
  | EmptyString => finish rd
  | String c rest => let (rd', records) := step rd c in (records ++ run rd' rest)%list
  end.

Definition readCSV (s : string) : list (list string) := run startOfRecord s.


(** The characters a CSV reader gives a meaning to. *)
Definition special (s : string) : bool :=
  ExportPanel.contains ExportPanel.COMMA s || ExportPanel.contains ExportPanel.QUOTE s
  || ExportPanel.contains ExportPanel.NEWLINE s || ExportPanel.contains RETURN s.

(** A written field [w] stands for the text [v]: as it is when it has no
    special character, or in quotes with its quotes doubled. *)
Definition writes (w v : string) : Prop :=
  (w = v /\ special v = false)
  \/ w = String ExportPanel.QUOTE
           (ExportPanel.doubleQuotes v ++ String ExportPanel.QUOTE EmptyString).

(** A cell the export can write so that it is read back: a string that
    has a line break only if it has a comma or a quote as well. *)
Definition exportable (r : row) (header : string) : Prop :=
  exists s, get r header = Some (Str s)
            /\ (ExportPanel.contains ExportPanel.COMMA s
                || ExportPanel.contains ExportPanel.QUOTE s = false ->
                special s = false).

(** The text of a cell that is a string. *)
Definition textOf (r : row) (header : string) : string :=
  match get r header with
  | Some (Str s) => s
  | _ => EmptyString
  end.

(** A worker whose name has a comma and a quote in it. *)
Definition awkwardWorker : row :=
  [("WorkerID", Str "W1");
   ("Name", Str ("Doe, " ++ String ExportPanel.QUOTE "Jo" ++ String ExportPanel.QUOTE EmptyString));
   ("Group", Str "")].

(** A worker whose name has a line break in it. *)
Definition brokenWorker : row :=
  [("WorkerID", Str "W1");
   ("Name", Str ("A" ++ String ExportPanel.NEWLINE "B"));
   ("Group", Str "g")].

(* ================================================================= *)
(** ** Facts about values and conversions *)

Open Scope list_scope.

Section ConversionFacts.
Context {rt : Runtime}.

Lemma bind_inr {A B} (m : M A) (k : A -> M B) (b : B) :
  bind m k = inr b -> exists a, m = inr a /\ k a = inr b.
Proof.
  destruct m as [x|a]; simpl; intros H; [discriminate|eauto].
Qed.

Lemma numberSame_sym a b : numberSame a b = true -> numberSame b a = true.
Proof.
  destruct a, b; simpl; try discriminate; auto.
  - destruct negative, negative0; auto.
  - apply Qeq_bool_sym.
Qed.

Lemma numberSame_trans a b c :
  numberSame a b = true -> numberSame b c = true -> numberSame a c = true.
Proof.
  destruct a, b, c; simpl; try discriminate; auto.
  - destruct negative, negative0, negative1; auto.
  - apply Qeq_bool_trans.
Qed.

Lemma sameValueZero_sym a b : sameValueZero a b = true -> sameValueZero b a = true.
Proof.
  destruct a, b; simpl; try discriminate; auto.
  - destruct b, b0; auto.
  - apply numberSame_sym.
  - rewrite String.eqb_sym; auto.
Qed.

Lemma sameValueZero_trans a b c :
  sameValueZero a b = true -> sameValueZero b c = true -> sameValueZero a c = true.
Proof.
  destruct a, b, c; simpl; try discriminate; auto.
  - destruct b, b0, b1; auto.
  - apply numberSame_trans.
  - intros H1 H2. apply String.eqb_eq in H1, H2. subst. apply String.eqb_refl.
Qed.

Lemma sameValueZero_primitive a b : sameValueZero a b = true -> primitive a = true.
Proof. destruct a, b; simpl; auto; discriminate. Qed.

Lemma sameValueZero_refl a : primitive a = true -> sameValueZero a a = true.
Proof.
  destruct a; simpl; try discriminate; intros _; auto.
  - destruct b; auto.
  - destruct n; simpl; auto.
    + destruct negative; auto.
    + apply Qeq_bool_refl.
  - apply String.eqb_refl.
Qed.

(** Equal values are truthy together. *)
Lemma sameValueZero_truthy a b :
  sameValueZero a b = true -> truthy (Some a) = truthy (Some b).
Proof.
  destruct a, b; simpl; try discriminate; auto.
  - destruct b, b0; simpl; auto; discriminate.
  - destruct n, n0; simpl; try discriminate; auto.
    intros H. apply Qeq_bool_iff in H. f_equal.
    destruct (Qeq_bool q 0) eqn:E1, (Qeq_bool q0 0) eqn:E2; auto.
    + apply Qeq_bool_iff in E1. apply Qeq_bool_neq in E2. exfalso. apply E2.
      rewrite <- H. exact E1.
    + apply Qeq_bool_iff in E2. apply Qeq_bool_neq in E1. exfalso. apply E1.
      rewrite H. exact E2.
  - intros H. apply String.eqb_eq in H. subst. reflexivity.
Qed.

Lemma has_app s1 s2 v : has (s1 ++ s2) v = has s1 v || has s2 v.
Proof. unfold has. apply existsb_app. Qed.

Lemma has_same s a b : sameValueZero a b = true -> has s a = has s b.
Proof.
  intros H. unfold has. induction s as [|y s IH]; simpl; auto.
  rewrite IH. f_equal.
  destruct (sameValueZero a y) eqn:E1, (sameValueZero b y) eqn:E2; auto.
  - apply sameValueZero_sym in H.
    rewrite (sameValueZero_trans _ _ _ H E1) in E2. discriminate.
  - rewrite (sameValueZero_trans _ _ _ H E2) in E1. discriminate.
Qed.

Lemma has_primitive s v : has s v = true -> primitive v = true.
Proof.
  unfold has. intros H. apply existsb_exists in H. destruct H as [y [_ H]].
  eapply sameValueZero_primitive; eauto.
Qed.

Lemma has_add s x v : has (add s x) v = has s v || sameValueZero v x.
Proof.
  unfold add. destruct (has s x) eqn:E.
  - destruct (sameValueZero v x) eqn:Ev.
    + rewrite (has_same s v x Ev), E. reflexivity.
    + rewrite orb_false_r. reflexivity.
  - rewrite has_app. simpl. rewrite orb_false_r. reflexivity.
Qed.

(** A primitive always converts to a string. *)
Lemma ToString_primitive v : primitive v = true -> exists s, ToString v = inr s.
Proof.
  destruct v; simpl; try discriminate; eauto.
  destruct b; eauto.
Qed.

End ConversionFacts.

(* ================================================================= *)
(** ** Every call of the catalog appends one group *)

Section CatalogFacts.
Context {rt : Runtime}.

Lemma ascending_nil : ascending [].
Proof. constructor. Qed.

Lemma ascending_cons e G :
  Forall (fun e' => (rowIndex e < rowIndex e')%nat) G -> ascending G -> ascending (e :: G).
Proof.
  intros H HG. unfold ascending. simpl. constructor; auto.
  apply Forall_map. exact H.
Qed.

(** [forEach] over a callback that appends at its row appends an ascending
    group whose row indices are indices of the array. *)
Lemma forEach_appends P callback :
  appendsAtRow P callback ->
  forall data i,
    (forall errs, forEach callback data i errs
                  = bind (forEach callback data i []) (fun G => ret (errs ++ G)))
    /\ (forall G, forEach callback data i [] = inr G ->
          Forall P G /\ ascending G
          /\ Forall (fun e => (i <= rowIndex e < i + List.length data)%nat) G).
Proof.
  intros Hcb. induction data as [|r rest IH]; intros i.
  - split.
    + intros errs. simpl. rewrite app_nil_r. reflexivity.
    + intros G H. simpl in H. injection H as <-. repeat split; constructor.
  - destruct (Hcb r i) as [Hframe Hrow].
    destruct (IH (S i)) as [IHframe IHgroup].
    split.
    + intros errs. simpl. rewrite (Hframe errs).
      destruct (callback r i []) as [x|g] eqn:Eg; simpl; [reflexivity|].
      rewrite (IHframe (errs ++ g)), (IHframe g).
      destruct (forEach callback rest (S i) []) as [x|G']; simpl; [reflexivity|].
      rewrite app_assoc. reflexivity.
    + intros G H. simpl in H.
      destruct (callback r i []) as [x|g] eqn:Eg; simpl in H; [discriminate|].
      rewrite (IHframe g) in H.
      destruct (forEach callback rest (S i) []) as [x|G'] eqn:EG; simpl in H; [discriminate|].
      injection H as <-.
      destruct (Hrow g eq_refl) as [Hlen Hg].
      destruct (IHgroup G' eq_refl) as [HP [Hasc Hbound]].
      assert (Hb' : Forall (fun e => (i <= rowIndex e < i + List.length (r :: rest))%nat) G').
      { eapply Forall_impl; [|exact Hbound]. simpl. intros e He. lia. }
      destruct g as [|e [|e' g']]; simpl in Hlen; try lia; simpl.
      * auto.
      * inversion Hg as [|? ? [Hi HPe] _]; subst.
        repeat split.
        -- constructor; auto.
        -- apply ascending_cons; auto.
           eapply Forall_impl; [|exact Hbound]. simpl. intros e' He'. lia.
        -- constructor; auto. simpl. lia.
Qed.

(** The same for a rule that returns at once on an empty array and runs
    [forEach] from row 0 otherwise. *)
Lemma rule_appends sg callback (call : list row -> list ValidationError -> M (list ValidationError)) :
  appendsAtRow (hasSignature sg) callback ->
  (forall errs, call [] errs = ret errs) ->
  (forall r rest errs, call (r :: rest) errs = forEach callback (r :: rest) 0 errs) ->
  forall data, appendsGroup (groupOf sg) (call data).
Proof.
  intros Hcb Hnil Hcons data. destruct data as [|r rest].
  - split.
    + intros errs. rewrite !Hnil. simpl. rewrite app_nil_r. reflexivity.
    + intros G H. rewrite Hnil in H. injection H as <-.
      split; constructor.
  - destruct (forEach_appends _ _ Hcb (r :: rest) 0) as [Hframe Hgroup].
    split.
    + intros errs. rewrite !Hcons. apply Hframe.
    + intros G H. rewrite Hcons in H. destruct (Hgroup G H) as [HP [Hasc _]].
      split; auto.
Qed.

End CatalogFacts.

Section CallbackFacts.
Context {rt : Runtime}.

Lemma arrayFieldsRow_appends et f ty :
  appendsAtRow
    (hasSignature {| types := ["malformedArray"; "invalidArrayElements"];
                     entity := et; column := Some f |})
    (arrayFieldsRow et f ty).
Proof. appends_at_row arrayFieldsRow. Qed.

Lemma rangeRow_appends et f lo hi :
  appendsAtRow (hasSignature {| types := ["outOfRange"]; entity := et; column := Some f |})
    (rangeRow et f lo hi).
Proof. appends_at_row rangeRow. Qed.

Lemma minValueRow_appends et f lo :
  appendsAtRow (hasSignature {| types := ["belowMinimum"]; entity := et; column := Some f |})
    (minValueRow et f lo).
Proof. appends_at_row minValueRow. Qed.

Lemma jsonRow_appends et f :
  appendsAtRow (hasSignature {| types := ["invalidJSON"]; entity := et; column := Some f |})
    (jsonRow et f).
Proof. appends_at_row jsonRow. Qed.

Lemma taskReferencesRow_appends taskIds :
  appendsAtRow
    (hasSignature {| types := ["unknownReferences"]; entity := "clients";
                     column := Some "RequestedTaskIDs" |})
    (taskReferencesRow taskIds).
Proof. appends_at_row taskReferencesRow. Qed.

Lemma workerCapacityRow_appends :
  appendsAtRow
    (hasSignature {| types := ["overloadedWorker"]; entity := "workers";
                     column := Some "MaxLoadPerPhase" |})
    workerCapacityRow.
Proof. appends_at_row workerCapacityRow. Qed.

Lemma skillCoverageRow_appends availableSkills :
  appendsAtRow
    (hasSignature {| types := ["uncoveredSkills"]; entity := "tasks";
                     column := Some "RequiredSkills" |})
    (skillCoverageRow availableSkills).
Proof. appends_at_row skillCoverageRow. Qed.

End CallbackFacts.

Section RuleFacts.
Context {rt : Runtime}.

Lemma validateRequiredColumns_appends data et cols :
  appendsGroup (groupOf (missingSignature et)) (validateRequiredColumns data et cols).
Proof.
  split.
  - intros errs. unfold validateRequiredColumns, push, bind, ret.
    split_matches; simpl; rewrite ?app_nil_r; reflexivity.
  - intros G H. unfold validateRequiredColumns, push, ret in H.
    split_matches; inversion H; subst; split;
      repeat (apply Forall_cons || apply Forall_nil);
      unfold hasSignature, ascending; simpl; auto 10;
      repeat constructor.
Qed.

(** One row of the identifier scan: it never throws (an identifier found in
    the set is a primitive, which converts to a string), and it reports the
    row exactly when the identifier is truthy and already in the set. *)
Lemma uniqueIdsRow_step et col r i ids :
  exists ids' g,
    (forall errs, uniqueIdsRow et col r i (ids, errs) = inr (ids', errs ++ g))
    /\ Forall (fun e => rowIndex e = i /\ hasSignature (duplicateSignature et col) e) g
    /\ match get r col with
       | Some v =>
           if truthy (Some v) then
             if has ids v then ids' = ids /\ map rowIndex g = [i]
             else ids' = add ids v /\ g = []
           else ids' = ids /\ g = []
       | None => ids' = ids /\ g = []
       end.
Proof.
  unfold uniqueIdsRow.
  destruct (get r col) as [v|] eqn:Ev.
  - destruct (truthy (Some v)) eqn:Et.
    + destruct (has ids v) eqn:Eh.
      * destruct (ToString_primitive v (has_primitive _ _ Eh)) as [s Hs].
        rewrite Hs. simpl.
        eexists ids, [_]. split; [intros errs; reflexivity|].
        split; [|split; reflexivity].
        constructor; [|constructor].
        unfold hasSignature. simpl. auto 10.
      * exists (add ids v), []. split; [intros; rewrite app_nil_r; reflexivity|].
        split; [constructor|auto].
    + exists ids, []. split; [intros; rewrite app_nil_r; reflexivity|].
      split; [constructor|auto].
  - exists ids, []. split; [intros; rewrite app_nil_r; reflexivity|].
    split; [constructor|auto].
Qed.

Lemma uniqueIds_forEach et col data :
  forall i ids, exists ids' G,
    (forall errs,
       forEach (uniqueIdsRow et col) data i (ids, errs) = inr (ids', errs ++ G))
    /\ Forall (hasSignature (duplicateSignature et col)) G
    /\ map rowIndex G = duplicateRows col ids i data.
Proof.
  induction data as [|r rest IH]; intros i ids.
  - exists ids, []. split; [intros; simpl; rewrite app_nil_r; reflexivity|].
    split; [constructor|reflexivity].
  - destruct (uniqueIdsRow_step et col r i ids) as [ids1 [g [Hstep [Hg Hcase]]]].
    destruct (IH (S i) ids1) as [ids2 [G [Hrest [HG Hrows]]]].
    exists ids2, (g ++ G). split; [|split].
    + intros errs. cbn [forEach]. rewrite Hstep. cbn [bind].
      rewrite Hrest, app_assoc. reflexivity.
    + apply Forall_app. split; auto.
      eapply Forall_impl; [|exact Hg]. simpl. tauto.
    + rewrite map_app, Hrows. cbn [duplicateRows].
      destruct (get r col) as [v|]; [destruct (truthy (Some v)); [destruct (has ids v)|]|];
        destruct Hcase as [-> Hgi]; try rewrite Hgi; try subst g; reflexivity.
Qed.

Lemma duplicateRows_bounds col data :
  forall ids i, Forall (fun j => (i <= j < i + List.length data)%nat) (duplicateRows col ids i data).
Proof.
  induction data as [|r rest IH]; intros ids i; [constructor|].
  assert (Hw : forall ids', Forall (fun j => (i <= j < i + List.length (r :: rest))%nat)
                         (duplicateRows col ids' (S i) rest)).
  { intros ids'. eapply Forall_impl; [|apply IH]. simpl. intros j Hj. lia. }
  cbn [duplicateRows].
  destruct (get r col) as [v|]; [|apply Hw].
  destruct (truthy (Some v)); [|apply Hw].
  destruct (has ids v); [|apply Hw].
  constructor; [simpl; lia|apply Hw].
Qed.

Lemma duplicateRows_ascending col data :
  forall ids i, StronglySorted Nat.lt (duplicateRows col ids i data).
Proof.
  induction data as [|r rest IH]; intros ids i; [constructor|].
  cbn [duplicateRows].
  destruct (get r col) as [v|]; [|apply IH].
  destruct (truthy (Some v)); [|apply IH].
  destruct (has ids v); [|apply IH].
  constructor; [apply IH|].
  eapply Forall_impl; [|apply duplicateRows_bounds]. simpl. intros j Hj.
  unfold Nat.lt. lia.
Qed.

(** The group of [validateUniqueIds]: it never throws, and its row indices
    are the duplicate rows of the scan that starts with an empty set. *)
Lemma validateUniqueIds_group data et col :
  exists G,
    (forall errs, validateUniqueIds data et col errs = inr (errs ++ G))
    /\ Forall (hasSignature (duplicateSignature et col)) G
    /\ map rowIndex G = duplicateRows col [] 0 data.
Proof.
  destruct data as [|r rest].
  - exists []. split; [intros; simpl; rewrite app_nil_r; reflexivity|].
    split; [constructor|reflexivity].
  - destruct (uniqueIds_forEach et col (r :: rest) 0 []) as [ids' [G [Hrun [HG Hrows]]]].
    exists G. split; [|split; auto].
    intros errs. unfold validateUniqueIds. rewrite Hrun. reflexivity.
Qed.

Lemma validateUniqueIds_appends data et col :
  appendsGroup (groupOf (duplicateSignature et col)) (validateUniqueIds data et col).
Proof.
  destruct (validateUniqueIds_group data et col) as [G [Hrun [HG Hrows]]].
  split.
  - intros errs. rewrite (Hrun errs), (Hrun []). reflexivity.
  - intros G' H. rewrite (Hrun []) in H. simpl in H. injection H as <-.
    split; auto. unfold ascending. rewrite Hrows. apply duplicateRows_ascending.
Qed.

Lemma validateArrayFields_appends data et f ty :
  appendsGroup
    (groupOf {| types := ["malformedArray"; "invalidArrayElements"];
                entity := et; column := Some f |})
    (validateArrayFields data et f ty).
Proof.
  apply (rule_appends _ _ (fun d => validateArrayFields d et f ty)
           (arrayFieldsRow_appends et f ty)); reflexivity.
Qed.

Lemma validateRange_appends data et f lo hi :
  appendsGroup (groupOf {| types := ["outOfRange"]; entity := et; column := Some f |})
    (validateRange data et f lo hi).
Proof.
  apply (rule_appends _ _ (fun d => validateRange d et f lo hi)
           (rangeRow_appends et f lo hi)); reflexivity.
Qed.

Lemma validateMinValue_appends data et f lo :
  appendsGroup (groupOf {| types := ["belowMinimum"]; entity := et; column := Some f |})
    (validateMinValue data et f lo).
Proof.
  apply (rule_appends _ _ (fun d => validateMinValue d et f lo)
           (minValueRow_appends et f lo)); reflexivity.
Qed.

Lemma validateJSON_appends data et f :
  appendsGroup (groupOf {| types := ["invalidJSON"]; entity := et; column := Some f |})
    (validateJSON data et f).
Proof.
  apply (rule_appends _ _ (fun d => validateJSON d et f) (jsonRow_appends et f));
    reflexivity.
Qed.

Lemma validateWorkerCapacity_appends workers :
  appendsGroup
    (groupOf {| types := ["overloadedWorker"]; entity := "workers";
                column := Some "MaxLoadPerPhase" |})
    (validateWorkerCapacity workers).
Proof.
  apply (rule_appends _ _ validateWorkerCapacity workerCapacityRow_appends); reflexivity.
Qed.

Lemma returns_appends sg : appendsGroup (groupOf sg) ret.
Proof.
  split.
  - intros errs. simpl. rewrite app_nil_r. reflexivity.
  - intros G H. injection H as <-. split; constructor.
Qed.

Lemma validateTaskReferences_appends clients tasks :
  appendsGroup
    (groupOf {| types := ["unknownReferences"]; entity := "clients";
                column := Some "RequestedTaskIDs" |})
    (validateTaskReferences clients tasks).
Proof.
  destruct clients as [|c cs]; [apply returns_appends|].
  destruct tasks as [|t ts]; [apply returns_appends|].
  set (taskIds := setOf (map (fun task => get task "TaskID") (t :: ts))).
  exact (rule_appends _ _
           (fun d => match d with
                     | [] => ret
                     | _ :: _ => forEach (taskReferencesRow taskIds) d 0
                     end)
           (taskReferencesRow_appends taskIds)
           (fun _ => eq_refl) (fun _ _ _ => eq_refl) (c :: cs)).
Qed.

Lemma validateSkillCoverage_appends workers tasks :
  appendsGroup
    (groupOf {| types := ["uncoveredSkills"]; entity := "tasks";
                column := Some "RequiredSkills" |})
    (validateSkillCoverage workers tasks).
Proof.
  destruct workers as [|w ws]; [apply returns_appends|].
  destruct tasks as [|t ts]; [apply returns_appends|].
  exact (rule_appends _ _
           (fun d => match d with
                     | [] => ret
                     | _ :: _ => forEach (skillCoverageRow (collectSkills (w :: ws))) d 0
                     end)
           (skillCoverageRow_appends _)
           (fun _ => eq_refl) (fun _ _ _ => eq_refl) (t :: ts)).
Qed.

(** Call by call, the catalog appends groups with the listed signatures. *)
Lemma catalog_appends clients workers tasks :
  Forall2 (fun sg call => appendsGroup (groupOf sg) call)
    signatures (catalog clients workers tasks).
Proof.
  unfold signatures, catalog.
  repeat (apply Forall2_cons || apply Forall2_nil).
  - apply validateRequiredColumns_appends.
  - apply validateRequiredColumns_appends.
  - apply validateRequiredColumns_appends.
  - apply validateUniqueIds_appends.
  - apply validateUniqueIds_appends.
  - apply validateUniqueIds_appends.
  - apply validateArrayFields_appends.
  - apply validateArrayFields_appends.
  - apply validateArrayFields_appends.
  - apply validateArrayFields_appends.
  - apply validateRange_appends.
  - apply validateMinValue_appends.
  - apply validateMinValue_appends.
  - apply validateMinValue_appends.
  - apply validateJSON_appends.
  - apply validateJSON_appends.
  - apply validateJSON_appends.
  - apply validateTaskReferences_appends.
  - apply validateWorkerCapacity_appends.
  - apply validateSkillCoverage_appends.
Qed.

(** [runAll] threads the array through calls that append: when it returns,
    the result is the concatenation of the groups each call yields on its
    own; when it throws, one of the calls throws on its own. *)
Lemma runAll_returns {X} (R : X -> list ValidationError -> Prop) Qs calls :
  Forall2 (fun Q call => appendsGroup (R Q) call) Qs calls ->
  forall errs errs', runAll calls errs = inr errs' ->
  exists groups,
    errs' = errs ++ List.concat groups
    /\ Forall2 (fun call G => call [] = inr G) calls groups
    /\ Forall2 R Qs groups.
Proof.
  induction 1 as [|Q call Qs calls [Hframe HQ] _ IH]; intros errs errs' Hrun.
  - simpl in Hrun. injection Hrun as <-. exists []. simpl. rewrite app_nil_r. auto.
  - simpl in Hrun. rewrite Hframe in Hrun.
    destruct (call []) as [x|G] eqn:EG; simpl in Hrun; [discriminate|].
    destruct (IH _ _ Hrun) as [groups [-> [Hcalls HQs]]].
    exists (G :: groups). simpl. rewrite app_assoc. auto.
Qed.



End RuleFacts.

Section HandlerFacts.
Context {rt : Runtime}.

Lemma POST_status clients workers tasks :
  (status (POST clients workers tasks) = 200
   /\ runAll (catalog clients workers tasks) [] = inr (validate clients workers tasks))
  \/ (status (POST clients workers tasks) = 500
      /\ validate clients workers tasks = []
      /\ exists x, runAll (catalog clients workers tasks) [] = inl x).
Proof.
  unfold validate, POST.
  destruct (runAll (catalog clients workers tasks) []) as [x|errs]; simpl; eauto.
Qed.

(** A completed pass returns the concatenation of the groups of its calls. *)
Lemma POST_groups clients workers tasks :
  status (POST clients workers tasks) = 200 ->
  exists groups,
    validate clients workers tasks = List.concat groups
    /\ Forall2 (fun call G => call [] = inr G) (catalog clients workers tasks) groups
    /\ Forall2 groupOf signatures groups.
Proof.
  intros H.
  destruct (POST_status clients workers tasks) as [[_ Hrun]|[H500 _]];
    [|rewrite H in H500; discriminate].
  destruct (runAll_returns _ _ _ (catalog_appends clients workers tasks) _ _ Hrun)
    as [groups [Hcat [Hcalls Hsgs]]].
  exists groups. auto.
Qed.

Lemma filter_signature (f : ValidationError -> bool) sg G b :
  (forall e, hasSignature sg e -> f e = b) ->
  Forall (hasSignature sg) G ->
  filter f G = if b then G else [].
Proof.
  intros Hf HG. induction HG as [|e G He _ IH]; simpl.
  - destruct b; reflexivity.
  - rewrite (Hf e He), IH. destruct b; reflexivity.
Qed.

Lemma filter_no_group (f : ValidationError -> bool) sgs groups :
  Forall2 groupOf sgs groups ->
  (forall sg e, In sg sgs -> hasSignature sg e -> f e = false) ->
  filter f (List.concat groups) = [].
Proof.
  induction 1 as [|sg G sgs groups [HG _] _ IH]; intros Hf; [reflexivity|].
  simpl. rewrite filter_app.
  rewrite (filter_signature f sg G false); auto.
  - apply IH. intros sg' e Hin. apply Hf. right. exact Hin.
  - intros e. apply Hf. left. reflexivity.
Qed.

(** A test that recognises the errors of the [k]-th signature selects the
    [k]-th group. *)
Lemma filter_picks_group (f : ValidationError -> bool) sgs groups :
  Forall2 groupOf sgs groups ->
  forall k,
    (forall j sg e, nth_error sgs j = Some sg -> hasSignature sg e -> f e = Nat.eqb j k) ->
    filter f (List.concat groups) = nth k groups [].
Proof.
  induction 1 as [|sg G sgs groups [HG Hasc] Hrest IH]; intros k Hf.
  - destruct k; reflexivity.
  - simpl. rewrite filter_app.
    rewrite (filter_signature f sg G (Nat.eqb 0 k)); auto.
    2:{ intros e He. apply (Hf 0%nat sg e); auto. }
    destruct k as [|k]; simpl.
    + rewrite (filter_no_group f sgs groups Hrest); [apply app_nil_r|].
      intros sg' e Hin He. destruct (In_nth_error _ _ Hin) as [j Hj].
      apply (Hf (S j) sg' e); auto.
    + apply IH. intros j sg' e Hj He. rewrite (Hf (S j) sg' e); auto.
Qed.

Lemma Forall2_nth_error {A B} (R : A -> B -> Prop) l1 l2 :
  Forall2 R l1 l2 ->
  forall k a, nth_error l1 k = Some a ->
  exists b, nth_error l2 k = Some b /\ R a b.
Proof.
  induction 1 as [|x y l1 l2 Hxy _ IH]; intros k a Hk.
  - destruct k; discriminate.
  - destruct k as [|k]; simpl in *.
    + injection Hk as <-. eauto.
    + eauto.
Qed.

(** In a completed pass, the errors a test selects are the group of the
    call whose signature the test recognises. *)
Lemma validate_group clients workers tasks (f : ValidationError -> bool) k call :
  status (POST clients workers tasks) = 200 ->
  nth_error (catalog clients workers tasks) k = Some call ->
  (forall j sg e, nth_error signatures j = Some sg -> hasSignature sg e -> f e = Nat.eqb j k) ->
  exists G, call [] = inr G /\ filter f (validate clients workers tasks) = G.
Proof.
  intros H200 Hk Hf.
  destruct (POST_groups _ _ _ H200) as [groups [Hcat [Hcalls Hsgs]]].
  destruct (Forall2_nth_error _ _ _ Hcalls k call Hk) as [G [HG Hcall]].
  exists G. split; auto.
  rewrite Hcat, (filter_picks_group f _ _ Hsgs k Hf).
  apply nth_error_nth. exact HG.
Qed.

Lemma isDuplicateId_signature en :
  forall j sg e, nth_error signatures j = Some sg -> hasSignature sg e ->
    isDuplicateId en e = Nat.eqb j (3 + entityIndex en).
Proof. by_signature en. Qed.

Lemma isMissingColumns_signature en :
  forall j sg e, nth_error signatures j = Some sg -> hasSignature sg e ->
    isMissingColumns en e = Nat.eqb j (entityIndex en).
Proof. by_signature en. Qed.

End HandlerFacts.

(* ================================================================= *)
(** ** Identifier scan *)

Section IdentifierFacts.
Context {rt : Runtime}.

Lemma occurrencesFrom_bounds col v data :
  forall i, Forall (fun j => (i <= j)%nat) (occurrencesFrom i col v data).
Proof.
  induction data as [|r rest IH]; intros i; simpl; [constructor|].
  assert (Hw : Forall (fun j => (i <= j)%nat) (occurrencesFrom (S i) col v rest)).
  { eapply Forall_impl; [|apply IH]. simpl. intros j Hj. lia. }
  destruct (holdsId col v r); auto.
Qed.

Lemma memNat_above n l : Forall (fun j => (S n <= j)%nat) l -> memNat n l = false.
Proof.
  induction 1 as [|j l Hj _ IH]; simpl; auto.
  rewrite IH, orb_false_r. apply Nat.eqb_neq. lia.
Qed.

Lemma memNat_head n l : memNat n (n :: l) = true.
Proof. unfold memNat. simpl. rewrite Nat.eqb_refl. reflexivity. Qed.

Lemma filter_memNat_cons i occ l :
  Forall (fun j => (S i <= j)%nat) l ->
  filter (fun j => memNat j (i :: occ)) l = filter (fun j => memNat j occ) l.
Proof.
  intros H. apply filter_ext_in. intros j Hj.
  rewrite Forall_forall in H. specialize (H j Hj). simpl.
  replace (Nat.eqb j i) with false; auto.
  symmetry. apply Nat.eqb_neq. lia.
Qed.

(** The duplicate rows that hold [v] are the occurrences of [v], without
    the first one unless [v] was seen before the scan started. *)
Lemma duplicateRows_occurrences col v data :
  primitive v = true -> truthy (Some v) = true ->
  forall ids i,
    filter (fun j => memNat j (occurrencesFrom i col v data)) (duplicateRows col ids i data)
    = if has ids v then occurrencesFrom i col v data
      else tl (occurrencesFrom i col v data).
Proof.
  intros Hprim Htruthy. induction data as [|r rest IH]; intros ids i.
  - simpl. destruct (has ids v); reflexivity.
  - cbn [duplicateRows occurrencesFrom]. unfold holdsId.
    pose proof (duplicateRows_bounds col rest) as Hdup.
    pose proof (occurrencesFrom_bounds col v rest (S i)) as Hocc.
    assert (Hshift : forall ids',
              Forall (fun j => (S i <= j)%nat) (duplicateRows col ids' (S i) rest)).
    { intros ids'. eapply Forall_impl; [|apply Hdup]. simpl. intros j Hj. lia. }
    destruct (get r col) as [x|]; [|apply IH].
    destruct (truthy (Some x)) eqn:Ex.
    + destruct (has ids x) eqn:Eh.
      * destruct (sameValueZero x v) eqn:Exv.
        -- cbn [filter]. rewrite memNat_head.
           rewrite (filter_memNat_cons i _ _ (Hshift ids)), IH.
           rewrite <- (has_same ids x v Exv), Eh. reflexivity.
        -- cbn [filter]. rewrite (memNat_above i _ Hocc). apply IH.
      * destruct (sameValueZero x v) eqn:Exv.
        -- rewrite (filter_memNat_cons i _ _ (Hshift (add ids x))), IH.
           rewrite has_add, <- (has_same ids x v Exv), Eh.
           rewrite (sameValueZero_sym _ _ Exv). reflexivity.
        -- rewrite IH, has_add.
           destruct (sameValueZero v x) eqn:Evx.
           ++ apply sameValueZero_sym in Evx. rewrite Evx in Exv. discriminate.
           ++ rewrite orb_false_r. reflexivity.
    + destruct (sameValueZero x v) eqn:Exv.
      * rewrite (sameValueZero_truthy _ _ Exv), Htruthy in Ex. discriminate.
      * apply IH.
Qed.

(** Every duplicate row holds a truthy identifier. *)
Lemma duplicateRows_truthy col data :
  forall ids i j, In j (duplicateRows col ids i data) ->
    exists r, nth_error data (j - i) = Some r /\ truthy (get r col) = true.
Proof.
  induction data as [|r rest IH]; intros ids i j Hj; [destruct Hj|].
  cbn [duplicateRows] in Hj.
  assert (Hrest : forall ids', In j (duplicateRows col ids' (S i) rest) ->
            exists r', nth_error (r :: rest) (j - i) = Some r' /\ truthy (get r' col) = true).
  { intros ids' Hin. destruct (IH _ _ _ Hin) as [r' [Hn Ht]].
    pose proof (duplicateRows_bounds col rest ids' (S i)) as Hb.
    rewrite Forall_forall in Hb. specialize (Hb j Hin).
    exists r'. split; auto.
    replace (j - i)%nat with (S (j - S i)) by lia. exact Hn. }
  destruct (get r col) as [x|] eqn:Ex; [|eauto].
  destruct (truthy (Some x)) eqn:Et; [|eauto].
  destruct (has ids x); [|eauto].
  destruct Hj as [<-|Hj]; [|eauto].
  exists r. rewrite Nat.sub_diag. simpl. rewrite Ex. auto.
Qed.

Lemma catalog_uniqueIds clients workers tasks en :
  nth_error (catalog clients workers tasks) (3 + entityIndex en)
  = Some (validateUniqueIds (collection en clients workers tasks)
            (entityName en) (idColumn en)).
Proof. destruct en; reflexivity. Qed.

Lemma catalog_requiredColumns clients workers tasks en :
  nth_error (catalog clients workers tasks) (entityIndex en)
  = Some (validateRequiredColumns (collection en clients workers tasks)
            (entityName en) (requiredColumns en)).
Proof. destruct en; reflexivity. Qed.

(** The DuplicateId errors of a completed pass, for one entity, sit at the
    duplicate rows of that entity's identifier scan. *)
Lemma validate_duplicateRows clients workers tasks en :
  status (POST clients workers tasks) = 200 ->
  map rowIndex (filter (isDuplicateId en) (validate clients workers tasks))
  = duplicateRows (idColumn en) [] 0 (collection en clients workers tasks).
Proof.
  intros H200.
  destruct (validate_group clients workers tasks (isDuplicateId en) _ _ H200
              (catalog_uniqueIds clients workers tasks en)
              (isDuplicateId_signature en)) as [G [HG Hfilter]].
  destruct (validateUniqueIds_group (collection en clients workers tasks)
              (entityName en) (idColumn en)) as [G' [Hrun [_ Hrows]]].
  rewrite (Hrun []) in HG. simpl in HG. injection HG as ->.
  rewrite Hfilter. exact Hrows.
Qed.

End IdentifierFacts.

(* ================================================================= *)
(** ** Claims about the identifier and required-column rules *)

Lemma filter_andb {A} (f g : A -> bool) l :
  filter (fun x => f x && g x) l = filter g (filter f l).
Proof.
  induction l as [|x l IH]; simpl; auto.
  destruct (f x); simpl; rewrite IH; reflexivity.
Qed.

Lemma map_filter_comm {A B} (h : A -> B) (g : B -> bool) l :
  map h (filter (fun x => g (h x)) l) = filter g (map h l).
Proof.
  induction l as [|x l IH]; simpl; auto.
  destruct (g (h x)); simpl; rewrite IH; reflexivity.
Qed.

Lemma length_tl {A} (l : list A) : List.length (tl l) = (List.length l - 1)%nat.
Proof. destruct l; simpl; lia. Qed.

(** C2 (as amended): for every entity collection and every truthy primitive
    identifier [v] (a non-empty string, a non-zero number, [true]), the
    identifier rule never throws and reports, among the rows holding [v],
    exactly the occurrences of [v] beyond the first; in a completed pass
    (status 200) the DuplicateId errors of [validate] for that entity at
    rows holding [v] are those: one per occurrence beyond the first, [k - 1]
    of them for [k] occurrences, none for a single occurrence. *)
Theorem duplicate_ids_reported_beyond_first {rt : Runtime}
    (clients workers tasks : list row) (en : Entity) (v : value) :
  primitive v = true -> truthy (Some v) = true ->
  let data := collection en clients workers tasks in
  let occ := occurrences (idColumn en) v data in
  (exists G,
     (forall errs, validateUniqueIds data (entityName en) (idColumn en) errs
                   = inr (errs ++ G))
     /\ Forall (fun e => isDuplicateId en e = true) G
     /\ map rowIndex (filter (fun e => memNat (rowIndex e) occ) G) = tl occ)
  /\ (status (POST clients workers tasks) = 200 ->
      let reported :=
        filter (fun e => isDuplicateId en e && memNat (rowIndex e) occ)
          (validate clients workers tasks) in
      map rowIndex reported = tl occ
      /\ List.length reported = (List.length occ - 1)%nat).
Proof.
  intros Hprim Htruthy data occ.
  pose proof (duplicateRows_occurrences (idColumn en) v data Hprim Htruthy [] 0) as Hocc.
  simpl in Hocc. fold (occurrences (idColumn en) v data) in Hocc. fold occ in Hocc.
  split.
  - destruct (validateUniqueIds_group data (entityName en) (idColumn en))
      as [G [Hrun [HG Hrows]]].
    exists G. split; [exact Hrun|]. split.
    + eapply Forall_impl; [|exact HG]. intros e [Hty [Hen _]]. simpl in Hty, Hen.
      unfold isDuplicateId. destruct Hty as [<-|[]]. rewrite Hen.
      destruct en; reflexivity.
    + rewrite (map_filter_comm rowIndex (fun j => memNat j occ)), Hrows. exact Hocc.
  - intros H200 reported.
    assert (Hrep : map rowIndex reported = tl occ).
    { unfold reported. rewrite filter_andb.
      rewrite (map_filter_comm rowIndex (fun j => memNat j occ)).
      rewrite (validate_duplicateRows clients workers tasks en H200). exact Hocc. }
    split; [exact Hrep|].
    rewrite <- (length_map rowIndex), Hrep. apply length_tl.
Qed.

(** Witness for C2: "C1" in rows 0, 2 and 3 of four clients. *)
Lemma duplicate_ids_reported_beyond_first_witness :
  occurrences "ClientID" (Str "C1") repeatedClients = [0; 2; 3]%nat
  /\ map rowIndex
       (filter (fun e => isDuplicateId Clients e
                         && memNat (rowIndex e)
                              (occurrences "ClientID" (Str "C1") repeatedClients))
          (validate (rt := exampleRuntime) repeatedClients [] []))
     = [2; 3]%nat.
Proof.
  split; [reflexivity|].
  exact (proj1 (proj2 (duplicate_ids_reported_beyond_first (rt := exampleRuntime)
                         repeatedClients [] [] Clients (Str "C1")
                         eq_refl eq_refl) eq_refl)).
Defined.

(** Counterexample to C2 as stated: the empty string occurs twice in the
    ClientID column and no DuplicateId error is reported.  (And "C1", which
    occurs three times, is not reported either when another rule aborts the
    pass, here on one worker's skill.) *)
Lemma duplicate_ids_counterexample :
  occurrences "ClientID" (Str "") emptyIdClients = [0; 1]%nat
  /\ status (POST (rt := exampleRuntime) emptyIdClients [] []) = 200
  /\ validate (rt := exampleRuntime) emptyIdClients [] [] = []
  /\ occurrences "ClientID" (Str "C1") repeatedClients = [0; 2; 3]%nat
  /\ validate (rt := exampleRuntime) repeatedClients [oddWorker] [] = [].
Proof. repeat split; reflexivity. Qed.

Lemma duplicateRows_falsy col data :
  Forall (fun r => truthy (get r col) = false) data ->
  forall ids i, duplicateRows col ids i data = [].
Proof.
  intros Hall ids i.
  destruct (duplicateRows col ids i data) as [|j l] eqn:E; auto.
  destruct (duplicateRows_truthy col data ids i j) as [r [Hn Ht]].
  { rewrite E. left. reflexivity. }
  rewrite Forall_forall in Hall. rewrite (Hall r) in Ht; [discriminate|].
  eapply nth_error_In; eauto.
Qed.

(** C9: the identifier rule skips rows whose identifier is falsy.  The
    rule never throws, and every error it reports sits at a row whose
    identifier is truthy; so a collection whose identifiers are all absent,
    null or the empty string gets no DuplicateId error from the rule,
    however many rows share the missing identifier; and [validate] never
    reports a DuplicateId error at a row whose identifier is falsy. *)
Theorem falsy_identifiers_are_skipped {rt : Runtime} :
  (forall data en errs,
     exists G,
       validateUniqueIds data (entityName en) (idColumn en) errs = inr (errs ++ G)
       /\ (forall e, In e G ->
             exists r, nth_error data (rowIndex e) = Some r
                       /\ truthy (get r (idColumn en)) = true)
       /\ (Forall (fun r => get r (idColumn en) = None
                            \/ get r (idColumn en) = Some Null
                            \/ get r (idColumn en) = Some (Str "")) data ->
           G = []))
  /\ (forall clients workers tasks en i r,
        nth_error (collection en clients workers tasks) i = Some r ->
        truthy (get r (idColumn en)) = false ->
        forall e, In e (validate clients workers tasks) ->
                  isDuplicateId en e = true -> rowIndex e <> i).
Proof.
  split.
  - intros data en errs.
    destruct (validateUniqueIds_group data (entityName en) (idColumn en))
      as [G [Hrun [_ Hrows]]].
    exists G. split; [apply Hrun|]. split.
    + intros e He.
      destruct (duplicateRows_truthy (idColumn en) data [] 0 (rowIndex e)) as [r [Hn Ht]].
      { rewrite <- Hrows. apply in_map. exact He. }
      rewrite Nat.sub_0_r in Hn. eauto.
    + intros Hall. rewrite duplicateRows_falsy in Hrows.
      * destruct G; [reflexivity|discriminate].
      * eapply Forall_impl; [|exact Hall]. simpl.
        intros r [->|[->| ->]]; reflexivity.
  - intros clients workers tasks en i r Hr Hfalsy e He Hdup Hi.
    destruct (POST_status clients workers tasks) as [[H200 _]|[_ [Hnil _]]].
    + pose proof (validate_duplicateRows clients workers tasks en H200) as Hrows.
      assert (Hin : In (rowIndex e)
                      (duplicateRows (idColumn en) [] 0
                         (collection en clients workers tasks))).
      { rewrite <- Hrows. apply in_map. apply filter_In. auto. }
      destruct (duplicateRows_truthy _ _ _ _ _ Hin) as [r' [Hn Ht]].
      rewrite Nat.sub_0_r, Hi, Hr in Hn. injection Hn as <-.
      rewrite Ht in Hfalsy. discriminate.
    + rewrite Hnil in He. destruct He.
Qed.

(** Witness for C9: two clients with the empty string as identifier. *)
Lemma falsy_identifiers_are_skipped_witness :
  validateUniqueIds (rt := exampleRuntime) emptyIdClients "clients" "ClientID" [] = inr []
  /\ forall e, In e (validate (rt := exampleRuntime) emptyIdClients [] []) ->
               isDuplicateId Clients e = true -> rowIndex e <> 1%nat.
Proof.
  split.
  - destruct (proj1 (falsy_identifiers_are_skipped (rt := exampleRuntime))
                emptyIdClients Clients []) as [G [Hrun [_ Hnil]]].
    rewrite Hnil in Hrun; [exact Hrun|].
    repeat constructor; right; right; reflexivity.
  - exact (proj2 (falsy_identifiers_are_skipped (rt := exampleRuntime))
             emptyIdClients [] [] Clients 1%nat (clientRow (Str "")) eq_refl eq_refl).
Defined.

Lemma includes_In l s : includes l s = true <-> In s l.
Proof.
  unfold includes. rewrite existsb_exists. split.
  - intros [x [Hin Heq]]. apply String.eqb_eq in Heq. subst. exact Hin.
  - intros Hin. exists s. split; auto. apply String.eqb_refl.
Qed.

(** The head of a filtered list is the first element that passes. *)
Lemma filter_head {A} (p : A -> bool) l x rest :
  filter p l = x :: rest ->
  exists before after,
    l = before ++ x :: after /\ Forall (fun y => p y = false) before /\ p x = true.
Proof.
  induction l as [|y l IH]; simpl; [discriminate|].
  destruct (p y) eqn:Ey.
  - intros H. injection H as -> _. exists [], l. auto.
  - intros H. destruct (IH H) as [before [after [-> [Hb Hx]]]].
    exists (y :: before), after. auto.
Qed.

(** C10: the required-columns rule looks at the keys of the first row only.
    On an empty collection it reports nothing.  On a non-empty one its
    outcome is the same whatever rows follow the first; it reports nothing
    exactly when every required column is a key of row 0 (also when the
    other rows lack it), and otherwise one aggregate error of type
    missingColumns with [rowIndex] 0 whose [columnName] is the first
    required column that row 0 lacks.  In a completed pass the
    missingColumns errors of [validate] for an entity are that group, so at
    most one per entity. *)
Theorem required_columns_decided_by_first_row {rt : Runtime} :
  (forall et cols errs, validateRequiredColumns [] et cols errs = inr errs)
  /\ (forall first rest et cols errs,
        exists G,
          (forall rest', validateRequiredColumns (first :: rest') et cols errs
                         = inr (errs ++ G))
          /\ validateRequiredColumns (first :: rest) et cols errs = inr (errs ++ G)
          /\ (List.length G <= 1)%nat
          /\ (G = [] <-> forall col, In col cols -> In col (keys first))
          /\ forall e, In e G ->
               type e = "missingColumns" /\ severity e = error
               /\ entityType e = et /\ rowIndex e = 0%nat
               /\ exists present others,
                    cols = present ++ columnName e :: others
                    /\ Forall (fun col => In col (keys first)) present
                    /\ ~ In (columnName e) (keys first))
  /\ (forall clients workers tasks en,
        status (POST clients workers tasks) = 200 ->
        exists G,
          validateRequiredColumns (collection en clients workers tasks)
            (entityName en) (requiredColumns en) [] = inr G
          /\ filter (isMissingColumns en) (validate clients workers tasks) = G
          /\ (List.length G <= 1)%nat).
Proof.
  split; [reflexivity|]. split.
  - intros first rest et cols errs. unfold validateRequiredColumns, push, ret.
    destruct (filter (fun col => negb (includes (keys first) col)) cols)
      as [|missing0 more] eqn:Emissing.
    + exists []. rewrite app_nil_r.
      split; [reflexivity|]. split; [reflexivity|]. split; [simpl; lia|]. split.
      * split; [|reflexivity]. intros _ col Hcol. apply includes_In.
        destruct (includes (keys first) col) eqn:E; auto.
        assert (Hin : In col (filter (fun c => negb (includes (keys first) c)) cols)).
        { apply filter_In. rewrite E. auto. }
        rewrite Emissing in Hin. destruct Hin.
      * intros e [].
    + eexists [_]. split; [reflexivity|]. split; [reflexivity|].
      split; [simpl; lia|]. split.
      * split; [discriminate|]. intros Hall. exfalso.
        assert (Hin : In missing0 (filter (fun c => negb (includes (keys first) c)) cols)).
        { rewrite Emissing. left. reflexivity. }
        apply filter_In in Hin. destruct Hin as [Hcol Hneg].
        apply Hall, includes_In in Hcol. rewrite Hcol in Hneg. discriminate.
      * intros e [<-|[]]. simpl. repeat split; auto.
        destruct (filter_head _ _ _ _ Emissing) as [before [after [Hcols [Hb Hx]]]].
        exists before, after. split; [exact Hcols|]. split.
        -- eapply Forall_impl; [|exact Hb]. simpl. intros col Hcol.
           apply includes_In. destruct (includes (keys first) col); auto; discriminate.
        -- intros Hin. apply includes_In in Hin. rewrite Hin in Hx. discriminate.
  - intros clients workers tasks en H200.
    destruct (validate_group clients workers tasks (isMissingColumns en) _ _ H200
                (catalog_requiredColumns clients workers tasks en)
                (isMissingColumns_signature en)) as [G [HG Hfilter]].
    exists G. split; [exact HG|]. split; [exact Hfilter|].
    unfold validateRequiredColumns, push, ret in HG.
    split_matches; injection HG as <-; simpl; lia.
Qed.

(** Witness for C10: a first row without [Name] is reported although the
    next row has it; a complete first row silences the rule although the
    next row is empty. *)
Lemma required_columns_decided_by_first_row_witness :
  (exists G,
     validateRequiredColumns (collection Clients namelessFirst [] [])
       (entityName Clients) (requiredColumns Clients) [] = inr G
     /\ filter (isMissingColumns Clients) (validate (rt := exampleRuntime) namelessFirst [] []) = G
     /\ (List.length G <= 1)%nat)
  /\ map (fun e => (rowIndex e, columnName e))
       (validate (rt := exampleRuntime) namelessFirst [] []) = [(0%nat, "Name")]
  /\ validate (rt := exampleRuntime) emptySecond [] [] = [].
Proof.
  split; [|split; reflexivity].
  exact (proj2 (proj2 (required_columns_decided_by_first_row (rt := exampleRuntime)))
           namelessFirst [] [] Clients eq_refl).
Defined.

(* ================================================================= *)
(** ** Claims about task references and the order of the list *)

Section ReferenceFacts.
Context {rt : Runtime}.

(** What [forEach] returns contains what the callback reports at each row. *)
Lemma forEach_reports P callback :
  appendsAtRow P callback ->
  forall data i G k r,
    forEach callback data i [] = inr G ->
    nth_error data k = Some r ->
    exists g, callback r (i + k) [] = inr g /\ incl g G.
Proof.
  intros Hcb. induction data as [|r0 rest IH]; intros i G k r Hrun Hk.
  - destruct k; discriminate.
  - destruct (forEach_appends P callback Hcb rest (S i)) as [Hframe _].
    simpl in Hrun.
    destruct (callback r0 i []) as [x|g0] eqn:Eg; simpl in Hrun; [discriminate|].
    rewrite Hframe in Hrun.
    destruct (forEach callback rest (S i) []) as [x|G'] eqn:EG; simpl in Hrun;
      [discriminate|].
    injection Hrun as <-.
    destruct k as [|k]; simpl in Hk.
    + injection Hk as <-. exists g0. rewrite Nat.add_0_r. split; auto.
      apply incl_appl, incl_refl.
    + destruct (IH (S i) G' k r EG Hk) as [g [Hg Hincl]].
      exists g. rewrite Nat.add_succ_r. split; auto.
      apply incl_appr. exact Hincl.
Qed.

(** Whatever [has] finds in the task-identifier set is an identifier of
    some task. *)
Lemma fold_add_has (l : list (option value)) :
  forall acc v,
    has (fold_left (fun s o => match o with Some x => add s x | None => s end) l acc) v
    = true ->
    has acc v = true \/ exists x, In (Some x) l /\ sameValueZero v x = true.
Proof.
  induction l as [|o l IH]; intros acc v H; simpl in H; auto.
  destruct (IH _ _ H) as [Hacc|[x [Hin Hx]]].
  - destruct o as [y|]; auto.
    rewrite has_add in Hacc. apply orb_true_iff in Hacc. destruct Hacc; auto.
    right. exists y. split; auto. left. reflexivity.
  - right. exists x. split; auto. right. exact Hin.
Qed.

Lemma setOf_has vs v :
  has (setOf vs) v = true -> exists x, In (Some x) vs /\ sameValueZero v x = true.
Proof.
  unfold setOf. intros H. destruct (fold_add_has _ _ _ H) as [Hnil|[x [Hin Hx]]].
  - discriminate.
  - exists x. split; auto. apply filter_In in Hin. tauto.
Qed.

End ReferenceFacts.

(** C3 (as amended): when a client row requests exactly ["T99"], the task
    collection is not empty, no task row has TaskID "T99", and the pass
    completes (status 200), [validate] reports an unknownReferences error
    of severity error for entity clients with [columnName]
    "RequestedTaskIDs" at the client's row index. *)
Theorem unknown_task_reference_reported {rt : Runtime}
    (clients workers tasks : list row) (i : nat) (client : row) :
  nth_error clients i = Some client ->
  get client "RequestedTaskIDs" = Some (Arr [Str "T99"]) ->
  tasks <> [] ->
  (forall task, In task tasks -> get task "TaskID" <> Some (Str "T99")) ->
  status (POST clients workers tasks) = 200 ->
  exists e,
    In e (validate clients workers tasks)
    /\ type e = "unknownReferences" /\ severity e = error
    /\ entityType e = "clients" /\ rowIndex e = i
    /\ columnName e = "RequestedTaskIDs".
Proof.
  intros Hclient Hreq Htasks Hnone H200.
  destruct (POST_groups _ _ _ H200) as [groups [Hcat [Hcalls _]]].
  destruct (Forall2_nth_error _ _ _ Hcalls 17%nat
              (validateTaskReferences clients tasks) eq_refl) as [G [HG Hrun]].
  destruct clients as [|c0 cs]; [destruct i; discriminate|].
  destruct tasks as [|t0 ts]; [contradiction|].
  cbn [validateTaskReferences] in Hrun.
  set (taskIds := setOf (map (fun task => get task "TaskID") (t0 :: ts))) in Hrun.
  destruct (forEach_reports _ _ (taskReferencesRow_appends taskIds) _ _ _ _ _ Hrun Hclient)
    as [g [Hg Hincl]].
  assert (Hunknown : has taskIds (Str "T99") = false).
  { destruct (has taskIds (Str "T99")) eqn:E; auto.
    destruct (setOf_has _ _ E) as [x [Hin Hx]].
    apply in_map_iff in Hin. destruct Hin as [task [Hget Hin]].
    destruct x; cbn [sameValueZero] in Hx; try discriminate.
    apply String.eqb_eq in Hx. subst s.
    exfalso. apply (Hnone task Hin). exact Hget. }
  unfold taskReferencesRow in Hg. rewrite Hreq in Hg. cbn [filter] in Hg.
  rewrite Hunknown in Hg. simpl in Hg. injection Hg as <-.
  eexists. split.
  - rewrite Hcat. apply in_concat. exists G. split.
    + eapply nth_error_In. exact HG.
    + apply Hincl. left. reflexivity.
  - simpl. auto 10.
Qed.

(** Witness for C3: one requesting client, one task "T1". *)
Lemma unknown_task_reference_reported_witness :
  exists e,
    In e (validate (rt := exampleRuntime) [requestingClient] [] [taskRow (Str "T1")])
    /\ type e = "unknownReferences" /\ severity e = error
    /\ entityType e = "clients" /\ rowIndex e = 0%nat
    /\ columnName e = "RequestedTaskIDs".
Proof.
  apply (unknown_task_reference_reported (rt := exampleRuntime)
           [requestingClient] [] [taskRow (Str "T1")] 0 requestingClient).
  - reflexivity.
  - reflexivity.
  - discriminate.
  - intros task [<-|[]]. discriminate.
  - reflexivity.
Defined.

(** Counterexample to C3 as stated: with an empty task collection the
    reference rule returns at once, and the request for "T99" is not
    reported.  (And a pass that a later rule aborts reports nothing at
    all, here because of one worker's skill.) *)
Lemma unknown_task_reference_counterexample :
  get requestingClient "RequestedTaskIDs" = Some (Arr [Str "T99"])
  /\ status (POST (rt := exampleRuntime) [requestingClient] [] []) = 200
  /\ validate (rt := exampleRuntime) [requestingClient] [] [] = []
  /\ validate (rt := exampleRuntime) [requestingClient] [oddWorker] [taskRow (Str "T1")] = [].
Proof. repeat split; reflexivity. Qed.

Section OrderFacts.
Context {rt : Runtime}.

Lemma catalogRule_signature sg e :
  In sg signatures -> hasSignature sg e -> catalogRule e = ruleOf sg.
Proof.
  intros Hin [Hty _]. unfold catalogRule. unfold signatures in Hin. simpl in Hin.
  repeat (destruct Hin as [<-|Hin];
          [ simpl in Hty;
            repeat (destruct Hty as [<-|Hty]; [reflexivity|]); destruct Hty | ]).
  destruct Hin.
Qed.

Lemma StronglySorted_app {A} (R : A -> A -> Prop) l1 l2 :
  StronglySorted R l1 -> StronglySorted R l2 ->
  (forall a b, In a l1 -> In b l2 -> R a b) ->
  StronglySorted R (l1 ++ l2).
Proof.
  induction 1 as [|a l1 Hs IH Ha]; intros H2 Hcross; simpl; auto.
  constructor.
  - apply IH; auto. intros x y Hx Hy. apply Hcross; auto. right. exact Hx.
  - apply Forall_app. split; auto.
    apply Forall_forall. intros y Hy. apply Hcross; auto. left. reflexivity.
Qed.

Lemma StronglySorted_constant {A} (key : A -> nat) n l :
  Forall (fun e => key e = n) l ->
  StronglySorted (fun a b => (key a <= key b)%nat) l.
Proof.
  induction 1 as [|a l Ha Hl IH]; constructor; auto.
  eapply Forall_impl; [|exact Hl]. simpl. intros b Hb. lia.
Qed.

Lemma concat_keys {X E} (num : X -> nat) (key : E -> nat) xs groups :
  Forall2 (fun x G => Forall (fun e => key e = num x) G) xs groups ->
  forall e, In e (List.concat groups) -> exists x, In x xs /\ key e = num x.
Proof.
  induction 1 as [|x G xs groups HG _ IH]; intros e He; [destruct He|].
  simpl in He. apply in_app_or in He. destruct He as [He|He].
  - exists x. split; [left; reflexivity|]. rewrite Forall_forall in HG. auto.
  - destruct (IH e He) as [x' [Hx' Hk]]. exists x'. split; [right|]; auto.
Qed.

(** Groups whose keys follow a sorted list of numbers concatenate to a list
    sorted by key. *)
Lemma concat_sorted {X E} (num : X -> nat) (key : E -> nat) xs groups :
  Forall2 (fun x G => Forall (fun e => key e = num x) G) xs groups ->
  StronglySorted (fun a b => (num a <= num b)%nat) xs ->
  StronglySorted (fun a b => (key a <= key b)%nat) (List.concat groups).
Proof.
  induction 1 as [|x G xs groups HG Hrest IH]; intros Hsorted; [constructor|].
  inversion Hsorted as [|? ? Hs Hx]; subst.
  simpl. apply StronglySorted_app; auto.
  - eapply StronglySorted_constant; eauto.
  - intros a b Ha Hb. rewrite Forall_forall in HG. rewrite (HG a Ha).
    destruct (concat_keys num key xs groups Hrest b Hb) as [x' [Hx' ->]].
    rewrite Forall_forall in Hx. apply Hx. exact Hx'.
Qed.

Lemma Forall2_impl_In {A B} (R1 R2 : A -> B -> Prop) l1 l2 :
  (forall a b, In a l1 -> R1 a b -> R2 a b) ->
  Forall2 R1 l1 l2 -> Forall2 R2 l1 l2.
Proof.
  intros Himpl H. induction H as [|a b l1 l2 Hab _ IH]; constructor.
  - apply Himpl; auto. left. reflexivity.
  - apply IH. intros a' b' Hin. apply Himpl. right. exact Hin.
Qed.

Lemma signatures_sorted :
  StronglySorted (fun a b => (ruleOf a <= ruleOf b)%nat) signatures.
Proof.
  unfold signatures.
  repeat (apply SSorted_cons; [|repeat (apply Forall_cons; [vm_compute; lia|]); apply Forall_nil]).
  apply SSorted_nil.
Qed.

(** The errors of a pass are sorted by the rule of the catalog they belong
    to. *)
Lemma validate_sorted_by_rule clients workers tasks :
  StronglySorted (fun a b => (catalogRule a <= catalogRule b)%nat)
    (validate clients workers tasks).
Proof.
  destruct (POST_status clients workers tasks) as [[H200 _]|[_ [Hnil _]]].
  - destruct (POST_groups _ _ _ H200) as [groups [-> [_ Hsgs]]].
    apply (concat_sorted ruleOf catalogRule signatures groups); [|apply signatures_sorted].
    eapply Forall2_impl_In; [|exact Hsgs]. simpl.
    intros sg G Hin [HG _]. eapply Forall_impl; [|exact HG]. simpl.
    intros e He. apply catalogRule_signature; auto.
  - rewrite Hnil. constructor.
Qed.

End OrderFacts.

(** C4 (as amended): the list [validate] returns is the concatenation, in
    the order of the calls in [POST], of the groups its twenty calls yield
    (each call is one rule applied to one collection and, where it has one,
    one field); the errors of one call carry that call's type, entity and
    column and appear in strictly ascending row-index order; the calls are
    listed rule by rule, so the whole list is sorted by catalog rule
    (required columns, duplicate ids, malformed arrays, range and minimum,
    JSON blobs, task references, worker capacity, skill coverage); an
    aborted pass returns the empty list; and the list is a function of the
    three collections. *)
Theorem errors_grouped_by_call_in_catalog_order {rt : Runtime}
    (clients workers tasks : list row) :
  (status (POST clients workers tasks) = 200 ->
   exists groups,
     validate clients workers tasks = List.concat groups
     /\ Forall2 (fun call G => call [] = inr G) (catalog clients workers tasks) groups
     /\ Forall2 (fun sg G => Forall (hasSignature sg) G /\ ascending G)
          signatures groups)
  /\ (status (POST clients workers tasks) <> 200 -> validate clients workers tasks = [])
  /\ StronglySorted (fun a b => (catalogRule a <= catalogRule b)%nat)
       (validate clients workers tasks)
  /\ (forall clients' workers' tasks',
        clients' = clients -> workers' = workers -> tasks' = tasks ->
        validate clients' workers' tasks' = validate clients workers tasks).
Proof.
  split; [|split; [|split]].
  - intros H200. destruct (POST_groups _ _ _ H200) as [groups [Hcat [Hcalls Hsgs]]].
    exists groups. auto.
  - intros Hnot. destruct (POST_status clients workers tasks) as [[H200 _]|[_ [Hnil _]]];
      [contradiction|exact Hnil].
  - apply validate_sorted_by_rule.
  - intros ? ? ? -> -> ->. reflexivity.
Qed.

(** Witness for C4: the two malformed workers. *)
Lemma errors_grouped_by_call_in_catalog_order_witness :
  (exists groups,
     validate (rt := exampleRuntime) [] malformedWorkers [] = List.concat groups
     /\ Forall2 (fun call G => call [] = inr G)
          (catalog (rt := exampleRuntime) [] malformedWorkers []) groups
     /\ Forall2 (fun sg G => Forall (hasSignature sg) G /\ ascending G)
          signatures groups)
  /\ map (fun e => (catalogRule e, columnName e, rowIndex e))
       (validate (rt := exampleRuntime) [] malformedWorkers [])
     = [(3, "AvailableSlots", 1); (3, "Skills", 0)]%nat.
Proof.
  split; [|reflexivity].
  exact (proj1 (errors_grouped_by_call_in_catalog_order (rt := exampleRuntime)
                  [] malformedWorkers []) eq_refl).
Defined.

(** Counterexample to C4 as stated: both errors below come from rule 3
    (malformed arrays) and from the workers collection, and row 1 is
    reported before row 0, because the rule runs once per field. *)
Lemma errors_of_one_rule_not_ascending :
  map (fun e => (catalogRule e, entityType e, rowIndex e))
    (validate (rt := exampleRuntime) [] malformedWorkers [])
  = [(3, "workers", 1); (3, "workers", 0)]%nat
  /\ ~ ascending (filter (fun e => Nat.eqb (catalogRule e) 3)
                    (validate (rt := exampleRuntime) [] malformedWorkers [])).
Proof.
  split; [reflexivity|].
  intros H. unfold ascending in H. vm_compute in H.
  inversion H as [|? ? _ Hall]; subst.
  inversion Hall as [|? ? Hlt _]; subst. inversion Hlt.
Qed.

(* ================================================================= *)
(** ** When the pass completes and when it is aborted *)

Section TotalityFacts.
Context {rt : Runtime}.


End TotalityFacts.




(* ================================================================= *)
(** ** Response cleaning *)

Section CleaningFacts.
Import Cleaning.

Lemma whitespace_not_brace c :
  isWhiteSpace c = true -> (c =? LBRACE)%N = false /\ (c =? RBRACE)%N = false.
Proof.
  intros H. split.
  - destruct (N.eqb_spec c LBRACE) as [E|]; [|reflexivity].
    subst c. vm_compute in H. discriminate H.
  - destruct (N.eqb_spec c RBRACE) as [E|]; [|reflexivity].
    subst c. vm_compute in H. discriminate H.
Qed.

Lemma dropWhile_head {A} (p : A -> bool) x l : p x = false -> dropWhile p (x :: l) = x :: l.
Proof. intros H. simpl. rewrite H. reflexivity. Qed.

(** [trim] leaves a text alone that neither starts nor ends with white
    space. *)
Lemma trim_id a m b :
  isWhiteSpace a = false -> isWhiteSpace b = false ->
  trim (a :: m ++ [b]) = a :: m ++ [b].
Proof.
  intros Ha Hb. unfold trim. rewrite (dropWhile_head _ _ _ Ha).
  replace (rev (a :: m ++ [b])) with (b :: rev (a :: m)).
  2:{ change (a :: m ++ [b]) with ((a :: m) ++ [b]). rewrite rev_app_distr. reflexivity. }
  rewrite (dropWhile_head _ _ _ Hb).
  change (rev (b :: rev (a :: m))) with (rev (rev (a :: m)) ++ [b]).
  rewrite rev_involutive. reflexivity.
Qed.

Lemma indexOf_first c p rest :
  Forall (fun x => (x =? c)%N = false) p ->
  indexOf c (p ++ c :: rest) = Some (List.length p).
Proof.
  induction 1 as [|x p Hx _ IH]; simpl.
  - rewrite N.eqb_refl. reflexivity.
  - rewrite Hx, IH. reflexivity.
Qed.

Lemma lastIndexOf_none c q :
  Forall (fun x => (x =? c)%N = false) q -> lastIndexOf c q = None.
Proof.
  induction 1 as [|x q Hx _ IH]; simpl; auto. rewrite IH, Hx. reflexivity.
Qed.

Lemma lastIndexOf_last c p q :
  Forall (fun x => (x =? c)%N = false) q ->
  lastIndexOf c (p ++ c :: q) = Some (List.length p).
Proof.
  intros Hq. induction p as [|x p IH]; simpl.
  - rewrite (lastIndexOf_none c q Hq), N.eqb_refl. reflexivity.
  - rewrite IH. reflexivity.
Qed.

Lemma skipn_length_app {A} (p q : list A) : skipn (List.length p) (p ++ q) = q.
Proof. induction p; simpl; auto. Qed.

Lemma firstn_length_app {A} (p q : list A) : firstn (List.length p) (p ++ q) = p.
Proof. induction p; simpl; auto. f_equal. auto. Qed.

(** A pattern without a match removes nothing. *)
Lemma removeMatches_noMatch matchLength s :
  forall b, noMatch matchLength b s -> removeMatches matchLength b 0 s = s.
Proof.
  induction s as [|c rest IH]; intros b H; simpl; auto.
  destruct H as [Hnone Hrest]. simpl in Hnone. rewrite Hnone.
  rewrite (IH _ Hrest). reflexivity.
Qed.

Lemma startsWith_app p q s : startsWith (p ++ q) s = true -> startsWith p s = true.
Proof.
  revert s. induction p as [|x p IH]; intros s; simpl; auto.
  destruct s as [|y s]; auto.
  intros H. apply andb_true_iff in H. destruct H as [-> H]. simpl. eauto.
Qed.

(** No fence at a line start: the two [^] patterns match nowhere. *)
Lemma noMatch_lineStartMarker suffix s :
  forall b, fenceAtBoundary b s = false ->
  noMatch (lineStartMarker (u "```" ++ suffix)) b s.
Proof.
  induction s as [|c rest IH]; intros b H; [exact I|].
  cbn [fenceAtBoundary] in H. apply orb_false_iff in H. destruct H as [Hhere Hrest].
  split; [|apply IH; exact Hrest].
  unfold lineStartMarker.
  destruct (b && startsWith (u "```" ++ suffix) (c :: rest)) eqn:E; auto.
  apply andb_true_iff in E. destruct E as [-> E].
  apply startsWith_app in E. rewrite E in Hhere. discriminate.
Qed.

(** No fence at a line end, at any distance. *)
Lemma fenceAtBoundary_skipn s :
  forall b k, fenceAtBoundary b s = false ->
  startsWith (u "```") (skipn k s) && atLineEnd (skipn 3 (skipn k s)) = false.
Proof.
  induction s as [|c rest IH]; intros b k H.
  - destruct k; reflexivity.
  - cbn [fenceAtBoundary] in H. apply orb_false_iff in H. destruct H as [Hhere Hrest].
    destruct k as [|k].
    + cbn [skipn]. destruct (startsWith (u "```") (c :: rest)); auto.
      simpl in Hhere. apply orb_false_iff in Hhere. destruct Hhere as [_ ->]. reflexivity.
    + cbn [skipn]. eapply IH. exact Hrest.
Qed.

Lemma noMatch_lineEndFence s :
  forall b, fenceAtBoundary b s = false -> noMatch lineEndFence b s.
Proof.
  induction s as [|c rest IH]; intros b H; [exact I|].
  split.
  - unfold lineEndFence.
    rewrite (fenceAtBoundary_skipn (c :: rest) b _ H). reflexivity.
  - cbn [fenceAtBoundary] in H. apply orb_false_iff in H. destruct H as [_ Hrest].
    apply IH. exact Hrest.
Qed.

End CleaningFacts.

(** A text without three backticks in a row has no fence at a boundary. *)
Lemma fenceAtBoundary_absent s :
  (forall k, Cleaning.startsWith (Cleaning.u "```") (skipn k s) = false) ->
  forall b, fenceAtBoundary b s = false.
Proof.
  induction s as [|c rest IH]; intros H b; [reflexivity|].
  cbn [fenceAtBoundary]. rewrite (H 0%nat : Cleaning.startsWith _ (c :: rest) = false).
  cbn [andb orb]. apply IH. intros k. exact (H (S k)).
Qed.

Lemma firstn_app_succ {A} (p q : list A) c :
  firstn (List.length p + 1) (p ++ c :: q) = p ++ [c].
Proof. induction p; simpl; auto. f_equal. auto. Qed.

Lemma clean_unfenced object :
  fenceAtBoundary true object = false ->
  Cleaning.replaceAll Cleaning.lineEndFence
    (Cleaning.replaceAll (Cleaning.lineStartMarker (Cleaning.u "```"))
       (Cleaning.replaceAll (Cleaning.lineStartMarker (Cleaning.u "```json")) object))
  = object.
Proof.
  intros H. unfold Cleaning.replaceAll.
  change (Cleaning.u "```json") with (Cleaning.u "```" ++ Cleaning.u "json").
  rewrite (removeMatches_noMatch _ object true (noMatch_lineStartMarker _ object true H)).
  change (Cleaning.u "```") with (Cleaning.u "```" ++ []) at 1.
  rewrite (removeMatches_noMatch _ object true (noMatch_lineStartMarker [] object true H)).
  apply removeMatches_noMatch. apply noMatch_lineEndFence. exact H.
Qed.

(** C5 (as amended): cleaning the response made of the json fence, a line
    feed, [{"a":1}], a line feed and the closing fence yields exactly
    [{"a":1}].  More generally, for a response that wraps an object text
    (anything from an opening to a closing brace) between a json fence and
    a closing fence, with any white space in between, cleaning returns
    exactly the object text, provided no run of three backticks starts or
    ends a line of the object text; in particular when the object text
    contains no three backticks in a row. *)
Theorem fenced_object_is_recovered :
  Cleaning.clean (fenced [10%N] objectA1 [10%N]) = objectA1
  /\ (forall before after body,
        Forall (fun c => Cleaning.isWhiteSpace c = true) before ->
        Forall (fun c => Cleaning.isWhiteSpace c = true) after ->
        let object := Cleaning.LBRACE :: body ++ [Cleaning.RBRACE] in
        fenceAtBoundary true object = false ->
        Cleaning.clean (fenced before object after) = object)
  /\ (forall before after body,
        Forall (fun c => Cleaning.isWhiteSpace c = true) before ->
        Forall (fun c => Cleaning.isWhiteSpace c = true) after ->
        let object := Cleaning.LBRACE :: body ++ [Cleaning.RBRACE] in
        (forall k, Cleaning.startsWith (Cleaning.u "```") (skipn k object) = false) ->
        Cleaning.clean (fenced before object after) = object).
Proof.
  split; [reflexivity|].
  assert (Hgeneral : forall before after body,
            Forall (fun c => Cleaning.isWhiteSpace c = true) before ->
            Forall (fun c => Cleaning.isWhiteSpace c = true) after ->
            let object := Cleaning.LBRACE :: body ++ [Cleaning.RBRACE] in
            fenceAtBoundary true object = false ->
            Cleaning.clean (fenced before object after) = object);
    [|split; [exact Hgeneral|];
      intros before after body Hbefore Hafter object Habsent;
      apply Hgeneral; auto; apply fenceAtBoundary_absent; exact Habsent].
  intros before after body Hbefore Hafter object Hfence.
  unfold Cleaning.clean, fenced.
  (* trim *)
  assert (Htrim : Cleaning.trim
            (Cleaning.u "```json" ++ before ++ object ++ after ++ Cleaning.u "```")
            = (Cleaning.u "```json" ++ before)
              ++ Cleaning.LBRACE :: (body ++ Cleaning.RBRACE :: after ++ Cleaning.u "```")).
  { change (Cleaning.u "```json") with (96%N :: [96; 96; 106; 115; 111; 110]%N).
    change (Cleaning.u "```") with ([96; 96]%N ++ [96%N]).
    replace ((96%N :: [96; 96; 106; 115; 111; 110]%N) ++ before ++ object
             ++ after ++ [96; 96]%N ++ [96%N])
      with (96%N :: ([96; 96; 106; 115; 111; 110]%N ++ before ++ object
                     ++ after ++ [96; 96]%N) ++ [96%N]).
    2:{ list_normal. reflexivity. }
    rewrite trim_id by reflexivity.
    unfold object. list_normal. reflexivity. }
  rewrite Htrim. clear Htrim.
  (* the first brace *)
  rewrite indexOf_first.
  2:{ apply Forall_app. split.
      - repeat constructor.
      - eapply Forall_impl; [|exact Hbefore]. intros c Hc.
        apply (whitespace_not_brace c Hc). }
  destruct (List.length (Cleaning.u "```json" ++ before)) as [|n] eqn:Elen;
    [rewrite length_app in Elen; discriminate|].
  rewrite <- Elen, skipn_length_app. clear Elen n.
  (* the last brace *)
  change (Cleaning.LBRACE :: body ++ Cleaning.RBRACE :: after ++ Cleaning.u "```")
    with ((Cleaning.LBRACE :: body) ++ Cleaning.RBRACE :: (after ++ Cleaning.u "```")).
  rewrite lastIndexOf_last.
  2:{ apply Forall_app. split.
      - eapply Forall_impl; [|exact Hafter]. intros c Hc.
        apply (whitespace_not_brace c Hc).
      - repeat constructor. }
  rewrite firstn_app_succ.
  (* the fences *)
  apply clean_unfenced. exact Hfence.
Qed.

(** Witness for C5: the spec's example, as an instance of the general
    statement. *)
Lemma fenced_object_is_recovered_witness :
  Cleaning.clean (fenced [10%N] objectA1 [10%N]) = objectA1.
Proof.
  apply (proj1 (proj2 fenced_object_is_recovered) [10%N] [10%N] [34; 97; 34; 58; 49]%N).
  - repeat constructor.
  - repeat constructor.
  - reflexivity.
Defined.

(** Counterexample to C5 as stated: a JSON object whose string value is
    three backticks followed by U+2028.  Under the [m] flag [$] also matches
    before U+2028, so the third pattern removes the backticks from inside
    the string and the cleaned text is not the embedded object. *)
Lemma fenced_object_counterexample :
  forallb jsonStringChar [96; 96; 96; 8232]%N = true
  /\ Cleaning.clean (fenced [10%N] objectWithLineSeparator [10%N])
     = [123; 34; 97; 34; 58; 34; 8232; 34; 125]%N
  /\ Cleaning.clean (fenced [10%N] objectWithLineSeparator [10%N])
     <> objectWithLineSeparator.
Proof.
  split; [reflexivity|]. split; [reflexivity|].
  vm_compute. discriminate.
Qed.

(* ================================================================= *)
(** ** Rounding to the nearest double is monotone *)

Section Binary64Facts.
Import Binary64.
Local Open Scope Q_scope.



(** Rounding to an integer moves to the floor or to the next integer. *)
Lemma roundHalfEven_floor (q : Q) :
  (Qfloor q <= roundHalfEven q <= Qfloor q + 1)%Z.
Proof.
  unfold roundHalfEven.
  destruct (Qcompare (q - inject_Z (Qfloor q)) (1 # 2)); [destruct (Z.even (Qfloor q))| |]; lia.
Qed.

Lemma roundHalfEven_lower (z : Z) (q : Q) : inject_Z z <= q -> (z <= roundHalfEven q)%Z.
Proof.
  intros H. apply Qfloor_resp_le in H. rewrite Qfloor_Z in H.
  pose proof (roundHalfEven_floor q). lia.
Qed.

Lemma roundHalfEven_upper (z : Z) (q : Q) : q <= inject_Z z -> (roundHalfEven q <= z)%Z.
Proof.
  intros H. pose proof (Qfloor_resp_le _ _ H) as Hf. rewrite Qfloor_Z in Hf.
  pose proof (roundHalfEven_floor q) as Hb.
  destruct (Z.eq_dec (Qfloor q) z) as [Heq | Hne]; [|lia].
  unfold roundHalfEven.
  destruct (Qcompare_spec (q - inject_Z (Qfloor q)) (1 # 2)) as [Hc | Hc | Hc];
    rewrite Heq in *; try lia; exfalso; lra.
Qed.

Lemma roundHalfEven_monotone (x y : Q) : x <= y -> (roundHalfEven x <= roundHalfEven y)%Z.
Proof.
  intros H. pose proof (Qfloor_resp_le _ _ H) as Hf.
  pose proof (roundHalfEven_floor x) as Hx. pose proof (roundHalfEven_floor y) as Hy.
  destruct (Z.eq_dec (Qfloor x) (Qfloor y)) as [Heq | Hne]; [|lia].
  unfold roundHalfEven. rewrite Heq.
  destruct (Qcompare_spec (x - inject_Z (Qfloor y)) (1 # 2)) as [Hc | Hc | Hc];
    destruct (Qcompare_spec (y - inject_Z (Qfloor y)) (1 # 2)) as [Hd | Hd | Hd];
    try (destruct (Z.even (Qfloor y))); try lia; exfalso; lra.
Qed.

Lemma pow2_positive (e : Z) : 0 < 2 ^ e.
Proof. apply Qpower_0_lt. reflexivity. Qed.

Lemma pow2_plus (a b : Z) : 2 ^ (a + b) == 2 ^ a * 2 ^ b.
Proof. apply Qpower_plus. discriminate. Qed.

Lemma pow2_le (a b : Z) : (a <= b)%Z -> 2 ^ a <= 2 ^ b.
Proof. intros H. apply Qpower_le_compat_l; [exact H | discriminate]. Qed.

Lemma pow2_Z (n : Z) : (0 <= n)%Z -> 2 ^ n == inject_Z (2 ^ n).
Proof. intros H. rewrite Zpower_Qpower by exact H. reflexivity. Qed.

(** [exponent] is the floor of the binary logarithm. *)
Lemma exponent_spec (q : Q) : 0 < q -> 2 ^ exponent q <= q /\ q < 2 ^ (exponent q + 1).
Proof.
  intros Hq. unfold exponent.
  destruct q as [a b]. cbn [Qnum Qden].
  assert (Ha : (0 < a)%Z) by (unfold Qlt in Hq; cbn in Hq; lia).
  pose proof (Z.log2_spec a Ha) as [Hal Hau].
  pose proof (Z.log2_spec (Z.pos b) (Pos2Z.is_pos b)) as [Hbl Hbu].
  pose proof (Z.log2_nonneg a) as Hna. pose proof (Z.log2_nonneg (Z.pos b)) as Hnb.
  set (la := Z.log2 a) in *. set (lb := Z.log2 (Z.pos b)) in *.
  rewrite Z.pow_succ_r in Hau, Hbu by lia.
  assert (Hpa : (0 < 2 ^ la)%Z) by (apply Z.pow_pos_nonneg; lia).
  assert (Hpb : (0 < 2 ^ lb)%Z) by (apply Z.pow_pos_nonneg; lia).
  assert (Hlow : 2 ^ (la - lb - 1) <= a # b).
  { replace (la - lb - 1)%Z with (la + - (lb + 1))%Z by lia.
    rewrite pow2_plus, Qpower_opp, !pow2_Z by lia.
    apply Qle_shift_div_r.
    - change 0 with (inject_Z 0). rewrite <- Zlt_Qlt. apply Z.pow_pos_nonneg; lia.
    - unfold Qle, Qmult, inject_Z. cbn [Qnum Qden].
      replace (lb + 1)%Z with (Z.succ lb) by lia. rewrite Z.pow_succ_r by lia. nia. }
  assert (Hhigh : a # b < 2 ^ (la - lb + 1)).
  { replace (la - lb + 1)%Z with ((la + 1) + - lb)%Z by lia.
    rewrite pow2_plus, Qpower_opp, !pow2_Z by lia.
    apply Qlt_shift_div_l.
    - change 0 with (inject_Z 0). rewrite <- Zlt_Qlt. apply Z.pow_pos_nonneg; lia.
    - unfold Qlt, Qmult, inject_Z. cbn [Qnum Qden].
      replace (la + 1)%Z with (Z.succ la) by lia. rewrite Z.pow_succ_r by lia. nia. }
  destruct (Qlt_le_dec (a # b) (2 ^ (la - lb))) as [Hlt | Hle].
  - split; [exact Hlow|]. replace (la - lb - 1 + 1)%Z with (la - lb)%Z by lia. exact Hlt.
  - split; [exact Hle | exact Hhigh].
Qed.

(** In units of the last place the number has at most 53 bits, and exactly
    53 outside the subnormal range. *)
Lemma scaled_below (q : Q) : 0 < q -> q / 2 ^ quantum q < 2 ^ 53.
Proof.
  intros Hq. destruct (exponent_spec q Hq) as [_ Hu].
  apply Qlt_shift_div_r; [apply pow2_positive|].
  rewrite <- pow2_plus. eapply Qlt_le_trans; [exact Hu|].
  apply pow2_le. unfold quantum. lia.
Qed.

Lemma scaled_above (q : Q) :
  0 < q -> quantum q = (exponent q - 52)%Z -> 2 ^ 52 <= q / 2 ^ quantum q.
Proof.
  intros Hq He. destruct (exponent_spec q Hq) as [Hl _].
  apply Qle_shift_div_l; [apply pow2_positive|].
  rewrite <- pow2_plus. eapply Qle_trans; [|exact Hl].
  apply pow2_le. lia.
Qed.

Lemma exponent_monotone (x y : Q) : 0 < x -> x <= y -> (exponent x <= exponent y)%Z.
Proof.
  intros Hx Hxy.
  assert (Hy : 0 < y) by (eapply Qlt_le_trans; eassumption).
  destruct (exponent_spec x Hx) as [Hxl _]. destruct (exponent_spec y Hy) as [_ Hyu].
  assert (H : 2 ^ exponent x < 2 ^ (exponent y + 1)) by lra.
  apply Qpower_lt_compat_l_inv in H; [lia | reflexivity].
Qed.

Lemma roundPositive_nonneg (q : Q) : 0 < q -> 0 <= roundPositive q.
Proof.
  intros Hq. unfold roundPositive. apply Qmult_le_0_compat.
  - change 0 with (inject_Z 0). rewrite <- Zle_Qle. apply roundHalfEven_lower.
    apply Qle_shift_div_l; [apply pow2_positive|].
    change (inject_Z 0) with 0. rewrite Qmult_0_l. apply Qlt_le_weak, Hq.
  - apply Qlt_le_weak, pow2_positive.
Qed.

(** Within one binade rounding to an integer is monotone; across binades
    the power of two between them separates the results. *)
Lemma roundPositive_monotone (x y : Q) :
  0 < x -> x <= y -> roundPositive x <= roundPositive y.
Proof.
  intros Hx Hxy.
  assert (Hy : 0 < y) by (eapply Qlt_le_trans; eassumption).
  pose proof (exponent_monotone x y Hx Hxy) as He.
  unfold roundPositive.
  destruct (Z.eq_dec (quantum x) (quantum y)) as [Heq | Hne].
  - rewrite Heq. apply Qmult_le_compat_r; [|apply Qlt_le_weak, pow2_positive].
    rewrite <- Zle_Qle. apply roundHalfEven_monotone.
    apply Qmult_le_compat_r; [exact Hxy|]. apply Qlt_le_weak, Qinv_lt_0_compat, pow2_positive.
  - assert (Hq : (quantum x < quantum y)%Z /\ quantum y = (exponent y - 52)%Z)
      by (unfold quantum in *; lia).
    destruct Hq as [Hlt Hyq].
    apply Qle_trans with (2 ^ 53 * 2 ^ quantum x).
    + apply Qmult_le_compat_r; [|apply Qlt_le_weak, pow2_positive].
      rewrite (pow2_Z 53) by lia. rewrite <- Zle_Qle. apply roundHalfEven_upper.
      rewrite <- (pow2_Z 53) by lia. apply Qlt_le_weak, scaled_below, Hx.
    + apply Qle_trans with (2 ^ 52 * 2 ^ quantum y).
      * rewrite <- !pow2_plus. apply pow2_le. lia.
      * apply Qmult_le_compat_r; [|apply Qlt_le_weak, pow2_positive].
        rewrite (pow2_Z 52) by lia. rewrite <- Zle_Qle. apply roundHalfEven_lower.
        rewrite <- (pow2_Z 52) by lia. apply scaled_above; assumption.
Qed.

Lemma round_monotone (x y : Q) : x <= y -> round x <= round y.
Proof.
  intros Hxy. unfold round.
  destruct (Qcompare_spec x 0) as [Hx | Hx | Hx];
    destruct (Qcompare_spec y 0) as [Hy | Hy | Hy]; try (exfalso; lra).
  - lra.
  - apply roundPositive_nonneg, Hy.
  - assert (H : 0 <= roundPositive (- x)) by (apply roundPositive_nonneg; lra). lra.
  - assert (H : roundPositive (- y) <= roundPositive (- x))
      by (apply roundPositive_monotone; lra). lra.
  - assert (H : 0 <= roundPositive (- x)) by (apply roundPositive_nonneg; lra).
    assert (H' : 0 <= roundPositive y) by (apply roundPositive_nonneg; lra). lra.
  - apply roundPositive_monotone; assumption.
Qed.

(** Equal rationals round to the same double. *)
Lemma round_comp (x y : Q) : x == y -> round x == round y.
Proof.
  intros H. apply Qle_antisym; apply round_monotone; lra.
Qed.


End Binary64Facts.

(* ================================================================= *)
(** ** The structured-output loops *)

Section MediatorFacts.
Import Mediator.

Variables T J : Type.
Variable JSON_parse : Cleaning.ustring -> Error + J.
Variable schema_parse : J -> Error + T.
Variable generate : nat -> Error + Cleaning.ustring.
Variable random : nat -> Q.

Lemma afterRetries_calls k :
  forall rc w, calls (afterRetries random k rc w) = (calls w + k)%nat.
Proof.
  induction k as [|k IH]; intros rc w; simpl; [lia|]. rewrite IH. simpl. lia.
Qed.

Lemma afterRetries_draws k :
  forall rc w, draws (afterRetries random k rc w) = (draws w + k)%nat.
Proof.
  induction k as [|k IH]; intros rc w; simpl; [lia|]. rewrite IH. simpl. lia.
Qed.

Lemma afterRetries_sleeps k :
  forall rc w,
    sleeps (afterRetries random k rc w)
    = sleeps w ++ map (fun j => expBackoff (rc + 1 + j) (random (draws w + j))) (seq 0 k).
Proof.
  induction k as [|k IH]; intros rc w; simpl.
  - rewrite app_nil_r. reflexivity.
  - rewrite IH. simpl. rewrite <- app_assoc. simpl.
    rewrite !Nat.add_0_r, Nat.add_1_r. do 2 f_equal.
    rewrite <- seq_shift, map_map. apply map_ext. intros j.
    f_equal; [lia|f_equal; lia].
Qed.

(** One iteration that ends in a rate-limit failure. *)
Lemma gemini_loop_rate_limited fuel rc lastError w e :
  (rc < maxRetries)%nat ->
  generate (calls w) = inl e -> isRateLimit e = true ->
  gemini_loop T J JSON_parse schema_parse generate random (S fuel) rc lastError w
  = gemini_loop T J JSON_parse schema_parse generate random fuel (S rc) (Some e)
      (sleep (expBackoff (S rc) (random (draws w))) (drawn (called w))).
Proof.
  intros Hrc He Hrl. cbn [gemini_loop].
  assert (Hlt : (rc <? maxRetries)%nat = true) by (apply Nat.ltb_lt; lia).
  rewrite Hlt. unfold gemini_attempt, callBackend, Math_random.
  rewrite He, Hrl. reflexivity.
Qed.

(** [k] rate-limit failures in a row take the loop [k] iterations further. *)
Lemma gemini_loop_retries k :
  forall fuel rc lastError w,
    (rc + k <= maxRetries)%nat ->
    (forall j, (j < k)%nat ->
       exists e, generate (calls w + j) = inl e /\ isRateLimit e = true) ->
    exists lastError',
      gemini_loop T J JSON_parse schema_parse generate random (k + fuel) rc lastError w
      = gemini_loop T J JSON_parse schema_parse generate random fuel (rc + k) lastError'
          (afterRetries random k rc w)
      /\ match k with
         | O => lastError' = lastError
         | S k' => exists e, generate (calls w + k') = inl e /\ lastError' = Some e
         end.
Proof.
  induction k as [|k IH]; intros fuel rc lastError w Hrc Hfail.
  - exists lastError. rewrite Nat.add_0_r. split; reflexivity.
  - destruct (Hfail 0%nat) as [e0 [He0 Hrl0]]; [lia|]. rewrite Nat.add_0_r in He0.
    destruct (IH fuel (S rc) (Some e0)
                (sleep (expBackoff (S rc) (random (draws w))) (drawn (called w))))
      as [lastError' [Hloop Hlast]].
    + lia.
    + intros j Hj. destruct (Hfail (S j)) as [e [He Hrl]]; [lia|].
      exists e. split; auto. simpl. rewrite <- He. f_equal. lia.
    + exists lastError'. split.
      * cbn [Nat.add]. rewrite (gemini_loop_rate_limited _ _ _ _ e0); auto; [|lia].
        rewrite Hloop. cbn [afterRetries].
        replace (rc + S k)%nat with (S rc + k)%nat by lia. reflexivity.
      * destruct k as [|k].
        -- exists e0. rewrite Nat.add_0_r. split; auto.
        -- destruct Hlast as [e [He ->]]. exists e. split; auto.
           simpl in He. rewrite <- He. f_equal. lia.
Qed.

Lemma gemini_loop_returns fuel rc lastError w text v :
  (rc < maxRetries)%nat ->
  generate (calls w) = inr text ->
  parseAndValidate T J JSON_parse schema_parse text = inr v ->
  gemini_loop T J JSON_parse schema_parse generate random (S fuel) rc lastError w
  = Some (Returned v, called w).
Proof.
  intros Hrc Hgen Hparse. cbn [gemini_loop].
  assert (Hlt : (rc <? maxRetries)%nat = true) by (apply Nat.ltb_lt; lia).
  rewrite Hlt. unfold gemini_attempt, callBackend. rewrite Hgen, Hparse. reflexivity.
Qed.

(** Any error of the inner [try] leaves the loop as a fresh [Error]. *)
Lemma gemini_loop_parse_failure fuel rc lastError w text e :
  (rc < maxRetries)%nat ->
  generate (calls w) = inr text ->
  parseAndValidate T J JSON_parse schema_parse text = inl e ->
  gemini_loop T J JSON_parse schema_parse generate random (S fuel) rc lastError w
  = Some (Thrown (newError "Failed to parse structured output from AI"), called w).
Proof.
  intros Hrc Hgen Hparse. cbn [gemini_loop].
  assert (Hlt : (rc <? maxRetries)%nat = true) by (apply Nat.ltb_lt; lia).
  rewrite Hlt. unfold gemini_attempt, callBackend. rewrite Hgen, Hparse. reflexivity.
Qed.

Lemma gemini_loop_propagates fuel rc lastError w e :
  (rc < maxRetries)%nat ->
  generate (calls w) = inl e -> isRateLimit e = false ->
  gemini_loop T J JSON_parse schema_parse generate random (S fuel) rc lastError w
  = Some (Thrown e, called w).
Proof.
  intros Hrc Hgen Hrl. cbn [gemini_loop].
  assert (Hlt : (rc <? maxRetries)%nat = true) by (apply Nat.ltb_lt; lia).
  rewrite Hlt. unfold gemini_attempt, callBackend. rewrite Hgen, Hrl. reflexivity.
Qed.

Lemma gemini_loop_exhausted fuel lastError w e :
  lastError = Some e ->
  gemini_loop T J JSON_parse schema_parse generate random fuel maxRetries lastError w
  = Some (Thrown e, w).
Proof. intros ->. destruct fuel; reflexivity. Qed.

(** With fuel for the retries that are left the loop ends, and it spends at
    most one call and one delay per retry that is left. *)
Lemma gemini_loop_bounded fuel :
  forall rc lastError w,
    (maxRetries - rc <= fuel)%nat ->
    exists r w',
      gemini_loop T J JSON_parse schema_parse generate random fuel rc lastError w
      = Some (r, w')
      /\ (calls w' <= calls w + (maxRetries - rc))%nat
      /\ (List.length (sleeps w') <= List.length (sleeps w) + (maxRetries - rc))%nat.
Proof.
  induction fuel as [|fuel IH]; intros rc lastError w Hfuel.
  - cbn [gemini_loop]. assert (Hge : (rc <? maxRetries)%nat = false)
      by (apply Nat.ltb_ge; lia).
    rewrite Hge. eexists _, w. split; [reflexivity|]. lia.
  - cbn [gemini_loop]. destruct (rc <? maxRetries)%nat eqn:Hlt.
    + apply Nat.ltb_lt in Hlt.
      unfold gemini_attempt, callBackend, Math_random.
      destruct (generate (calls w)) as [e|text].
      * destruct (isRateLimit e).
        -- destruct (IH (S rc) (Some e)
                       (sleep (expBackoff (S rc) (random (draws w))) (drawn (called w))))
             as [r [w' [Hrun [Hcalls Hsleeps]]]]; [lia|].
           exists r, w'. split; [exact Hrun|].
           cbn [calls sleeps sleep drawn called] in Hcalls, Hsleeps.
           rewrite length_app in Hsleeps. cbn [List.length] in Hsleeps.
           lia.
        -- eexists _, (called w). split; [reflexivity|].
           cbn [calls sleeps called]. lia.
      * destruct (parseAndValidate T J JSON_parse schema_parse text);
          eexists _, (called w); (split; [reflexivity|]);
          cbn [calls sleeps called]; lia.
    + eexists _, w. split; [reflexivity|]. lia.
Qed.

(** One failed attempt of the ollama loop: whatever the [try] block threw
    is kept as [lastError], and unless it was the last attempt the loop
    sleeps one second and goes on. *)
Lemma ollama_loop_failure attempt rest lastError w e :
  fst (ollama_attempt T J JSON_parse schema_parse generate w) = inl e ->
  ollama_loop T J JSON_parse schema_parse generate (attempt :: rest) lastError w
  = ollama_loop T J JSON_parse schema_parse generate rest (Some e)
      (if (attempt <? ollama_maxAttempts)%nat then sleep 1000%Q (called w) else called w).
Proof.
  unfold ollama_attempt, callBackend. cbn [ollama_loop].
  unfold ollama_attempt, callBackend. cbn [fst].
  intros ->. reflexivity.
Qed.

(** The jitter factor grows with the random number. *)
Lemma jitter_monotone r r' : (0 <= r)%Q -> (r <= r')%Q -> (jitter r <= jitter r')%Q.
Proof.
  intros H0 Hle. unfold jitter, Binary64.add, Binary64.mul.
  apply round_monotone. apply Qplus_le_r. apply round_monotone.
  apply Qmult_le_compat_r; [exact Hle|]. vm_compute. discriminate.
Qed.

(** For a double in [0, 1) it lies between the doubles nearest to 0.8 and
    to 1.2. *)
Lemma jitter_bounds r :
  (0 <= r)%Q -> (r <= belowOne)%Q -> (jitter 0 <= jitter r)%Q /\ (jitter r <= jitter belowOne)%Q.
Proof.
  intros H0 H1. split; apply jitter_monotone; try assumption. apply Qle_refl.
Qed.

Lemma nominalDelay_positive n : (0 < nominalDelay n)%Q.
Proof.
  unfold nominalDelay, baseDelay.
  assert (H : (0 < 2 ^ Z.of_nat n)%Q) by (apply Qpower_0_lt; reflexivity).
  nra.
Qed.

Lemma nominalDelay_doubles n : (nominalDelay (S n) == 2 * nominalDelay n)%Q.
Proof.
  unfold nominalDelay. rewrite Nat2Z.inj_succ, <- Z.add_1_r.
  rewrite Qpower_plus by discriminate. change (2 ^ 1)%Q with 2%Q. ring.
Qed.

(** The product of a delay before jitter and a jitter factor, between the
    products at the two ends of the jitter range. *)
Lemma scaled_jitter_bounds c r :
  (0 <= c)%Q -> (0 <= r)%Q -> (r <= belowOne)%Q ->
  (Binary64.mul c (jitter 0) <= Binary64.mul c (jitter r))%Q
  /\ (Binary64.mul c (jitter r) <= Binary64.mul c (jitter belowOne))%Q.
Proof.
  intros Hc H0 H1. destruct (jitter_bounds r H0 H1) as [Hlo Hhi].
  unfold Binary64.mul. split; apply round_monotone.
  - rewrite !(Qmult_comm c). apply Qmult_le_compat_r; assumption.
  - rewrite !(Qmult_comm c). apply Qmult_le_compat_r; assumption.
Qed.

(** The delays of the retries the loop reaches: the cap does not apply,
    and the delay lies within 20% of the base times the power of two. *)
Lemma expBackoff_bounds n r :
  (1 <= n <= 5)%nat -> (0 <= r)%Q -> (r <= belowOne)%Q ->
  (expBackoff n r == Binary64.mul (nominalDelay n) (jitter r))%Q
  /\ ((8 # 10) * nominalDelay n <= expBackoff n r)%Q
  /\ (expBackoff n r <= (12 # 10) * nominalDelay n)%Q
  /\ (expBackoff n r <= 38400)%Q.
Proof.
  intros Hn H0 H1.
  set (c := Binary64.mul baseDelay (2 ^ Z.of_nat n)).
  assert (Hc : (c == nominalDelay n)%Q
               /\ ((8 # 10) * nominalDelay n <= Binary64.mul c (jitter 0))%Q
               /\ (Binary64.mul c (jitter belowOne) <= (12 # 10) * nominalDelay n)%Q
               /\ ((12 # 10) * nominalDelay n <= 38400)%Q).
  { assert (H : n = 1%nat \/ n = 2%nat \/ n = 3%nat \/ n = 4%nat \/ n = 5%nat) by lia.
    unfold c.
    destruct H as [->|[->|[->|[->| ->]]]];
      (split; [vm_compute; reflexivity|]); (split; [vm_compute; discriminate|]);
      split; vm_compute; discriminate. }
  destruct Hc as [Hnominal [Hlow [Hhigh Hcap]]].
  assert (Hpos : (0 <= c)%Q).
  { rewrite Hnominal. apply Qlt_le_weak, nominalDelay_positive. }
  destruct (scaled_jitter_bounds c r Hpos H0 H1) as [Hlo Hhi].
  assert (Hmin : (expBackoff n r == Binary64.mul c (jitter r))%Q).
  { unfold expBackoff. fold c. fold (jitter r). apply Q.min_r.
    unfold maxDelay. lra. }
  split.
  { rewrite Hmin. unfold Binary64.mul. apply round_comp. rewrite Hnominal. reflexivity. }
  rewrite Hmin. split; [lra|]. split; lra.
Qed.

(** Every attempt of the ollama loop calls the backend, and delays are only
    ever added. *)
Lemma ollama_loop_grows attempts :
  forall lastError w,
    (calls w + Nat.min 1 (List.length attempts)
     <= calls (snd (ollama_loop T J JSON_parse schema_parse generate attempts lastError w)))%nat
    /\ exists more,
         sleeps (snd (ollama_loop T J JSON_parse schema_parse generate attempts lastError w))
         = sleeps w ++ more.
Proof.
  induction attempts as [|attempt rest IH]; intros lastError w.
  - simpl. split; [lia|]. exists []. rewrite app_nil_r. reflexivity.
  - cbn [ollama_loop]. unfold ollama_attempt, callBackend.
    set (r := match generate (calls w) with
              | inl e => inl e
              | inr text => parseAndValidate T J JSON_parse schema_parse (Cleaning.clean text)
              end).
    destruct r as [e|v].
    + set (w2 := if (attempt <? ollama_maxAttempts)%nat
                 then sleep 1000%Q (called w) else called w).
      destruct (IH (Some e) w2) as [Hcalls [more Hmore]].
      assert (Hw2 : calls w2 = S (calls w)
                    /\ exists m, sleeps w2 = sleeps w ++ m).
      { unfold w2. destruct (attempt <? ollama_maxAttempts)%nat; simpl; split; auto.
        - eexists; reflexivity.
        - exists []. rewrite app_nil_r. reflexivity. }
      destruct Hw2 as [Hc [m Hm]]. split.
      * cbn [List.length]. lia.
      * exists (m ++ more). rewrite Hmore, Hm, app_assoc. reflexivity.
    + simpl. split; [lia|]. exists []. rewrite app_nil_r. reflexivity.
Qed.

(** C6 (as amended): the ollama path parses the cleaned response, the
    gemini path and the openai path the response as received.  When the
    cleaned text of each of the first three responses is malformed JSON,
    the ollama path makes exactly 3 attempts, one second apart, and then
    throws the parse error of the third attempt; when the cleaned text of
    the first response parses and validates, it returns that value after
    the one call, also when the response as received is malformed.  When
    the first response as received is malformed JSON, the gemini path and
    the openai path make exactly 1 attempt: gemini throws a fresh Error
    "Failed to parse structured output from AI", openai the parse error
    itself. *)
Theorem malformed_json_attempts_by_provider :
  ((forall n, (n < 3)%nat ->
      exists text e, generate n = inr text /\ JSON_parse (Cleaning.clean text) = inl e) ->
   exists text e,
     generate 2 = inr text /\ JSON_parse (Cleaning.clean text) = inl e
     /\ generateStructuredOutput T J JSON_parse schema_parse generate random ollama start
        = Some (Thrown e, {| calls := 3; draws := 0; sleeps := [1000%Q; 1000%Q] |}))
  /\ (forall text v,
        generate 0 = inr text ->
        parseAndValidate T J JSON_parse schema_parse (Cleaning.clean text) = inr v ->
        generateStructuredOutput T J JSON_parse schema_parse generate random ollama start
        = Some (Returned v, {| calls := 1; draws := 0; sleeps := [] |}))
  /\ (forall text e,
        generate 0 = inr text -> JSON_parse text = inl e ->
        generateStructuredOutput T J JSON_parse schema_parse generate random gemini start
        = Some (Thrown (newError "Failed to parse structured output from AI"),
                {| calls := 1; draws := 0; sleeps := [] |})
        /\ generateStructuredOutput T J JSON_parse schema_parse generate random openai start
           = Some (Thrown e, {| calls := 1; draws := 0; sleeps := [] |})).
Proof.
  split; [|split].
  - intros Hbad.
    destruct (Hbad 0%nat) as [t0 [c0 [H0 Hclean0]]]; [lia|].
    destruct (Hbad 1%nat) as [t1 [c1 [H1 Hclean1]]]; [lia|].
    destruct (Hbad 2%nat) as [t2 [c2 [H2 Hclean2]]]; [lia|].
    exists t2, c2. split; [exact H2|]. split; [exact Hclean2|].
    unfold generateStructuredOutput, ollama_generateStructuredOutput.
    cbn [seq ollama_maxAttempts].
    rewrite (ollama_loop_failure _ _ _ _ c0).
    2:{ unfold ollama_attempt, callBackend, parseAndValidate. cbn [calls start fst].
        rewrite H0, Hclean0. reflexivity. }
    rewrite (ollama_loop_failure _ _ _ _ c1).
    2:{ unfold ollama_attempt, callBackend, parseAndValidate. cbn. rewrite H1, Hclean1.
        reflexivity. }
    rewrite (ollama_loop_failure _ _ _ _ c2).
    2:{ unfold ollama_attempt, callBackend, parseAndValidate. cbn. rewrite H2, Hclean2.
        reflexivity. }
    reflexivity.
  - intros text v Hgen Hparse.
    unfold generateStructuredOutput, ollama_generateStructuredOutput.
    cbn [seq ollama_maxAttempts ollama_loop].
    unfold ollama_attempt, callBackend. cbn [calls start].
    rewrite Hgen, Hparse. reflexivity.
  - intros text e Hgen Hraw. split.
    + unfold generateStructuredOutput, gemini_generateStructuredOutput.
      change maxRetries with (S 4).
      rewrite (gemini_loop_parse_failure _ _ _ start text e); auto.
      * unfold maxRetries. lia.
      * unfold parseAndValidate. rewrite Hraw. reflexivity.
    + unfold generateStructuredOutput, openai_generateStructuredOutput, callBackend,
        parseAndValidate.
      cbn [calls start]. rewrite Hgen, Hraw. reflexivity.
Qed.

(** C7 (as amended): a transport error that is no rate-limit signal leaves
    the gemini path and the openai path at once: it is thrown to the caller
    after that one call, with no further call and no delay, wherever the
    gemini loop stands.  The ollama path catches it like any failed attempt:
    it sleeps one second and calls the backend again (up to its three
    attempts). *)
Theorem transport_error_by_provider (e : Error) (w : World) :
  generate (calls w) = inl e -> isRateLimit e = false ->
  generateStructuredOutput T J JSON_parse schema_parse generate random gemini w
  = Some (Thrown e, called w)
  /\ (forall fuel retryCount lastError,
        (retryCount < maxRetries)%nat ->
        gemini_loop T J JSON_parse schema_parse generate random (S fuel) retryCount lastError w
        = Some (Thrown e, called w))
  /\ generateStructuredOutput T J JSON_parse schema_parse generate random openai w
     = Some (Thrown e, called w)
  /\ generateStructuredOutput T J JSON_parse schema_parse generate random ollama w
     = Some (ollama_loop T J JSON_parse schema_parse generate [2; 3]%nat (Some e)
               (sleep 1000%Q (called w)))
  /\ exists r w' more,
       generateStructuredOutput T J JSON_parse schema_parse generate random ollama w
       = Some (r, w')
       /\ (calls w + 2 <= calls w')%nat
       /\ sleeps w' = sleeps w ++ 1000%Q :: more.
Proof.
  intros Hgen Hrl.
  assert (Hollama :
    ollama_generateStructuredOutput T J JSON_parse schema_parse generate w
    = ollama_loop T J JSON_parse schema_parse generate [2; 3]%nat (Some e)
        (sleep 1000%Q (called w))).
  { unfold ollama_generateStructuredOutput. cbn [seq ollama_maxAttempts].
    rewrite (ollama_loop_failure _ _ _ _ e); [reflexivity|].
    unfold ollama_attempt, callBackend. cbn [fst]. rewrite Hgen. reflexivity. }
  split; [|split; [|split; [|split]]].
  - unfold generateStructuredOutput, gemini_generateStructuredOutput.
    change maxRetries with (S 4).
    apply gemini_loop_propagates; auto. unfold maxRetries. lia.
  - intros fuel rc lastError Hrc. apply gemini_loop_propagates; auto.
  - unfold generateStructuredOutput, openai_generateStructuredOutput, callBackend.
    rewrite Hgen. reflexivity.
  - unfold generateStructuredOutput. rewrite Hollama. reflexivity.
  - destruct (ollama_loop_grows [2; 3]%nat (Some e) (sleep 1000%Q (called w)))
      as [Hcalls [more Hmore]].
    destruct (ollama_loop T J JSON_parse schema_parse generate [2; 3]%nat (Some e)
                (sleep 1000%Q (called w))) as [r w'] eqn:E.
    exists r, w', more. split; [|split].
    + unfold generateStructuredOutput. rewrite Hollama. reflexivity.
    + cbn [snd calls sleep called List.length Nat.min] in Hcalls. lia.
    + cbn [snd sleeps sleep called] in Hmore. rewrite Hmore, <- app_assoc. reflexivity.
Qed.

(** C8 (as amended): rate limiting is recognised on the gemini path only,
    by an error whose message contains "429 Too Many Requests".  There,
    with random numbers that are doubles in [0, 1): the call always ends,
    after at most 5 backend calls (the first and up to 4 retries) and 5
    delays; when the first [k < 5] calls report rate limiting and the next
    one answers with a text that parses and validates, the validated value
    is returned after [k + 1] calls, the delay after the [j]-th failure
    being [min(60 s, 1 s * 2^j * jitter)] in double arithmetic; when the
    first 5 calls all report rate limiting, a fifth delay is slept and the
    error of the fifth call is thrown.  The delay after the [j]-th failure
    lies within 20% of [2^j] seconds, both ends included, so the first is
    about 2 s, none exceeds 38.4 s and the cap of 60 s never applies.  On
    the ollama path a rate-limit error is a failed attempt like any other:
    three calls one second apart, then the error of the third.  On the
    openai path the error of the one call is thrown. *)
Theorem rate_limit_retries_with_backoff :
  (forall n, (0 <= random n)%Q /\ (random n <= belowOne)%Q) ->
  let run := generateStructuredOutput T J JSON_parse schema_parse generate random in
  (exists r w, run gemini start = Some (r, w)
               /\ (calls w <= 5)%nat /\ (List.length (sleeps w) <= 5)%nat)
  /\ (forall k text v,
        (k < 5)%nat ->
        (forall j, (j < k)%nat -> exists e, generate j = inl e /\ isRateLimit e = true) ->
        generate k = inr text ->
        parseAndValidate T J JSON_parse schema_parse text = inr v ->
        exists w, run gemini start = Some (Returned v, w)
                  /\ calls w = (k + 1)%nat
                  /\ sleeps w = map (fun j => expBackoff (S j) (random j)) (seq 0 k))
  /\ ((forall j, (j < 5)%nat -> exists e, generate j = inl e /\ isRateLimit e = true) ->
      exists e w, generate 4 = inl e /\ run gemini start = Some (Thrown e, w)
                  /\ calls w = 5%nat
                  /\ sleeps w = map (fun j => expBackoff (S j) (random j)) (seq 0 5))
  /\ (forall j i,
        (1 <= j <= 5)%nat ->
        (expBackoff j (random i) == Binary64.mul (nominalDelay j) (jitter (random i)))%Q
        /\ ((8 # 10) * nominalDelay j <= expBackoff j (random i))%Q
        /\ (expBackoff j (random i) <= (12 # 10) * nominalDelay j)%Q
        /\ (expBackoff j (random i) <= 38400)%Q
        /\ (nominalDelay j == 1000 * 2 ^ Z.of_nat j)%Q)
  /\ ((forall j, (j < 3)%nat -> exists e, generate j = inl e /\ isRateLimit e = true) ->
      exists e, generate 2 = inl e
                /\ run ollama start
                   = Some (Thrown e, {| calls := 3; draws := 0; sleeps := [1000%Q; 1000%Q] |}))
  /\ (forall e, generate 0 = inl e -> isRateLimit e = true ->
      run openai start = Some (Thrown e, {| calls := 1; draws := 0; sleeps := [] |})).
Proof.
  intros Hrandom run. unfold run, generateStructuredOutput, gemini_generateStructuredOutput.
  split; [|split; [|split; [|split; [|split]]]].
  - destruct (gemini_loop_bounded maxRetries 0 None start) as [r [w [Hrun [Hc Hs]]]];
      [lia|].
    exists r, w. split; [exact Hrun|]. cbn in Hc, Hs. lia.
  - intros k text v Hk Hfail Hgen Hparse.
    destruct (gemini_loop_retries k (maxRetries - k) 0 None start) as [le [Hloop _]].
    + unfold maxRetries. lia.
    + intros j Hj. cbn [calls start Nat.add]. auto.
    + replace (k + (maxRetries - k))%nat with maxRetries in Hloop
        by (unfold maxRetries; lia).
      rewrite Hloop. cbn [Nat.add].
      destruct (maxRetries - k)%nat as [|fuel] eqn:Efuel; [unfold maxRetries in Efuel; lia|].
      rewrite (gemini_loop_returns _ _ _ _ text v).
      * eexists. split; [reflexivity|]. split.
        -- cbn [calls called]. rewrite afterRetries_calls. cbn [calls start]. lia.
        -- cbn [sleeps called]. rewrite afterRetries_sleeps. cbn [sleeps start app draws].
           apply map_ext. intros j. reflexivity.
      * unfold maxRetries. lia.
      * rewrite afterRetries_calls. exact Hgen.
      * exact Hparse.
  - intros Hfail.
    destruct (gemini_loop_retries 5 0 0 None start) as [le [Hloop [e [He Hle]]]].
    + unfold maxRetries. lia.
    + intros j Hj. cbn [calls start Nat.add]. auto.
    + cbn [calls start Nat.add] in He.
      exists e. eexists. split; [exact He|]. split; [|split].
      * change maxRetries with (5 + 0)%nat at 1. rewrite Hloop.
        change (0 + 5)%nat with maxRetries.
        apply gemini_loop_exhausted. exact Hle.
      * rewrite afterRetries_calls. reflexivity.
      * rewrite afterRetries_sleeps. reflexivity.
  - intros j i Hj. destruct (Hrandom i) as [H0 H1].
    destruct (expBackoff_bounds j (random i) Hj H0 H1) as [Heq [Hlo [Hhi Hcap]]].
    split; [exact Heq|]. split; [exact Hlo|]. split; [exact Hhi|].
    split; [exact Hcap|]. reflexivity.
  - intros Hfail.
    destruct (Hfail 0%nat) as [e0 [H0 _]]; [lia|].
    destruct (Hfail 1%nat) as [e1 [H1 _]]; [lia|].
    destruct (Hfail 2%nat) as [e2 [H2 _]]; [lia|].
    exists e2. split; [exact H2|].
    unfold ollama_generateStructuredOutput. cbn [seq ollama_maxAttempts].
    rewrite (ollama_loop_failure _ _ _ _ e0).
    2:{ unfold ollama_attempt, callBackend. cbn [calls start fst]. rewrite H0. reflexivity. }
    rewrite (ollama_loop_failure _ _ _ _ e1).
    2:{ unfold ollama_attempt, callBackend. cbn. rewrite H1. reflexivity. }
    rewrite (ollama_loop_failure _ _ _ _ e2).
    2:{ unfold ollama_attempt, callBackend. cbn. rewrite H2. reflexivity. }
    reflexivity.
  - intros e Hgen _.
    unfold openai_generateStructuredOutput, callBackend. cbn [calls start].
    rewrite Hgen. reflexivity.
Qed.

End MediatorFacts.

(** Witness for C6: the ollama path against a backend that always answers
    with prose, and every path against a backend that always answers with
    a fenced object. *)
Lemma malformed_json_attempts_by_provider_witness :
  (exists text e,
     proseBackend 2 = inr text /\ parseStub (Cleaning.clean text) = inl e
     /\ Mediator.generateStructuredOutput _ _ parseStub schemaStub proseBackend halfRandom
          Mediator.ollama Mediator.start
        = Some (Mediator.Thrown e,
                {| Mediator.calls := 3; Mediator.draws := 0;
                   Mediator.sleeps := [1000%Q; 1000%Q] |}))
  /\ Mediator.generateStructuredOutput _ _ parseStub schemaStub fencedBackend halfRandom
       Mediator.ollama Mediator.start
     = Some (Mediator.Returned objectA1,
             {| Mediator.calls := 1; Mediator.draws := 0; Mediator.sleeps := [] |})
  /\ Mediator.generateStructuredOutput _ _ parseStub schemaStub fencedBackend halfRandom
       Mediator.gemini Mediator.start
     = Some (Mediator.Thrown (Mediator.newError "Failed to parse structured output from AI"),
             {| Mediator.calls := 1; Mediator.draws := 0; Mediator.sleeps := [] |})
  /\ Mediator.generateStructuredOutput _ _ parseStub schemaStub fencedBackend halfRandom
       Mediator.openai Mediator.start
     = Some (Mediator.Thrown syntaxError,
             {| Mediator.calls := 1; Mediator.draws := 0; Mediator.sleeps := [] |}).
Proof.
  split; [|split].
  - apply (proj1 (malformed_json_attempts_by_provider _ _ parseStub schemaStub
                    proseBackend halfRandom)).
    intros n _. eexists. eexists. split; reflexivity.
  - apply (proj1 (proj2 (malformed_json_attempts_by_provider _ _ parseStub schemaStub
                           fencedBackend halfRandom))
             (fenced [10%N] objectA1 [10%N]) objectA1); reflexivity.
  - apply (proj2 (proj2 (malformed_json_attempts_by_provider _ _ parseStub schemaStub
                           fencedBackend halfRandom))
             (fenced [10%N] objectA1 [10%N]) syntaxError); reflexivity.
Defined.

(** Counterexample to C6 as stated: against the same backend the gemini
    path and the openai path stop after one attempt, and the error gemini
    throws is not the parse error. *)
Lemma malformed_json_single_attempt :
  (forall n, exists text,
      proseBackend n = inr text /\ parseStub text = inl syntaxError
      /\ parseStub (Cleaning.clean text) = inl syntaxError)
  /\ Mediator.generateStructuredOutput _ _ parseStub schemaStub proseBackend halfRandom
       Mediator.gemini Mediator.start
     = Some (Mediator.Thrown (Mediator.newError "Failed to parse structured output from AI"),
             {| Mediator.calls := 1; Mediator.draws := 0; Mediator.sleeps := [] |})
  /\ Mediator.generateStructuredOutput _ _ parseStub schemaStub proseBackend halfRandom
       Mediator.openai Mediator.start
     = Some (Mediator.Thrown syntaxError,
             {| Mediator.calls := 1; Mediator.draws := 0; Mediator.sleeps := [] |}).
Proof.
  split; [|split; reflexivity].
  intros n. eexists. repeat split; reflexivity.
Qed.

(** Witness for C7: a refused connection on the gemini path. *)
Lemma transport_error_by_provider_witness :
  Mediator.generateStructuredOutput _ _ parseStub schemaStub downBackend halfRandom
    Mediator.gemini Mediator.start
  = Some (Mediator.Thrown refused, Mediator.called Mediator.start).
Proof.
  exact (proj1 (transport_error_by_provider _ _ parseStub schemaStub downBackend halfRandom
                  refused Mediator.start eq_refl eq_refl)).
Defined.

(** Counterexample to C7 as stated: on the ollama path a refused connection
    is retried; the caller sees the error only after three calls and two
    delays of one second. *)
Lemma transport_error_retried_by_ollama :
  Mediator.isRateLimit refused = false
  /\ Mediator.generateStructuredOutput _ _ parseStub schemaStub downBackend halfRandom
       Mediator.ollama Mediator.start
     = Some (Mediator.Thrown refused,
             {| Mediator.calls := 3; Mediator.draws := 0;
                Mediator.sleeps := [1000%Q; 1000%Q] |}).
Proof. split; reflexivity. Qed.

(** Witness for C8: on the gemini path, two rate-limit failures, then
    [{"a":1}]; and a backend that never stops reporting rate limiting. *)
Lemma rate_limit_retries_with_backoff_witness :
  (exists w,
     Mediator.generateStructuredOutput _ _ parseStub schemaStub twiceLimitedBackend
       halfRandom Mediator.gemini Mediator.start
     = Some (Mediator.Returned objectA1, w)
     /\ Mediator.calls w = 3%nat
     /\ Mediator.sleeps w
        = [Mediator.expBackoff 1 (1 # 2); Mediator.expBackoff 2 (1 # 2)])
  /\ (exists e w,
        limitedBackend 4 = inl e
        /\ Mediator.generateStructuredOutput _ _ parseStub schemaStub limitedBackend
             halfRandom Mediator.gemini Mediator.start
           = Some (Mediator.Thrown e, w)
        /\ Mediator.calls w = 5%nat
        /\ Mediator.sleeps w
           = map (fun j => Mediator.expBackoff (S j) (halfRandom j)) (seq 0 5)).
Proof.
  split.
  - refine (proj1 (proj2 (rate_limit_retries_with_backoff _ _ parseStub schemaStub
                            twiceLimitedBackend halfRandom _))
              2%nat objectA1 objectA1 _ _ _ _).
    + intros n. unfold halfRandom. split; discriminate.
    + lia.
    + intros j Hj. exists rateLimited.
      destruct j as [|[|j]]; [| |lia]; split; reflexivity.
    + reflexivity.
    + reflexivity.
  - refine (proj1 (proj2 (proj2 (rate_limit_retries_with_backoff _ _ parseStub schemaStub
                                   limitedBackend halfRandom _))) _).
    + intros n. unfold halfRandom. split; discriminate.
    + intros j Hj. exists rateLimited. split; reflexivity.
Defined.

(** Counterexample to C8 as stated: outside the gemini path a rate-limit
    error is not retried with backoff.  Against the backend that reports
    rate limiting twice and then answers, the openai path throws the first
    error after its one call; against the backend that always reports rate
    limiting, the ollama path gives up after three calls, one second
    apart. *)
Lemma rate_limit_not_retried_with_backoff :
  Mediator.isRateLimit rateLimited = true
  /\ twiceLimitedBackend 2 = inr objectA1
  /\ Mediator.generateStructuredOutput _ _ parseStub schemaStub twiceLimitedBackend
       halfRandom Mediator.openai Mediator.start
     = Some (Mediator.Thrown rateLimited,
             {| Mediator.calls := 1; Mediator.draws := 0; Mediator.sleeps := [] |})
  /\ Mediator.generateStructuredOutput _ _ parseStub schemaStub limitedBackend
       halfRandom Mediator.ollama Mediator.start
     = Some (Mediator.Thrown rateLimited,
             {| Mediator.calls := 3; Mediator.draws := 0;
                Mediator.sleeps := [1000%Q; 1000%Q] |}).
Proof. repeat split; reflexivity. Qed.

(* ================================================================= *)
(** ** Further properties of the validation handler *)

Section ReportedFacts.
Context {rt : Runtime}.

Lemma fromCall_hasSignature sg e : fromCall sg e = true <-> hasSignature sg e.
Proof.
  unfold fromCall, hasSignature. rewrite !andb_true_iff, existsb_exists.
  split.
  - intros [[[t [Hin Ht]] Hen] Hcol]. apply String.eqb_eq in Ht, Hen. subst t.
    split; [exact Hin|]. split; [exact Hen|].
    destruct (column sg); auto. apply String.eqb_eq. exact Hcol.
  - intros [Hin [Hen Hcol]]. split; [split|].
    + exists (type e). split; auto. apply String.eqb_refl.
    + apply String.eqb_eq. exact Hen.
    + destruct (column sg); auto. apply String.eqb_eq. exact Hcol.
Qed.

(** The twenty signatures tell the calls apart. *)
Lemma fromCall_distinguishes k sg :
  nth_error signatures k = Some sg ->
  forall j sg' e, nth_error signatures j = Some sg' -> hasSignature sg' e ->
    fromCall sg e = Nat.eqb j k.
Proof.
  intros Hk j sg' e Hj Hsg.
  do 20 (destruct k as [|k];
    [ injection Hk as <-;
      do 20 (destruct j as [|j];
        [ injection Hj as <-; destruct Hsg as [Hty [Hen Hcol]];
          simpl in Hty, Hen, Hcol; unfold fromCall; cbn [types entity column];
          repeat (destruct Hty as [Hty|Hty];
                  [rewrite <- Hty, Hen; try rewrite Hcol; reflexivity|]);
          destruct Hty
        | ]);
      destruct j; discriminate Hj
    | ]).
  destruct k; discriminate Hk.
Qed.

(** In a completed pass, the errors carrying the signature of a call are
    the group of that call. *)
Lemma validate_call clients workers tasks k sg call :
  status (POST clients workers tasks) = 200 ->
  nth_error (catalog clients workers tasks) k = Some call ->
  nth_error signatures k = Some sg ->
  exists G, call [] = inr G /\ filter (fromCall sg) (validate clients workers tasks) = G.
Proof.
  intros H200 Hcall Hsg.
  apply (validate_group clients workers tasks (fromCall sg) k call H200 Hcall).
  apply fromCall_distinguishes. exact Hsg.
Qed.

Lemma arrayFieldsRow_severity et f ty r i g :
  arrayFieldsRow et f ty r i [] = inr g ->
  Forall (fun e => severity e = severityOf (type e)) g.
Proof. revert r i g. severity_at_row arrayFieldsRow. Qed.

Lemma rangeRow_severity et f lo hi r i g :
  rangeRow et f lo hi r i [] = inr g ->
  Forall (fun e => severity e = severityOf (type e)) g.
Proof. revert r i g. severity_at_row rangeRow. Qed.

Lemma minValueRow_severity et f lo r i g :
  minValueRow et f lo r i [] = inr g ->
  Forall (fun e => severity e = severityOf (type e)) g.
Proof. revert r i g. severity_at_row minValueRow. Qed.

Lemma jsonRow_severity et f r i g :
  jsonRow et f r i [] = inr g ->
  Forall (fun e => severity e = severityOf (type e)) g.
Proof. revert r i g. severity_at_row jsonRow. Qed.

Lemma taskReferencesRow_severity taskIds r i g :
  taskReferencesRow taskIds r i [] = inr g ->
  Forall (fun e => severity e = severityOf (type e)) g.
Proof. revert r i g. severity_at_row taskReferencesRow. Qed.

Lemma workerCapacityRow_severity r i g :
  workerCapacityRow r i [] = inr g ->
  Forall (fun e => severity e = severityOf (type e)) g.
Proof. revert r i g. severity_at_row workerCapacityRow. Qed.

Lemma skillCoverageRow_severity skills r i g :
  skillCoverageRow skills r i [] = inr g ->
  Forall (fun e => severity e = severityOf (type e)) g.
Proof. revert r i g. severity_at_row skillCoverageRow. Qed.

(** What [forEach] returns consists of what the callback reports row by
    row. *)
Lemma forEach_members P callback :
  appendsAtRow P callback ->
  forall data i G e,
    forEach callback data i [] = inr G -> In e G ->
    exists k r g, nth_error data k = Some r /\ callback r (i + k) [] = inr g /\ In e g.
Proof.
  intros Hcb. induction data as [|r0 rest IH]; intros i G e Hrun He.
  - simpl in Hrun. injection Hrun as <-. destruct He.
  - destruct (forEach_appends P callback Hcb rest (S i)) as [Hframe _].
    simpl in Hrun.
    destruct (callback r0 i []) as [x|g0] eqn:Eg; simpl in Hrun; [discriminate|].
    rewrite Hframe in Hrun.
    destruct (forEach callback rest (S i) []) as [x|G'] eqn:EG; simpl in Hrun;
      [discriminate|].
    injection Hrun as <-. apply in_app_or in He. destruct He as [He|He].
    + exists 0%nat, r0, g0. rewrite Nat.add_0_r. auto.
    + destruct (IH (S i) G' e EG He) as [k [r [g [Hk [Hg Hin]]]]].
      exists (S k), r, g. rewrite Nat.add_succ_r. auto.
Qed.

(** A rule that runs [forEach] from row 0 reports errors of its signature,
    at rows of its collection, with the severity of their type. *)
Lemma rule_reported sg callback data (call : list ValidationError -> M (list ValidationError)) :
  appendsAtRow (hasSignature sg) callback ->
  (forall r i g, callback r i [] = inr g ->
     Forall (fun e => severity e = severityOf (type e)) g) ->
  call [] = forEach callback data 0 [] ->
  forall G, call [] = inr G -> Forall (reportedBy sg data) G.
Proof.
  intros Hcb Hsev Hcall G HG. rewrite Hcall in HG.
  destruct (forEach_appends _ _ Hcb data 0) as [_ Hgroup].
  destruct (Hgroup G HG) as [HP [_ Hbound]].
  apply Forall_forall. intros e He.
  rewrite Forall_forall in HP, Hbound.
  split; [auto|]. split; [apply Hbound; exact He|].
  destruct (forEach_members _ _ Hcb data 0 G e HG He) as [k [r [g [_ [Hg Hin]]]]].
  specialize (Hsev r _ g Hg). rewrite Forall_forall in Hsev. auto.
Qed.

Lemma validateRequiredColumns_reported data et cols G :
  validateRequiredColumns data et cols [] = inr G ->
  Forall (reportedBy (missingSignature et) data) G.
Proof.
  intros H. unfold validateRequiredColumns, push, ret in H.
  split_matches; inversion H; subst;
    repeat (apply Forall_cons || apply Forall_nil).
  unfold reportedBy, hasSignature. simpl. repeat split; auto. lia.
Qed.

(** The identifier scan keeps the severity of what it has reported. *)
Lemma uniqueIds_severity et col data :
  forall i ids errs ids' errs',
    Forall (fun e => severity e = severityOf (type e)) errs ->
    forEach (uniqueIdsRow et col) data i (ids, errs) = inr (ids', errs') ->
    Forall (fun e => severity e = severityOf (type e)) errs'.
Proof.
  induction data as [|r rest IH]; intros i ids errs ids' errs' Herrs Hrun.
  - simpl in Hrun. injection Hrun as _ <-. exact Herrs.
  - cbn [forEach] in Hrun.
    destruct (uniqueIdsRow et col r i (ids, errs)) as [x|[ids1 errs1]] eqn:Estep;
      cbn [bind] in Hrun; [discriminate|].
    apply (IH _ _ _ _ _) with (2 := Hrun).
    unfold uniqueIdsRow, push, bind, ret in Estep.
    split_matches; inversion Estep; subst; auto.
    apply Forall_app. split; [assumption|repeat constructor].
Qed.

Lemma validateUniqueIds_reported data et col G :
  validateUniqueIds data et col [] = inr G ->
  Forall (reportedBy (duplicateSignature et col) data) G.
Proof.
  intros HG.
  destruct (validateUniqueIds_group data et col) as [G' [Hrun [Hsig Hrows]]].
  rewrite (Hrun []) in HG. simpl in HG. injection HG as <-.
  assert (Hsev : Forall (fun e => severity e = severityOf (type e)) G').
  { destruct data as [|r rest]; [specialize (Hrun []); simpl in Hrun;
                                 injection Hrun as <-; constructor|].
    specialize (Hrun []). unfold validateUniqueIds in Hrun.
    destruct (forEach (uniqueIdsRow et col) (r :: rest) 0 ([], [])) as [x|[ids' errs']] eqn:E;
      cbn [bind ret snd] in Hrun; [discriminate|].
    injection Hrun as ->. simpl app in E.
    eapply uniqueIds_severity; [|exact E]. constructor. }
  pose proof (duplicateRows_bounds col data [] 0) as Hb. rewrite <- Hrows in Hb.
  apply Forall_forall. intros e He.
  rewrite Forall_forall in Hsig, Hsev, Hb.
  split; [auto|]. split; [|auto].
  assert (Hin : In (rowIndex e) (map rowIndex G')) by (apply in_map; exact He).
  specialize (Hb _ Hin). simpl in Hb. lia.
Qed.

(** Call by call, what the catalog reports. *)
Lemma catalog_reported clients workers tasks :
  Forall2 (fun sg call =>
             forall G, call [] = inr G ->
                       Forall (reportedBy sg (dataOf sg clients workers tasks)) G)
    signatures (catalog clients workers tasks).
Proof.
  unfold signatures, catalog.
  repeat (apply Forall2_cons || apply Forall2_nil); unfold dataOf; cbn [entity String.eqb];
    try apply validateRequiredColumns_reported;
    try apply validateUniqueIds_reported.
  - apply rule_reported with (callback := arrayFieldsRow "workers" "AvailableSlots" "number");
      [apply arrayFieldsRow_appends|apply arrayFieldsRow_severity|destruct workers; reflexivity].
  - apply rule_reported with (callback := arrayFieldsRow "workers" "Skills" "string");
      [apply arrayFieldsRow_appends|apply arrayFieldsRow_severity|destruct workers; reflexivity].
  - apply rule_reported with (callback := arrayFieldsRow "tasks" "RequiredSkills" "string");
      [apply arrayFieldsRow_appends|apply arrayFieldsRow_severity|destruct tasks; reflexivity].
  - apply rule_reported with (callback := arrayFieldsRow "tasks" "PreferredPhases" "number");
      [apply arrayFieldsRow_appends|apply arrayFieldsRow_severity|destruct tasks; reflexivity].
  - apply rule_reported
      with (callback := rangeRow "clients" "PriorityLevel" (Finite 1%Q) (Finite 5%Q));
      [apply rangeRow_appends|apply rangeRow_severity|destruct clients; reflexivity].
  - apply rule_reported with (callback := minValueRow "tasks" "Duration" (Finite 1%Q));
      [apply minValueRow_appends|apply minValueRow_severity|destruct tasks; reflexivity].
  - apply rule_reported with (callback := minValueRow "tasks" "MaxConcurrent" (Finite 1%Q));
      [apply minValueRow_appends|apply minValueRow_severity|destruct tasks; reflexivity].
  - apply rule_reported with (callback := minValueRow "workers" "MaxLoadPerPhase" (Finite 1%Q));
      [apply minValueRow_appends|apply minValueRow_severity|destruct workers; reflexivity].
  - apply rule_reported with (callback := jsonRow "clients" "AttributesJSON");
      [apply jsonRow_appends|apply jsonRow_severity|destruct clients; reflexivity].
  - apply rule_reported with (callback := jsonRow "workers" "AttributesJSON");
      [apply jsonRow_appends|apply jsonRow_severity|destruct workers; reflexivity].
  - apply rule_reported with (callback := jsonRow "tasks" "AttributesJSON");
      [apply jsonRow_appends|apply jsonRow_severity|destruct tasks; reflexivity].
  - destruct clients as [|c cs]; [intros G H; injection H as <-; constructor|].
    destruct tasks as [|t ts]; [intros G H; injection H as <-; constructor|].
    apply rule_reported
      with (callback := taskReferencesRow (setOf (map (fun task => get task "TaskID") (t :: ts))));
      [apply taskReferencesRow_appends|apply taskReferencesRow_severity|reflexivity].
  - apply rule_reported with (callback := workerCapacityRow);
      [apply workerCapacityRow_appends|apply workerCapacityRow_severity
      |destruct workers; reflexivity].
  - destruct workers as [|w ws]; [intros G H; injection H as <-; constructor|].
    destruct tasks as [|t ts]; [intros G H; injection H as <-; constructor|].
    apply rule_reported with (callback := skillCoverageRow (collectSkills (w :: ws)));
      [apply skillCoverageRow_appends|apply skillCoverageRow_severity|reflexivity].
Qed.

Lemma Forall2_compose {A B C} (R1 : A -> B -> Prop) (R2 : B -> C -> Prop) la lb lc :
  Forall2 R1 la lb -> Forall2 R2 lb lc ->
  Forall2 (fun a c => exists b, R1 a b /\ R2 b c) la lc.
Proof.
  intros H1. revert lc. induction H1 as [|a b la lb Hab _ IH]; intros lc H2;
    inversion H2; subst; constructor; eauto.
Qed.

(** Every error [validate] returns was reported by one of the twenty calls
    over its own collection. *)
Lemma validate_reported clients workers tasks e :
  In e (validate clients workers tasks) ->
  exists sg, In sg signatures /\ reportedBy sg (dataOf sg clients workers tasks) e.
Proof.
  intros He.
  destruct (POST_status clients workers tasks) as [[H200 _]|[_ [Hnil _]]];
    [|rewrite Hnil in He; destruct He].
  destruct (POST_groups _ _ _ H200) as [groups [Hcat [Hcalls _]]].
  pose proof (Forall2_compose _ _ _ _ _ (catalog_reported clients workers tasks) Hcalls)
    as Hall.
  rewrite Hcat in He. apply in_concat in He. destruct He as [G [HG He]].
  clear Hcat Hcalls H200. induction Hall as [|sg G' sgs gs [call [Hrep Hcall]] _ IH].
  - destruct HG.
  - destruct HG as [<-|HG].
    + exists sg. split; [left; reflexivity|].
      specialize (Hrep _ Hcall). rewrite Forall_forall in Hrep. auto.
    + destruct (IH HG) as [sg' [Hin Hrep']]. exists sg'. split; [right|]; auto.
Qed.

End ReportedFacts.

(* ================================================================= *)
(** ** Which rows the rules report *)

Section RowFacts.
Context {rt : Runtime}.

Lemma dataOf_collection sg clients workers tasks :
  In sg signatures ->
  exists en, entity sg = entityName en
             /\ dataOf sg clients workers tasks = collection en clients workers tasks.
Proof.
  unfold signatures. simpl.
  intros H.
  repeat (destruct H as [<-|H];
          [first [exists Clients; split; reflexivity
                 |exists Workers; split; reflexivity
                 |exists Tasks; split; reflexivity]|]).
  destruct H.
Qed.

Lemma signature_types sg e :
  In sg signatures -> hasSignature sg e -> In (type e) errorTypes.
Proof.
  unfold signatures. simpl. intros H [Hty _].
  repeat (destruct H as [<-|H];
          [simpl in Hty; unfold errorTypes;
           repeat (destruct Hty as [<-|Hty]; [simpl; tauto|]); destruct Hty|]).
  destruct H.
Qed.

(** In a completed pass, an error of the list with the signature of a call
    that runs [forEach] was reported by the callback at the error's row. *)
Lemma call_reported clients workers tasks k sg call callback data e :
  status (POST clients workers tasks) = 200 ->
  nth_error (catalog clients workers tasks) k = Some call ->
  nth_error signatures k = Some sg ->
  appendsAtRow (hasSignature sg) callback ->
  call [] = forEach callback data 0 [] ->
  In e (validate clients workers tasks) -> fromCall sg e = true ->
  exists r g, nth_error data (rowIndex e) = Some r
              /\ callback r (rowIndex e) [] = inr g /\ In e g.
Proof.
  intros H200 Hcall Hsg Hcb Hrun Hin Hfrom.
  destruct (validate_call _ _ _ k sg call H200 Hcall Hsg) as [G [HG Hfilter]].
  assert (HinG : In e G) by (rewrite <- Hfilter; apply filter_In; auto).
  rewrite Hrun in HG.
  destruct (forEach_members _ _ Hcb data 0 G e HG HinG) as [i [r [g [Hi [Hg Hing]]]]].
  simpl in Hg.
  destruct (Hcb r i) as [_ Hrow]. destruct (Hrow g Hg) as [_ Hall].
  rewrite Forall_forall in Hall. destruct (Hall e Hing) as [<- _].
  eauto.
Qed.

(** In a completed pass the callback of such a call returned at every row,
    and what it reported is in the list. *)
Lemma call_reports clients workers tasks k sg call callback data i r :
  status (POST clients workers tasks) = 200 ->
  nth_error (catalog clients workers tasks) k = Some call ->
  nth_error signatures k = Some sg ->
  appendsAtRow (hasSignature sg) callback ->
  call [] = forEach callback data 0 [] ->
  nth_error data i = Some r ->
  exists g, callback r i [] = inr g
            /\ forall e, In e g -> In e (validate clients workers tasks).
Proof.
  intros H200 Hcall Hsg Hcb Hrun Hi.
  destruct (validate_call _ _ _ k sg call H200 Hcall Hsg) as [G [HG Hfilter]].
  rewrite Hrun in HG.
  destruct (forEach_reports _ _ Hcb data 0 G i r HG Hi) as [g [Hg Hincl]].
  exists g. split; [exact Hg|]. intros e He.
  apply Hincl in He. rewrite <- Hfilter in He. apply filter_In in He. tauto.
Qed.

(** The call an error of a given type comes from, for the types only one
    call reports. *)
Lemma type_call clients workers tasks e sg :
  In e (validate clients workers tasks) ->
  In sg signatures ->
  (forall sg', In sg' signatures -> In (type e) (types sg') -> sg' = sg) ->
  fromCall sg e = true.
Proof.
  intros Hin Hsg Honly.
  destruct (validate_reported _ _ _ _ Hin) as [sg' [Hsg' [Hhas _]]].
  apply fromCall_hasSignature.
  rewrite <- (Honly sg' Hsg' (proj1 Hhas)). exact Hhas.
Qed.

Lemma only_call t sg :
  In sg signatures -> types sg = [t] ->
  List.length (filter (fun sg' => existsb (String.eqb t) (types sg')) signatures) = 1%nat ->
  forall sg', In sg' signatures -> In t (types sg') -> sg' = sg.
Proof.
  intros Hsg Hty Hone sg' Hsg' Ht.
  assert (H : forall s, In s signatures -> In t (types s) ->
                        In s (filter (fun sg' => existsb (String.eqb t) (types sg')) signatures)).
  { intros s Hs Hts. apply filter_In. split; auto. apply existsb_exists.
    exists t. split; auto. apply String.eqb_refl. }
  pose proof (H sg Hsg) as H1. rewrite Hty in H1. specialize (H1 (or_introl eq_refl)).
  pose proof (H sg' Hsg' Ht) as H2.
  destruct (filter _ signatures) as [|a [|b l]]; try discriminate Hone.
  destruct H1 as [<-|[]]. destruct H2 as [<-|[]]. reflexivity.
Qed.

(* ----------------------------------------------------------------- *)
(** *** The callbacks, row by row *)

Lemma workerCapacityRow_reported worker i g e :
  workerCapacityRow worker i [] = inr g -> In e g ->
  exists slots maxLoad,
    get worker "AvailableSlots" = Some (Arr slots)
    /\ get worker "MaxLoadPerPhase" = Some (Num maxLoad)
    /\ lt (ofNat (List.length slots)) maxLoad = true.
Proof.
  unfold workerCapacityRow, push, ret. intros H Hin.
  split_matches; inversion H; subst; try (destruct Hin; fail). eauto.
Qed.

Lemma workerCapacityRow_reports worker i slots maxLoad :
  get worker "AvailableSlots" = Some (Arr slots) ->
  get worker "MaxLoadPerPhase" = Some (Num maxLoad) ->
  lt (ofNat (List.length slots)) maxLoad = true ->
  exists e, workerCapacityRow worker i [] = inr [e]
            /\ reportedAt "overloadedWorker" i e.
Proof.
  intros H1 H2 H3. unfold workerCapacityRow. rewrite H1, H2, H3.
  eexists. split; [reflexivity|]. split; reflexivity.
Qed.

Lemma filter_nonempty {A} (f : A -> bool) l :
  filter f l <> [] <-> exists x, In x l /\ f x = true.
Proof.
  split.
  - destruct (filter f l) as [|x rest] eqn:E; [congruence|]. intros _.
    exists x. apply filter_In. rewrite E. left. reflexivity.
  - intros [x Hx] E. apply filter_In in Hx. rewrite E in Hx. destruct Hx.
Qed.

Lemma skillCoverageRow_reported skills task i g e :
  skillCoverageRow skills task i [] = inr g -> In e g ->
  exists required skill,
    get task "RequiredSkills" = Some (Arr required)
    /\ In skill required /\ has skills skill = false.
Proof.
  unfold skillCoverageRow, push, bind, ret. intros H Hin.
  split_matches; inversion H; subst; try (destruct Hin; fail).
  match goal with
  | E : filter _ ?l = ?x :: _ |- _ =>
      assert (Hx : In x (filter (fun skill => negb (has skills skill)) l))
        by (rewrite E; left; reflexivity)
  end.
  apply filter_In in Hx. destruct Hx as [Hx Hhas]. apply negb_true_iff in Hhas. eauto.
Qed.

Lemma skillCoverageRow_reports skills task i g required skill :
  skillCoverageRow skills task i [] = inr g ->
  get task "RequiredSkills" = Some (Arr required) ->
  In skill required -> has skills skill = false ->
  exists e, In e g /\ reportedAt "uncoveredSkills" i e.
Proof.
  unfold skillCoverageRow, push, bind, ret. intros H Hget Hin Hhas.
  rewrite Hget in H.
  destruct (filter (fun skill => negb (has skills skill)) required) as [|x rest] eqn:E.
  - exfalso. revert E. apply filter_nonempty. exists skill. rewrite Hhas. auto.
  - destruct (join ", " (x :: rest)); inversion H; subst.
    eexists. split; [left; reflexivity|]. split; reflexivity.
Qed.

Lemma taskReferencesRow_reported taskIds client i g e :
  taskReferencesRow taskIds client i [] = inr g -> In e g ->
  exists requested ref,
    get client "RequestedTaskIDs" = Some (Arr requested)
    /\ In ref requested /\ has taskIds ref = false.
Proof.
  unfold taskReferencesRow, push, bind, ret. intros H Hin.
  split_matches; inversion H; subst; try (destruct Hin; fail).
  match goal with
  | E : filter _ ?l = ?x :: _ |- _ =>
      assert (Hx : In x (filter (fun taskId => negb (has taskIds taskId)) l))
        by (rewrite E; left; reflexivity)
  end.
  apply filter_In in Hx. destruct Hx as [Hx Hhas]. apply negb_true_iff in Hhas. eauto.
Qed.

Lemma taskReferencesRow_reports taskIds client i g requested ref :
  taskReferencesRow taskIds client i [] = inr g ->
  get client "RequestedTaskIDs" = Some (Arr requested) ->
  In ref requested -> has taskIds ref = false ->
  exists e, In e g /\ reportedAt "unknownReferences" i e.
Proof.
  unfold taskReferencesRow, push, bind, ret. intros H Hget Hin Hhas.
  rewrite Hget in H.
  destruct (filter (fun taskId => negb (has taskIds taskId)) requested) as [|x rest] eqn:E.
  - exfalso. revert E. apply filter_nonempty. exists ref. rewrite Hhas. auto.
  - destruct (join ", " (x :: rest)); inversion H; subst.
    eexists. split; [left; reflexivity|]. split; reflexivity.
Qed.

(** The [Set] of worker skills holds what some worker offers. *)
Lemma fold_add_covers skills :
  forall acc v, has (fold_left add skills acc) v = has acc v || existsb (sameValueZero v) skills.
Proof.
  induction skills as [|x skills IH]; intros acc v; simpl.
  - rewrite orb_false_r. reflexivity.
  - rewrite IH, has_add, orb_assoc. reflexivity.
Qed.

Lemma collectSkills_from workers :
  forall acc v,
    has (fold_left (fun availableSkills worker =>
                      match get worker "Skills" with
                      | Some (Arr skills) => fold_left add skills availableSkills
                      | _ => availableSkills
                      end) workers acc) v
    = has acc v || covered workers v.
Proof.
  induction workers as [|w workers IH]; intros acc v; simpl.
  - rewrite orb_false_r. reflexivity.
  - rewrite IH. unfold offers.
    destruct (get w "Skills") as [[| | | |skills|]|]; simpl; auto.
    rewrite fold_add_covers, orb_assoc. reflexivity.
Qed.

Lemma collectSkills_covered workers v : has (collectSkills workers) v = covered workers v.
Proof. unfold collectSkills. rewrite collectSkills_from. reflexivity. Qed.

(** The [Set] of task identifiers holds the truthy identifiers. *)
Lemma fold_add_options (l : list (option value)) :
  forall acc v,
    has (fold_left (fun s o => match o with Some x => add s x | None => s end) l acc) v
    = has acc v
      || existsb (fun o => match o with Some x => sameValueZero v x | None => false end) l.
Proof.
  induction l as [|o l IH]; intros acc v; simpl.
  - rewrite orb_false_r. reflexivity.
  - rewrite IH. destruct o as [x|]; simpl; auto.
    rewrite has_add, orb_assoc. reflexivity.
Qed.

Lemma setOf_knownTask tasks v :
  has (setOf (map (fun task => get task "TaskID") tasks)) v = knownTask tasks v.
Proof.
  unfold setOf. rewrite fold_add_options. simpl.
  induction tasks as [|task tasks IH]; [reflexivity|].
  cbn [map filter knownTask existsb]. fold (knownTask tasks v).
  destruct (get task "TaskID") as [x|] eqn:E.
  - destruct (truthy (Some x)); cbn [existsb andb]; rewrite IH; reflexivity.
  - cbn [truthy orb]. exact IH.
Qed.

Lemma rangeRow_reported et f lo hi r i g e :
  rangeRow et f lo hi r i [] = inr g -> In e g ->
  exists v n, get r f = Some v /\ v <> Null /\ ToNumber v = inr n
              /\ isNaN n || lt n lo || lt hi n = true.
Proof.
  unfold rangeRow, push, bind, ret. intros H Hin.
  split_matches; inversion H; subst; try (destruct Hin; fail);
    do 2 eexists; (split; [reflexivity|]); (split; [discriminate|]); split; eassumption.
Qed.

Lemma rangeRow_reports et f lo hi r i g v n :
  rangeRow et f lo hi r i [] = inr g ->
  get r f = Some v -> v <> Null -> ToNumber v = inr n ->
  isNaN n || lt n lo || lt hi n = true ->
  exists e, In e g /\ type e = "outOfRange" /\ entityType e = et
            /\ columnName e = f /\ rowIndex e = i.
Proof.
  unfold rangeRow, push, bind, ret. intros H Hget Hnull Hnum Hcond.
  rewrite Hget in H.
  destruct v; try congruence; rewrite Hnum, Hcond in H;
    match type of H with context [ToString ?v] => destruct (ToString v) end;
    inversion H; subst; eexists; (split; [left; reflexivity|]); simpl; auto.
Qed.

Lemma minValueRow_reported et f lo r i g e :
  minValueRow et f lo r i [] = inr g -> In e g ->
  exists v n, get r f = Some v /\ v <> Null /\ ToNumber v = inr n
              /\ isNaN n || lt n lo = true.
Proof.
  unfold minValueRow, push, bind, ret. intros H Hin.
  split_matches; inversion H; subst; try (destruct Hin; fail);
    do 2 eexists; (split; [reflexivity|]); (split; [discriminate|]); split; eassumption.
Qed.

Lemma minValueRow_reports et f lo r i g v n :
  minValueRow et f lo r i [] = inr g ->
  get r f = Some v -> v <> Null -> ToNumber v = inr n ->
  isNaN n || lt n lo = true ->
  exists e, In e g /\ type e = "belowMinimum" /\ entityType e = et
            /\ columnName e = f /\ rowIndex e = i.
Proof.
  unfold minValueRow, push, bind, ret. intros H Hget Hnull Hnum Hcond.
  rewrite Hget in H.
  destruct v; try congruence; rewrite Hnum, Hcond in H;
    match type of H with context [ToString ?v] => destruct (ToString v) end;
    inversion H; subst; eexists; (split; [left; reflexivity|]); simpl; auto.
Qed.

Lemma jsonRow_reported et f r i g e :
  jsonRow et f r i [] = inr g -> In e g ->
  exists s, get r f = Some (Str s) /\ s <> "" /\ JSON_parses s = false.
Proof.
  unfold jsonRow, push, ret. intros H Hin.
  split_matches; inversion H; subst; try (destruct Hin; fail).
  eexists. split; [reflexivity|]. split; [|assumption].
  intros ->. discriminate.
Qed.

Lemma jsonRow_reports et f r i g s :
  jsonRow et f r i [] = inr g ->
  get r f = Some (Str s) -> s <> "" -> JSON_parses s = false ->
  exists e, In e g /\ type e = "invalidJSON" /\ entityType e = et
            /\ columnName e = f /\ rowIndex e = i.
Proof.
  unfold jsonRow, push, ret. intros H Hget Hs Hparse.
  rewrite Hget, Hparse in H. cbn [truthy] in H.
  destruct (String.eqb_spec s ""); [contradiction|]. cbn [negb] in H.
  inversion H; subst. eexists. split; [left; reflexivity|]. simpl; auto.
Qed.

Lemma arrayFieldsRow_malformed et f ty r i g e :
  arrayFieldsRow et f ty r i [] = inr g -> In e g -> type e = "malformedArray" ->
  exists v, get r f = Some v /\ v <> Null /\ isArray (Some v) = false.
Proof.
  unfold arrayFieldsRow, push, bind, ret. intros H Hin Hty.
  split_matches; inversion H; subst; try (destruct Hin; fail);
    destruct Hin as [<-|[]]; try discriminate Hty;
    eexists; (split; [reflexivity|]); (split; [discriminate|reflexivity]).
Qed.

Lemma arrayFieldsRow_invalid et f ty r i g e :
  arrayFieldsRow et f ty r i [] = inr g -> In e g -> type e = "invalidArrayElements" ->
  exists items item, get r f = Some (Arr items) /\ In item items
                     /\ invalidElement ty item = true.
Proof.
  unfold arrayFieldsRow, push, bind, ret. intros H Hin Hty.
  split_matches; inversion H; subst; try (destruct Hin; fail);
    destruct Hin as [<-|[]]; try discriminate Hty.
  match goal with
  | E : filter _ ?l = ?x :: _ |- _ =>
      assert (Hx : In x (filter (invalidElement ty) l)) by (rewrite E; left; reflexivity)
  end.
  apply filter_In in Hx. destruct Hx. eauto.
Qed.

Lemma arrayFieldsRow_reports_malformed et f ty r i g v :
  arrayFieldsRow et f ty r i [] = inr g ->
  get r f = Some v -> v <> Null -> isArray (Some v) = false ->
  exists e, In e g /\ type e = "malformedArray" /\ entityType e = et
            /\ columnName e = f /\ rowIndex e = i.
Proof.
  unfold arrayFieldsRow, push, bind, ret. intros H Hget Hnull Harr.
  rewrite Hget in H.
  destruct v; try congruence; try discriminate Harr;
    inversion H; subst; eexists; (split; [left; reflexivity|]); simpl; auto.
Qed.

Lemma arrayFieldsRow_reports_invalid et f ty r i g items item :
  arrayFieldsRow et f ty r i [] = inr g ->
  get r f = Some (Arr items) -> In item items -> invalidElement ty item = true ->
  exists e, In e g /\ type e = "invalidArrayElements" /\ entityType e = et
            /\ columnName e = f /\ rowIndex e = i.
Proof.
  unfold arrayFieldsRow, push, bind, ret. intros H Hget Hin Hinv.
  rewrite Hget in H.
  destruct (filter (invalidElement ty) items) as [|x rest] eqn:E.
  - exfalso. revert E. apply filter_nonempty. eauto.
  - destruct (join ", " (x :: rest)); inversion H; subst.
    eexists. split; [left; reflexivity|]. simpl; auto.
Qed.

(** The pattern of the row-by-row rules: which rows a call reports with a
    property [P] that pins the call down. *)
Lemma rule_iff clients workers tasks k sg call callback data
    (P : ValidationError -> Prop) (cond : row -> Prop) i :
  status (POST clients workers tasks) = 200 ->
  nth_error (catalog clients workers tasks) k = Some call ->
  nth_error signatures k = Some sg ->
  appendsAtRow (hasSignature sg) callback ->
  call [] = forEach callback data 0 [] ->
  (forall e, In e (validate clients workers tasks) -> P e ->
             fromCall sg e = true /\ rowIndex e = i) ->
  (forall r g e, callback r i [] = inr g -> In e g -> P e -> cond r) ->
  (forall r g, callback r i [] = inr g -> cond r -> exists e, In e g /\ P e) ->
  ((exists e, In e (validate clients workers tasks) /\ P e)
   <-> exists r, nth_error data i = Some r /\ cond r).
Proof.
  intros H200 Hcall Hsg Hcb Hrun Hpin Hreported Hreports. split.
  - intros [e [Hin HP]]. destruct (Hpin e Hin HP) as [Hfrom Hrow].
    destruct (call_reported _ _ _ k sg call callback data e H200 Hcall Hsg Hcb Hrun Hin Hfrom)
      as [r [g [Hr [Hg Hing]]]].
    rewrite Hrow in Hr, Hg. exists r. split; [exact Hr|]. eapply Hreported; eauto.
  - intros [r [Hr Hcond]].
    destruct (call_reports _ _ _ k sg call callback data i r H200 Hcall Hsg Hcb Hrun Hr)
      as [g [Hg Hincl]].
    destruct (Hreports r g Hg Hcond) as [e [Hing HP]].
    exists e. auto.
Qed.

End RowFacts.

(* ================================================================= *)
(** ** What the list of a validation pass holds *)

Section ReportFacts.
Context {rt : Runtime}.

Lemma filter_none {A} (f : A -> bool) l :
  (forall x, In x l -> f x = false) -> filter f l = [].
Proof.
  induction l as [|x l IH]; intros H; [reflexivity|].
  simpl. rewrite (H x (or_introl eq_refl)). apply IH. intros y Hy. apply H. right. exact Hy.
Qed.

Lemma validate_rows clients workers tasks e :
  In e (validate clients workers tasks) ->
  exists en, entityType e = entityName en
             /\ (rowIndex e < List.length (collection en clients workers tasks))%nat.
Proof.
  intros He.
  destruct (validate_reported _ _ _ _ He) as [sg [Hsg [[_ [Hen _]] [Hrow _]]]].
  destruct (dataOf_collection sg clients workers tasks Hsg) as [en [Hent Hdata]].
  exists en. rewrite Hen, Hent, <- Hdata. auto.
Qed.

Lemma validate_silent en clients workers tasks :
  collection en clients workers tasks = [] ->
  filter (fun e => entityType e =? entityName en) (validate clients workers tasks) = [].
Proof.
  intros Hempty. apply filter_none. intros e He.
  destruct (validate_rows _ _ _ _ He) as [en' [Hen Hrow]].
  destruct (String.eqb_spec (entityType e) (entityName en)) as [Heq|]; [|reflexivity].
  rewrite Hen in Heq.
  assert (en' = en) by (destruct en, en'; try discriminate Heq; reflexivity). subst en'.
  rewrite Hempty in Hrow. simpl in Hrow. lia.
Qed.

Lemma reportedAt_call clients workers tasks t i k sg e :
  nth_error signatures k = Some sg ->
  types sg = [t] ->
  List.length (filter (fun sg' => existsb (String.eqb t) (types sg')) signatures) = 1%nat ->
  In e (validate clients workers tasks) -> reportedAt t i e ->
  fromCall sg e = true /\ rowIndex e = i.
Proof.
  intros Hsg Hty Hone Hin [Ht Hrow]. split; [|exact Hrow].
  apply nth_error_In in Hsg.
  apply (type_call clients workers tasks e sg Hin Hsg).
  rewrite Ht. apply only_call; assumption.
Qed.

Lemma reportedFor_call t en f i sg e :
  In t (types sg) ->
  entity sg = entityName en -> column sg = Some f ->
  reportedFor t en f i e ->
  fromCall sg e = true /\ rowIndex e = i.
Proof.
  intros Hty Hen Hcol [Ht [He [Hc Hrow]]]. split; [|exact Hrow].
  apply fromCall_hasSignature. unfold hasSignature.
  rewrite Hen, Hcol, Ht. auto.
Qed.

End ReportFacts.

(** X1: every error [validate] returns names one of the three entities and
    a row that exists in that entity's collection: the row index is below
    the collection's length. *)
Theorem reported_rows_exist {rt : Runtime} (clients workers tasks : list row) :
  Forall (fun e => exists en,
                     entityType e = entityName en
                     /\ (rowIndex e < List.length (collection en clients workers tasks))%nat)
    (validate clients workers tasks).
Proof. apply Forall_forall. intros e He. apply validate_rows. exact He. Qed.

(** X2: the type of every error [validate] returns is one of the ten types
    of the catalog, and its severity is fixed by the type: a warning for
    overloadedWorker and uncoveredSkills, an error for the eight others. *)
Theorem severity_fixed_by_type {rt : Runtime} (clients workers tasks : list row) :
  Forall (fun e => In (type e) errorTypes
                   /\ (severity e = warning
                       <-> type e = "overloadedWorker" \/ type e = "uncoveredSkills"))
    (validate clients workers tasks).
Proof.
  apply Forall_forall. intros e He.
  destruct (validate_reported _ _ _ _ He) as [sg [Hsg [Hhas [_ Hsev]]]].
  pose proof (signature_types sg e Hsg Hhas) as Hty.
  split; [exact Hty|]. rewrite Hsev.
  unfold errorTypes in Hty. simpl in Hty.
  repeat (destruct Hty as [<-|Hty];
          [unfold severityOf; simpl; split;
           [intros H; try discriminate H; auto
           |intros [H|H]; try discriminate H; reflexivity]|]).
  destruct Hty.
Qed.

(** X3: an empty collection gets no error: whatever the two other
    collections hold, the list has no error for the clients when there is
    no client, none for the workers when there is no worker, none for the
    tasks when there is no task. *)
Theorem empty_collection_is_silent {rt : Runtime} (clients workers tasks : list row) :
  filter (fun e => entityType e =? "clients") (validate [] workers tasks) = []
  /\ filter (fun e => entityType e =? "workers") (validate clients [] tasks) = []
  /\ filter (fun e => entityType e =? "tasks") (validate clients workers []) = [].
Proof.
  split; [|split].
  - apply (validate_silent Clients). reflexivity.
  - apply (validate_silent Workers). reflexivity.
  - apply (validate_silent Tasks). reflexivity.
Qed.

(** X4: in a completed pass, the list holds an overloadedWorker warning at
    row [i] exactly when worker [i] has an array in [AvailableSlots], a
    number (not a numeric string) in [MaxLoadPerPhase], and fewer slots
    than that number. *)
Theorem overloaded_workers_warned {rt : Runtime} (clients workers tasks : list row)
    (i : nat) :
  status (POST clients workers tasks) = 200 ->
  ((exists e, In e (validate clients workers tasks) /\ reportedAt "overloadedWorker" i e)
   <-> exists worker, nth_error workers i = Some worker
         /\ exists slots maxLoad,
              get worker "AvailableSlots" = Some (Arr slots)
              /\ get worker "MaxLoadPerPhase" = Some (Num maxLoad)
              /\ lt (ofNat (List.length slots)) maxLoad = true).
Proof.
  intros H200.
  apply (rule_iff clients workers tasks 18 _ _ workerCapacityRow workers
           (reportedAt "overloadedWorker" i) _ i H200 eq_refl eq_refl
           workerCapacityRow_appends).
  - destruct workers; reflexivity.
  - intros e. apply reportedAt_call with (k := 18%nat); reflexivity.
  - intros r g e Hg Hin _. apply (workerCapacityRow_reported r i g e Hg Hin).
  - intros r g Hg [slots [maxLoad [H1 [H2 H3]]]].
    destruct (workerCapacityRow_reports r i slots maxLoad H1 H2 H3) as [e [He HP]].
    rewrite He in Hg. injection Hg as <-. exists e. split; [left; reflexivity|exact HP].
Qed.

(** Witness for X4: one worker with one slot and a load of three. *)
Lemma overloaded_workers_warned_witness :
  exists e, In e (validate (rt := exampleRuntime) [] [busyWorker] [])
            /\ reportedAt "overloadedWorker" 0 e.
Proof.
  apply (proj2 (overloaded_workers_warned (rt := exampleRuntime) [] [busyWorker] [] 0
                  eq_refl)).
  exists busyWorker. split; [reflexivity|].
  exists [Num (Finite 1%Q)], (Finite 3%Q). repeat split.
Defined.

(** X5: in a completed pass, the list holds an uncoveredSkills warning at
    row [i] exactly when there is a worker at all and task [i] has an array
    in [RequiredSkills] one element of which no worker offers.  With no
    worker, no skill is reported, although none is covered. *)
Theorem uncovered_skills_warned {rt : Runtime} (clients workers tasks : list row)
    (i : nat) :
  status (POST clients workers tasks) = 200 ->
  ((exists e, In e (validate clients workers tasks) /\ reportedAt "uncoveredSkills" i e)
   <-> workers <> []
       /\ exists task, nth_error tasks i = Some task
            /\ exists required skill,
                 get task "RequiredSkills" = Some (Arr required)
                 /\ In skill required /\ covered workers skill = false).
Proof.
  intros H200.
  destruct workers as [|w ws].
  { split.
    - intros [e [Hin [Hty Hrow]]].
      destruct (reportedAt_call clients [] tasks "uncoveredSkills" i 19 _ e
                  eq_refl eq_refl eq_refl Hin (conj Hty Hrow)) as [Hfrom _].
      destruct (validate_call _ _ _ 19 _ _ H200 eq_refl eq_refl) as [G [HG Hfilter]].
      simpl in HG. injection HG as <-.
      assert (HinG : In e []) by (rewrite <- Hfilter; apply filter_In; auto).
      destruct HinG.
    - intros [H _]. congruence. }
  destruct tasks as [|t ts].
  { split.
    - intros [e [Hin [Hty Hrow]]].
      destruct (reportedAt_call clients (w :: ws) [] "uncoveredSkills" i 19 _ e
                  eq_refl eq_refl eq_refl Hin (conj Hty Hrow)) as [Hfrom _].
      destruct (validate_call _ _ _ 19 _ _ H200 eq_refl eq_refl) as [G [HG Hfilter]].
      simpl in HG. injection HG as <-.
      assert (HinG : In e []) by (rewrite <- Hfilter; apply filter_In; auto).
      destruct HinG.
    - intros [_ [task [Hnth _]]]. destruct i; discriminate. }
  pose proof (rule_iff clients (w :: ws) (t :: ts) 19 _ _
                (skillCoverageRow (collectSkills (w :: ws))) (t :: ts)
                (reportedAt "uncoveredSkills" i)
                (fun task => exists required skill,
                     get task "RequiredSkills" = Some (Arr required)
                     /\ In skill required /\ covered (w :: ws) skill = false)
                i H200 eq_refl eq_refl (skillCoverageRow_appends _) eq_refl) as Hiff.
  rewrite Hiff.
  - split; [intros H; split; [discriminate|exact H]|intros [_ H]; exact H].
  - intros e. apply reportedAt_call with (k := 19%nat); reflexivity.
  - intros r g e Hg Hin _.
    destruct (skillCoverageRow_reported _ r i g e Hg Hin) as [required [skill [H1 [H2 H3]]]].
    rewrite collectSkills_covered in H3. eauto.
  - intros r g Hg [required [skill [H1 [H2 H3]]]].
    rewrite <- collectSkills_covered in H3.
    apply (skillCoverageRow_reports _ r i g required skill Hg H1 H2 H3).
Qed.

(** Witness for X5: a welder and a task that requires painting. *)
Lemma uncovered_skills_warned_witness :
  exists e, In e (validate (rt := exampleRuntime) [] [busyWorker] [paintingTask])
            /\ reportedAt "uncoveredSkills" 0 e.
Proof.
  apply (proj2 (uncovered_skills_warned (rt := exampleRuntime) [] [busyWorker]
                  [paintingTask] 0 eq_refl)).
  split; [discriminate|].
  exists paintingTask. split; [reflexivity|].
  exists [Str "painting"], (Str "painting"). repeat split. left. reflexivity.
Defined.

(** X6: in a completed pass, the list holds an unknownReferences error at
    row [i] exactly when there is a task at all and client [i] has an array
    in [RequestedTaskIDs] one element of which is the truthy [TaskID] of no
    task.  A reference that names a task is never reported; with no task,
    no reference is. *)
Theorem unknown_references_reported {rt : Runtime} (clients workers tasks : list row)
    (i : nat) :
  status (POST clients workers tasks) = 200 ->
  ((exists e, In e (validate clients workers tasks) /\ reportedAt "unknownReferences" i e)
   <-> tasks <> []
       /\ exists client, nth_error clients i = Some client
            /\ exists requested ref,
                 get client "RequestedTaskIDs" = Some (Arr requested)
                 /\ In ref requested /\ knownTask tasks ref = false).
Proof.
  intros H200.
  destruct tasks as [|t ts].
  { split.
    - intros [e [Hin [Hty Hrow]]].
      destruct (reportedAt_call clients workers [] "unknownReferences" i 17 _ e
                  eq_refl eq_refl eq_refl Hin (conj Hty Hrow)) as [Hfrom _].
      destruct (validate_call _ _ _ 17 _ _ H200 eq_refl eq_refl) as [G [HG Hfilter]].
      assert (HG' : G = [])
        by (destruct clients; simpl in HG; injection HG as <-; reflexivity).
      rewrite HG' in Hfilter.
      assert (HinG : In e []) by (rewrite <- Hfilter; apply filter_In; auto).
      destruct HinG.
    - intros [H _]. congruence. }
  destruct clients as [|c cs].
  { split.
    - intros [e [Hin [Hty Hrow]]].
      destruct (reportedAt_call [] workers (t :: ts) "unknownReferences" i 17 _ e
                  eq_refl eq_refl eq_refl Hin (conj Hty Hrow)) as [Hfrom _].
      destruct (validate_call _ _ _ 17 _ _ H200 eq_refl eq_refl) as [G [HG Hfilter]].
      simpl in HG. injection HG as <-.
      assert (HinG : In e []) by (rewrite <- Hfilter; apply filter_In; auto).
      destruct HinG.
    - intros [_ [client [Hnth _]]]. destruct i; discriminate. }
  pose proof (rule_iff (c :: cs) workers (t :: ts) 17 _ _
                (taskReferencesRow (setOf (map (fun task => get task "TaskID") (t :: ts))))
                (c :: cs)
                (reportedAt "unknownReferences" i)
                (fun client => exists requested ref,
                     get client "RequestedTaskIDs" = Some (Arr requested)
                     /\ In ref requested /\ knownTask (t :: ts) ref = false)
                i H200 eq_refl eq_refl (taskReferencesRow_appends _) eq_refl) as Hiff.
  rewrite Hiff.
  - split; [intros H; split; [discriminate|exact H]|intros [_ H]; exact H].
  - intros e. apply reportedAt_call with (k := 17%nat); reflexivity.
  - intros r g e Hg Hin _.
    destruct (taskReferencesRow_reported _ r i g e Hg Hin) as [requested [ref [H1 [H2 H3]]]].
    rewrite setOf_knownTask in H3. eauto.
  - intros r g Hg [requested [ref [H1 [H2 H3]]]].
    rewrite <- setOf_knownTask in H3.
    apply (taskReferencesRow_reports _ r i g requested ref Hg H1 H2 H3).
Qed.

(** Witness for X6: a client that requests "T99" and the task "T1". *)
Lemma unknown_references_reported_witness :
  exists e, In e (validate (rt := exampleRuntime) [requestingClient] []
                    [taskRow (Str "T1")])
            /\ reportedAt "unknownReferences" 0 e.
Proof.
  apply (proj2 (unknown_references_reported (rt := exampleRuntime) [requestingClient] []
                  [taskRow (Str "T1")] 0 eq_refl)).
  split; [discriminate|].
  exists requestingClient. split; [reflexivity|].
  exists [Str "T99"], (Str "T99"). repeat split. left. reflexivity.
Defined.

(** X7: in a completed pass, the list holds an outOfRange error at row [i]
    exactly when client [i] has a [PriorityLevel] that is neither undefined
    nor null and whose [Number(...)] is NaN, below 1 or above 5. *)
Theorem priority_out_of_range_reported {rt : Runtime} (clients workers tasks : list row)
    (i : nat) :
  status (POST clients workers tasks) = 200 ->
  ((exists e, In e (validate clients workers tasks) /\ reportedAt "outOfRange" i e)
   <-> exists client, nth_error clients i = Some client
         /\ exists v n, get client "PriorityLevel" = Some v /\ v <> Null
                        /\ ToNumber v = inr n
                        /\ isNaN n || lt n (Finite 1%Q) || lt (Finite 5%Q) n = true).
Proof.
  intros H200.
  apply (rule_iff clients workers tasks 10 _ _
           (rangeRow "clients" "PriorityLevel" (Finite 1%Q) (Finite 5%Q)) clients
           (reportedAt "outOfRange" i) _ i H200 eq_refl eq_refl (rangeRow_appends _ _ _ _)).
  - destruct clients; reflexivity.
  - intros e. apply reportedAt_call with (k := 10%nat); reflexivity.
  - intros r g e Hg Hin _. apply (rangeRow_reported _ _ _ _ r i g e Hg Hin).
  - intros r g Hg [v [n [H1 [H2 [H3 H4]]]]].
    destruct (rangeRow_reports _ _ _ _ r i g v n Hg H1 H2 H3 H4) as [e [He [Hty [_ [_ Hrow]]]]].
    exists e. split; [exact He|]. split; assumption.
Qed.

(** Witness for X7: a client of priority nine. *)
Lemma priority_out_of_range_reported_witness :
  exists e, In e (validate (rt := exampleRuntime) [urgentClient] [] [])
            /\ reportedAt "outOfRange" 0 e.
Proof.
  apply (proj2 (priority_out_of_range_reported (rt := exampleRuntime) [urgentClient] [] [] 0
                  eq_refl)).
  exists urgentClient. split; [reflexivity|].
  exists (Num (Finite 9%Q)), (Finite 9%Q). repeat split. discriminate.
Defined.

(** X8: for each of the three minimum checks of [POST] (the tasks'
    [Duration] and [MaxConcurrent], the workers' [MaxLoadPerPhase]), in a
    completed pass the list holds a belowMinimum error for that column at
    row [i] exactly when the cell of row [i] is neither undefined nor null
    and its [Number(...)] is NaN or below 1. *)
Theorem below_minimum_reported {rt : Runtime} (clients workers tasks : list row)
    (en : Entity) (f : string) (i : nat) :
  In (en, f) minimumCalls ->
  status (POST clients workers tasks) = 200 ->
  ((exists e, In e (validate clients workers tasks) /\ reportedFor "belowMinimum" en f i e)
   <-> exists r, nth_error (collection en clients workers tasks) i = Some r
         /\ exists v n, get r f = Some v /\ v <> Null /\ ToNumber v = inr n
                        /\ isNaN n || lt n (Finite 1%Q) = true).
Proof.
  intros Hcall H200.
  assert (Hk : exists k,
             nth_error (catalog clients workers tasks) k
             = Some (validateMinValue (collection en clients workers tasks)
                       (entityName en) f (Finite 1%Q))
             /\ nth_error signatures k
                = Some {| types := ["belowMinimum"]; entity := entityName en;
                          column := Some f |}).
  { unfold minimumCalls in Hcall. simpl in Hcall.
    destruct Hcall as [H|[H|[H|[]]]]; injection H as <- <-;
      [exists 11%nat|exists 12%nat|exists 13%nat]; split; reflexivity. }
  destruct Hk as [k [Hcat Hsg]].
  apply (rule_iff clients workers tasks k _ _
           (minValueRow (entityName en) f (Finite 1%Q)) (collection en clients workers tasks)
           (reportedFor "belowMinimum" en f i) _ i H200 Hcat Hsg (minValueRow_appends _ _ _)).
  - destruct (collection en clients workers tasks); reflexivity.
  - intros e _. apply reportedFor_call; simpl; auto.
  - intros r g e Hg Hin _. apply (minValueRow_reported _ _ _ r i g e Hg Hin).
  - intros r g Hg [v [n [H1 [H2 [H3 H4]]]]].
    apply (minValueRow_reports _ _ _ r i g v n Hg H1 H2 H3 H4).
Qed.

(** Witness for X8: a task of duration zero. *)
Lemma below_minimum_reported_witness :
  exists e, In e (validate (rt := exampleRuntime) [] [] [paintingTask])
            /\ reportedFor "belowMinimum" Tasks "Duration" 0 e.
Proof.
  apply (proj2 (below_minimum_reported (rt := exampleRuntime) [] [] [paintingTask]
                  Tasks "Duration" 0 (or_introl eq_refl) eq_refl)).
  exists paintingTask. split; [reflexivity|].
  exists (Num (Finite 0%Q)), (Finite 0%Q). repeat split. discriminate.
Defined.

(** X9: for each of the four array checks of [POST], in a completed pass
    the list holds a malformedArray error for that column at row [i]
    exactly when the cell is neither undefined nor null and is not an
    array, and an invalidArrayElements error exactly when the cell is an
    array with an element that is not of the expected type (for numbers:
    not a number or NaN). *)
Theorem array_fields_reported {rt : Runtime} (clients workers tasks : list row)
    (en : Entity) (f ty : string) (i : nat) :
  In (en, f, ty) arrayCalls ->
  status (POST clients workers tasks) = 200 ->
  ((exists e, In e (validate clients workers tasks) /\ reportedFor "malformedArray" en f i e)
   <-> exists r, nth_error (collection en clients workers tasks) i = Some r
         /\ exists v, get r f = Some v /\ v <> Null /\ isArray (Some v) = false)
  /\ ((exists e, In e (validate clients workers tasks)
                 /\ reportedFor "invalidArrayElements" en f i e)
      <-> exists r, nth_error (collection en clients workers tasks) i = Some r
            /\ exists items item, get r f = Some (Arr items) /\ In item items
                                  /\ invalidElement ty item = true).
Proof.
  intros Hcall H200.
  assert (Hk : exists k,
             nth_error (catalog clients workers tasks) k
             = Some (validateArrayFields (collection en clients workers tasks)
                       (entityName en) f ty)
             /\ nth_error signatures k
                = Some {| types := ["malformedArray"; "invalidArrayElements"];
                          entity := entityName en; column := Some f |}).
  { unfold arrayCalls in Hcall. simpl in Hcall.
    destruct Hcall as [H|[H|[H|[H|[]]]]]; injection H as <- <- <-;
      [exists 6%nat|exists 7%nat|exists 8%nat|exists 9%nat]; split; reflexivity. }
  destruct Hk as [k [Hcat Hsg]].
  split.
  - apply (rule_iff clients workers tasks k _ _
             (arrayFieldsRow (entityName en) f ty) (collection en clients workers tasks)
             (reportedFor "malformedArray" en f i) _ i H200 Hcat Hsg
             (arrayFieldsRow_appends _ _ _)).
    + destruct (collection en clients workers tasks); reflexivity.
    + intros e _. apply reportedFor_call; simpl; auto.
    + intros r g e Hg Hin [Hty _]. apply (arrayFieldsRow_malformed _ _ _ r i g e Hg Hin Hty).
    + intros r g Hg [v [H1 [H2 H3]]].
      apply (arrayFieldsRow_reports_malformed _ _ _ r i g v Hg H1 H2 H3).
  - apply (rule_iff clients workers tasks k _ _
             (arrayFieldsRow (entityName en) f ty) (collection en clients workers tasks)
             (reportedFor "invalidArrayElements" en f i) _ i H200 Hcat Hsg
             (arrayFieldsRow_appends _ _ _)).
    + destruct (collection en clients workers tasks); reflexivity.
    + intros e _. apply reportedFor_call; simpl; auto.
    + intros r g e Hg Hin [Hty _]. apply (arrayFieldsRow_invalid _ _ _ r i g e Hg Hin Hty).
    + intros r g Hg [items [item [H1 [H2 H3]]]].
      apply (arrayFieldsRow_reports_invalid _ _ _ r i g items item Hg H1 H2 H3).
Qed.

(** Witness for X9: a task whose preferred phases are the string "1-3". *)
Lemma array_fields_reported_witness :
  exists e, In e (validate (rt := exampleRuntime) [] [] [paintingTask])
            /\ reportedFor "malformedArray" Tasks "PreferredPhases" 0 e.
Proof.
  apply (proj2 (proj1 (array_fields_reported (rt := exampleRuntime) [] [] [paintingTask]
                         Tasks "PreferredPhases" "number" 0
                         (or_intror (or_intror (or_intror (or_introl eq_refl)))) eq_refl))).
  exists paintingTask. split; [reflexivity|].
  exists (Str "1-3"). repeat split. discriminate.
Defined.

(** X10: in a completed pass, the list holds an invalidJSON error for the
    [AttributesJSON] column of an entity at row [i] exactly when the cell
    of row [i] is a non-empty string that [JSON.parse] rejects.  A cell
    that is not a string (an object, a number) is never reported. *)
Theorem invalid_json_reported {rt : Runtime} (clients workers tasks : list row)
    (en : Entity) (i : nat) :
  status (POST clients workers tasks) = 200 ->
  ((exists e, In e (validate clients workers tasks)
              /\ reportedFor "invalidJSON" en "AttributesJSON" i e)
   <-> exists r, nth_error (collection en clients workers tasks) i = Some r
         /\ exists s, get r "AttributesJSON" = Some (Str s) /\ s <> ""
                      /\ JSON_parses s = false).
Proof.
  intros H200.
  assert (Hk : exists k,
             nth_error (catalog clients workers tasks) k
             = Some (validateJSON (collection en clients workers tasks)
                       (entityName en) "AttributesJSON")
             /\ nth_error signatures k
                = Some {| types := ["invalidJSON"]; entity := entityName en;
                          column := Some "AttributesJSON" |}).
  { destruct en; [exists 14%nat|exists 15%nat|exists 16%nat]; split; reflexivity. }
  destruct Hk as [k [Hcat Hsg]].
  apply (rule_iff clients workers tasks k _ _
           (jsonRow (entityName en) "AttributesJSON") (collection en clients workers tasks)
           (reportedFor "invalidJSON" en "AttributesJSON" i) _ i H200 Hcat Hsg
           (jsonRow_appends _ _)).
  - destruct (collection en clients workers tasks); reflexivity.
  - intros e _. apply reportedFor_call; simpl; auto.
  - intros r g e Hg Hin _. apply (jsonRow_reported _ _ r i g e Hg Hin).
  - intros r g Hg [s [H1 [H2 H3]]].
    apply (jsonRow_reports _ _ r i g s Hg H1 H2 H3).
Qed.

(** Witness for X10: a task whose attributes are the string "{". *)
Lemma invalid_json_reported_witness :
  exists e, In e (validate (rt := exampleRuntime) [] [] [paintingTask])
            /\ reportedFor "invalidJSON" Tasks "AttributesJSON" 0 e.
Proof.
  apply (proj2 (invalid_json_reported (rt := exampleRuntime) [] [] [paintingTask]
                  Tasks 0 eq_refl)).
  exists paintingTask. split; [reflexivity|].
  exists "{". repeat split. discriminate.
Defined.

(* ================================================================= *)
(** ** The loops, whatever the backend answers *)

Section LoopFacts.
Import Mediator.

Variables T J : Type.
Variable JSON_parse : Cleaning.ustring -> Error + J.
Variable schema_parse : J -> Error + T.
Variable generate : nat -> Error + Cleaning.ustring.
Variable random : nat -> Q.

Lemma ollama_loop_step attempt rest lastError w :
  ollama_loop T J JSON_parse schema_parse generate (attempt :: rest) lastError w
  = match ollamaAttempt JSON_parse schema_parse generate (calls w) with
    | inr v => (Returned v, called w)
    | inl e =>
        ollama_loop T J JSON_parse schema_parse generate rest (Some e)
          (if (attempt <? ollama_maxAttempts)%nat then sleep 1000%Q (called w) else called w)
    end.
Proof.
  cbn [ollama_loop]. unfold ollamaAttempt, ollama_attempt, callBackend. cbn [fst calls].
  destruct (generate (calls w)) as [e|text]; [reflexivity|].
  destruct (parseAndValidate T J JSON_parse schema_parse (Cleaning.clean text)); reflexivity.
Qed.

(** The ollama loop from any state of the world: [n] calls, one second
    between two attempts and none after the last, the first success
    returned, the error of the third failure thrown. *)
Lemma ollama_run w :
  exists n r w',
    ollama_generateStructuredOutput T J JSON_parse schema_parse generate w = (r, w')
    /\ (1 <= n <= 3)%nat
    /\ calls w' = (calls w + n)%nat
    /\ draws w' = draws w
    /\ sleeps w' = sleeps w ++ repeat 1000%Q (n - 1)
    /\ (forall j, (j < n - 1)%nat -> exists e, ollamaAttempt JSON_parse schema_parse generate (calls w + j) = inl e)
    /\ match r with
       | Returned v => ollamaAttempt JSON_parse schema_parse generate (calls w + (n - 1)) = inr v
       | Thrown e => n = 3%nat /\ ollamaAttempt JSON_parse schema_parse generate (calls w + 2) = inl e
       end.
Proof.
  unfold ollama_generateStructuredOutput. cbn [seq ollama_maxAttempts].
  rewrite ollama_loop_step.
  destruct (ollamaAttempt JSON_parse schema_parse generate (calls w)) as [e0|v0] eqn:E0.
  2:{ exists 1%nat. eexists _, _. split; [reflexivity|]. cbn [calls draws sleeps called].
      split; [lia|]. split; [lia|]. split; [reflexivity|].
      split; [rewrite app_nil_r; reflexivity|].
      split; [intros j Hj; lia|].
      rewrite Nat.add_0_r. exact E0. }
  change (1 <? ollama_maxAttempts)%nat with true. cbn iota.
  rewrite ollama_loop_step. cbn [calls sleep called].
  destruct (ollamaAttempt JSON_parse schema_parse generate (S (calls w))) as [e1|v1] eqn:E1.
  2:{ exists 2%nat. eexists _, _. split; [reflexivity|].
      cbn [calls draws sleeps sleep called].
      split; [lia|]. split; [lia|]. split; [reflexivity|]. split; [reflexivity|].
      split.
      - intros j Hj. assert (j = 0%nat) by lia. subst j. rewrite Nat.add_0_r. eauto.
      - replace (calls w + (2 - 1))%nat with (S (calls w)) by lia. exact E1. }
  change (2 <? ollama_maxAttempts)%nat with true. cbn iota.
  rewrite ollama_loop_step. cbn [calls sleep called].
  assert (Hprev : forall j, (j < 3 - 1)%nat ->
                    exists e, ollamaAttempt JSON_parse schema_parse generate (calls w + j)
                              = inl e).
  { intros j Hj. destruct j as [|[|j]]; [| |lia].
    - rewrite Nat.add_0_r. eauto.
    - replace (calls w + 1)%nat with (S (calls w)) by lia. eauto. }
  destruct (ollamaAttempt JSON_parse schema_parse generate (S (S (calls w))))
    as [e2|v2] eqn:E2.
  - exists 3%nat. eexists _, _. split; [reflexivity|].
    cbn [calls draws sleeps sleep called ollama_loop Nat.ltb Nat.leb ollama_maxAttempts].
    split; [lia|]. split; [lia|]. split; [reflexivity|].
    split; [rewrite <- app_assoc; reflexivity|].
    split; [exact Hprev|]. split; [reflexivity|].
    replace (calls w + 2)%nat with (S (S (calls w))) by lia. exact E2.
  - exists 3%nat. eexists _, _. split; [reflexivity|].
    cbn [calls draws sleeps sleep called].
    split; [lia|]. split; [lia|]. split; [reflexivity|].
    split; [rewrite <- app_assoc; reflexivity|].
    split; [exact Hprev|].
    replace (calls w + (3 - 1))%nat with (S (S (calls w))) by lia. exact E2.
Qed.

(** For the retry counts the loop reaches, the delay before jitter. *)
Lemma nominalDelay_reached n :
  (1 <= n <= 5)%nat -> (2000 <= nominalDelay n)%Q /\ (nominalDelay n <= 32000)%Q.
Proof.
  intros Hn.
  assert (H : n = 1%nat \/ n = 2%nat \/ n = 3%nat \/ n = 4%nat \/ n = 5%nat) by lia.
  destruct H as [->|[->|[->|[->| ->]]]]; split; vm_compute; discriminate.
Qed.

Lemma gemini_loop_step fuel rc lastError w :
  (rc < maxRetries)%nat ->
  gemini_loop T J JSON_parse schema_parse generate random (S fuel) rc lastError w
  = match geminiAttempt JSON_parse schema_parse generate (calls w) with
    | inr v => Some (Returned v, called w)
    | inl e =>
        if isRateLimit e then
          gemini_loop T J JSON_parse schema_parse generate random fuel (S rc) (Some e)
            (sleep (expBackoff (S rc) (random (draws w))) (drawn (called w)))
        else Some (Thrown e, called w)
    end.
Proof.
  intros Hrc. cbn [gemini_loop].
  assert (Hlt : (rc <? maxRetries)%nat = true) by (apply Nat.ltb_lt; lia).
  rewrite Hlt. unfold geminiAttempt, gemini_attempt, callBackend, Math_random.
  cbn [fst calls].
  destruct (generate (calls w)) as [e|text]; [reflexivity|].
  destruct (parseAndValidate T J JSON_parse schema_parse text); reflexivity.
Qed.

(** An attempt that fails with a rate-limit error failed in the backend
    call: the error of a parse failure is no rate-limit error. *)
Lemma geminiAttempt_rate_limited n e :
  geminiAttempt JSON_parse schema_parse generate n = inl e -> isRateLimit e = true ->
  generate n = inl e.
Proof.
  unfold geminiAttempt, gemini_attempt, callBackend. cbn [fst calls].
  destruct (generate n) as [e'|text]; [congruence|].
  destruct (parseAndValidate T J JSON_parse schema_parse text); [|discriminate].
  intros H. injection H as <-. discriminate.
Qed.

(** The gemini loop with [d] retries left, from any state. *)
Lemma gemini_run d :
  forall rc fuel lastError w,
    (rc + d = maxRetries)%nat -> (d <= fuel)%nat ->
    exists k r w',
      gemini_loop T J JSON_parse schema_parse generate random fuel rc lastError w
      = Some (r, w')
      /\ (k <= d)%nat
      /\ (forall j, (j < k)%nat ->
            exists e, generate (calls w + j) = inl e /\ isRateLimit e = true)
      /\ draws w' = (draws w + k)%nat
      /\ sleeps w'
         = sleeps w ++ map (fun j => expBackoff (rc + 1 + j) (random (draws w + j))) (seq 0 k)
      /\ ((k < d)%nat /\ calls w' = (calls w + k + 1)%nat
          /\ match r with
             | Returned v =>
                 geminiAttempt JSON_parse schema_parse generate (calls w + k) = inr v
             | Thrown e =>
                 geminiAttempt JSON_parse schema_parse generate (calls w + k) = inl e
                 /\ isRateLimit e = false
             end
          \/ k = d /\ calls w' = (calls w + k)%nat
             /\ exists e, r = Thrown e
                  /\ match k with
                     | O => e = match lastError with
                                | Some e' => e'
                                | None => newError "Failed after maximum retry attempts"
                                end
                     | S k' => generate (calls w + k') = inl e
                     end).
Proof.
  induction d as [|d IH]; intros rc fuel lastError w Hrc Hfuel.
  - exists 0%nat. assert (rc = maxRetries) by lia. subst rc.
    eexists _, w. split.
    { destruct fuel; reflexivity. }
    split; [lia|]. split; [intros j Hj; lia|]. split; [lia|].
    split; [rewrite app_nil_r; reflexivity|].
    right. split; [reflexivity|]. split; [lia|]. eexists. split; reflexivity.
  - destruct fuel as [|fuel]; [lia|].
    rewrite gemini_loop_step by lia.
    destruct (geminiAttempt JSON_parse schema_parse generate (calls w)) as [e|v] eqn:E.
    + destruct (isRateLimit e) eqn:Hrl.
      * pose proof (geminiAttempt_rate_limited _ _ E Hrl) as Hgen.
        destruct (IH (S rc) fuel (Some e)
                    (sleep (expBackoff (S rc) (random (draws w))) (drawn (called w))))
          as [k [r [w' [Hrun [Hk [Hlim [Hdraws [Hsleeps Hend]]]]]]]]; [lia|lia|].
        cbn [calls draws sleeps sleep drawn called] in Hlim, Hdraws, Hsleeps, Hend.
        exists (S k), r, w'. split; [exact Hrun|]. split; [lia|].
        split.
        { intros j Hj. destruct j as [|j].
          - rewrite Nat.add_0_r. eauto.
          - destruct (Hlim j) as [e' He']; [lia|]. exists e'.
            replace (calls w + S j)%nat with (S (calls w) + j)%nat by lia. exact He'. }
        split; [lia|]. split.
        { rewrite Hsleeps, <- app_assoc. cbn [seq map app]. rewrite !Nat.add_0_r.
          do 2 f_equal; [f_equal; lia|].
          rewrite <- seq_shift, map_map. apply map_ext. intros j.
          f_equal; [lia|f_equal; lia]. }
        destruct Hend as [[Hlt [Hcalls Hr]]|[Heq [Hcalls [e' [Hr He']]]]].
        -- left. split; [lia|]. split; [lia|].
           replace (calls w + S k)%nat with (S (calls w) + k)%nat by lia. exact Hr.
        -- right. split; [lia|]. split; [lia|]. exists e'. split; [exact Hr|].
           destruct k as [|k].
           ++ rewrite Nat.add_0_r. rewrite He'. exact Hgen.
           ++ replace (calls w + S k)%nat with (S (calls w) + k)%nat by lia. exact He'.
      * exists 0%nat. eexists _, _. split; [reflexivity|]. cbn [calls draws sleeps called].
        split; [lia|]. split; [intros j Hj; lia|]. split; [lia|].
        split; [rewrite app_nil_r; reflexivity|].
        left. split; [lia|]. split; [lia|]. rewrite Nat.add_0_r. auto.
    + exists 0%nat. eexists _, _. split; [reflexivity|]. cbn [calls draws sleeps called].
      split; [lia|]. split; [intros j Hj; lia|]. split; [lia|].
      split; [rewrite app_nil_r; reflexivity|].
      left. split; [lia|]. split; [lia|]. rewrite Nat.add_0_r. exact E.
Qed.

(** X11: the ollama path, whatever the backend answers: it makes [n] calls,
    between one and three, draws no random number, sleeps one second
    between two attempts and not after the last; attempts before the last
    failed; a returned value is the value of the last attempt made, and an
    error is thrown only after three failures and is the error of the
    third, never the fallback error of the last line. *)
Theorem ollama_attempts_and_delays :
  exists n r w,
    generateStructuredOutput T J JSON_parse schema_parse generate random ollama start
    = Some (r, w)
    /\ (1 <= n <= 3)%nat
    /\ calls w = n /\ draws w = 0%nat /\ sleeps w = repeat 1000%Q (n - 1)
    /\ (forall j, (j < n - 1)%nat ->
          exists e, ollamaAttempt JSON_parse schema_parse generate j = inl e)
    /\ match r with
       | Returned v => ollamaAttempt JSON_parse schema_parse generate (n - 1) = inr v
       | Thrown e => n = 3%nat /\ ollamaAttempt JSON_parse schema_parse generate 2 = inl e
       end.
Proof.
  destruct (ollama_run start) as [n [r [w [Hrun H]]]].
  exists n, r, w. cbn [generateStructuredOutput]. rewrite Hrun.
  split; [reflexivity|]. exact H.
Qed.

(** X12: the gemini path, whatever the backend answers and whatever the
    random numbers: the run ends.  With [k] the number of rate-limited
    calls it starts with (at most five), it draws [k] random numbers and
    sleeps [k] backoff delays.  When [k < 5] it makes [k + 1] calls and
    returns the value of the last, or throws its error, which is no
    rate-limit error (a response that does not parse counts as such an
    error and is never retried); when [k = 5] it makes five calls, sleeps
    after the fifth too, and throws the fifth error.  The fallback error of
    the last line is never thrown. *)
Theorem gemini_attempts_and_delays :
  exists k r w,
    generateStructuredOutput T J JSON_parse schema_parse generate random gemini start
    = Some (r, w)
    /\ (k <= 5)%nat
    /\ (forall j, (j < k)%nat -> exists e, generate j = inl e /\ isRateLimit e = true)
    /\ draws w = k
    /\ sleeps w = map (fun j => expBackoff (S j) (random j)) (seq 0 k)
    /\ ((k < 5)%nat /\ calls w = S k
        /\ match r with
           | Returned v => geminiAttempt JSON_parse schema_parse generate k = inr v
           | Thrown e =>
               geminiAttempt JSON_parse schema_parse generate k = inl e
               /\ isRateLimit e = false
           end
        \/ k = 5%nat /\ calls w = 5%nat /\ exists e, r = Thrown e /\ generate 4 = inl e).
Proof.
  destruct (gemini_run 5 0 maxRetries None start eq_refl (Nat.le_refl _))
    as [k [r [w [Hrun [Hk [Hlim [Hdraws [Hsleeps Hend]]]]]]]].
  exists k, r, w. split; [exact Hrun|]. split; [exact Hk|].
  split; [exact Hlim|]. split; [exact Hdraws|].
  split; [exact Hsleeps|].
  destruct Hend as [[Hlt [Hcalls Hr]]|[Heq [Hcalls [e [Hr He]]]]].
  - left. split; [exact Hlt|]. split; [cbn [calls start] in Hcalls; lia|]. exact Hr.
  - right. subst k. split; [reflexivity|]. split; [exact Hcalls|].
    exists e. split; [exact Hr|]. exact He.
Qed.

(** X13: for the retry counts the gemini loop reaches (1 to 5) and a
    random number that is a double in [0, 1), the cap of 60 s never
    applies: the delay is the double product of the base times the power
    of two and the jitter factor, between 1.6 s and 38.4 s, both reached
    (at the random number 0 of the first retry and at the largest double
    below one of the fifth); and each delay is longer than the one before,
    whatever the two random numbers. *)
Theorem backoff_stays_below_the_cap (n : nat) (rnd rnd' : Q) :
  (1 <= n <= 5)%nat ->
  (0 <= rnd)%Q -> (rnd <= belowOne)%Q -> (0 <= rnd')%Q -> (rnd' <= belowOne)%Q ->
  (expBackoff n rnd == Binary64.mul (nominalDelay n) (jitter rnd))%Q
  /\ (1600 <= expBackoff n rnd)%Q /\ (expBackoff n rnd <= 38400)%Q
  /\ (expBackoff 1 0 == 1600)%Q /\ (expBackoff 5 belowOne == 38400)%Q
  /\ (expBackoff n rnd < expBackoff (S n) rnd')%Q.
Proof.
  intros Hn H0 H1 H0' H1'.
  destruct (nominalDelay_reached n Hn) as [Hlo Hhi].
  destruct (expBackoff_bounds n rnd Hn H0 H1) as [Hexact [Hdlo [Hdhi Hcap]]].
  split; [exact Hexact|].
  split; [lra|]. split; [exact Hcap|].
  split; [vm_compute; reflexivity|]. split; [vm_compute; reflexivity|].
  pose proof (nominalDelay_doubles n) as Hdouble.
  assert (Hcase : (1 <= S n <= 5)%nat \/ n = 5%nat) by lia.
  destruct Hcase as [Hnext | ->].
  - destruct (expBackoff_bounds (S n) rnd' Hnext H0' H1') as [_ [Hnlo _]]. lra.
  - unfold expBackoff at 2. apply Q.min_glb_lt.
    + unfold maxDelay. lra.
    + fold (jitter rnd').
      set (c := Binary64.mul baseDelay (2 ^ Z.of_nat 6)).
      assert (Hc : (0 <= c)%Q) by (vm_compute; discriminate).
      destruct (scaled_jitter_bounds c rnd' Hc H0' H1') as [Hjlo _].
      assert (Hfloor : (51200 <= Binary64.mul c (jitter 0))%Q) by (vm_compute; discriminate).
      lra.
Qed.

(** X14: each of the five AI routes that call [generateStructuredOutput]
    with [{ provider: "ollama" }] (search, generate-corrections,
    modify-data, create-rule, suggest-rules) always answers: with status
    200 and the validated value, or with status 500 and its fallback body.
    It makes at most three backend calls and sleeps at most twice one
    second.  When the request cannot be read it answers 500 without any
    call; otherwise it answers 500 exactly when three attempts in a row
    fail, and a 200 answer carries the value of the first attempt that
    succeeds.  (The parse-data route is of another shape and is not
    covered: it names no provider, answers some requests without any call
    and works on the result inside its [try].) *)
Theorem ai_route_always_answers (prompt : Error + Cleaning.ustring) (fallback : T)
    (w : World) :
  let run := Routes.POST T J JSON_parse schema_parse generate random prompt fallback w in
  let answer := fst run in
  let w' := snd run in
  (Routes.status answer = 200%nat
   \/ Routes.status answer = 500%nat /\ Routes.body answer = fallback)
  /\ (calls w' <= calls w + 3)%nat
  /\ (exists m, (m <= 2)%nat /\ sleeps w' = sleeps w ++ repeat 1000%Q m)
  /\ match prompt with
     | inl _ => Routes.status answer = 500%nat /\ w' = w
     | inr _ =>
         (Routes.status answer = 500%nat
          <-> forall j, (j < 3)%nat ->
                exists e, ollamaAttempt JSON_parse schema_parse generate (calls w + j)
                          = inl e)
         /\ (Routes.status answer = 200%nat ->
             exists n, (n < 3)%nat
               /\ calls w' = (calls w + n + 1)%nat
               /\ ollamaAttempt JSON_parse schema_parse generate (calls w + n)
                  = inr (Routes.body answer)
               /\ forall j, (j < n)%nat ->
                    exists e, ollamaAttempt JSON_parse schema_parse generate (calls w + j)
                              = inl e)
     end.
Proof.
  cbv zeta. unfold Routes.POST.
  destruct prompt as [e|text].
  - cbn [fst snd Routes.status Routes.body].
    split; [right; split; reflexivity|]. split; [lia|].
    split; [exists 0%nat; split; [lia|rewrite app_nil_r; reflexivity]|].
    split; reflexivity.
  - cbn [generateStructuredOutput].
    destruct (ollama_run w) as [n [r [w' [Hrun [Hn [Hcalls [_ [Hsleeps [Hprev Hr]]]]]]]]].
    rewrite Hrun.
    destruct r as [v|e]; cbn [fst snd Routes.status Routes.body].
    + split; [left; reflexivity|]. split; [lia|].
      split; [exists (n - 1)%nat; split; [lia|exact Hsleeps]|].
      split.
      * split; [discriminate|]. intros Hall.
        destruct (Hall (n - 1)%nat) as [e He]; [lia|]. congruence.
      * intros _. exists (n - 1)%nat. split; [lia|]. split; [lia|].
        split; [exact Hr|exact Hprev].
    + destruct Hr as [-> He].
      split; [right; split; reflexivity|]. split; [lia|].
      split; [exists 2%nat; split; [lia|exact Hsleeps]|].
      split; [|discriminate].
      split; [|reflexivity]. intros _ j Hj.
      assert (Hcase : (j < 3 - 1)%nat \/ j = 2%nat) by lia.
      destruct Hcase as [Hlt| ->]; [apply Hprev; exact Hlt|eauto].
Qed.

End LoopFacts.
(** Witness for X13: the first retry with the random number one half. *)
Lemma backoff_stays_below_the_cap_witness :
  (Mediator.expBackoff 1 (halfRandom 0)
   == Binary64.mul (nominalDelay 1) (jitter (halfRandom 0)))%Q
  /\ (1600 <= Mediator.expBackoff 1 (halfRandom 0))%Q
  /\ (Mediator.expBackoff 1 (halfRandom 0) <= 38400)%Q
  /\ (Mediator.expBackoff 1 0 == 1600)%Q /\ (Mediator.expBackoff 5 belowOne == 38400)%Q
  /\ (Mediator.expBackoff 1 (halfRandom 0) < Mediator.expBackoff 2 (halfRandom 1))%Q.
Proof.
  apply (backoff_stays_below_the_cap 1 (halfRandom 0) (halfRandom 1)).
  - lia.
  - discriminate.
  - discriminate.
  - discriminate.
  - discriminate.
Defined.

(* ================================================================= *)
(** ** Cleaning a response that wraps an object in any text *)

Section WrappedObjectFacts.
Import Cleaning.

Lemma dropWhile_app_stop {A} (p : A -> bool) a x b :
  p x = false -> dropWhile p (a ++ x :: b) = dropWhile p a ++ x :: b.
Proof.
  intros Hx. induction a as [|y a IH]; simpl.
  - rewrite Hx. reflexivity.
  - destruct (p y); [exact IH|reflexivity].
Qed.

Lemma dropWhile_Forall {A} (p : A -> bool) (Q : A -> Prop) l :
  Forall Q l -> Forall Q (dropWhile p l).
Proof.
  induction 1 as [|x l Hx Hl IH]; simpl; [constructor|].
  destruct (p x); [exact IH|constructor; assumption].
Qed.

(** [trim] around an object text: the white space [trim] removes lies
    before the opening brace and after the closing one. *)
Lemma trim_around prefix body suffix :
  trim (prefix ++ LBRACE :: body ++ RBRACE :: suffix)
  = dropWhile isWhiteSpace prefix
    ++ LBRACE :: body ++ RBRACE :: rev (dropWhile isWhiteSpace (rev suffix)).
Proof.
  unfold trim.
  rewrite (dropWhile_app_stop isWhiteSpace prefix LBRACE) by reflexivity.
  replace (rev (dropWhile isWhiteSpace prefix ++ LBRACE :: body ++ RBRACE :: suffix))
    with (rev suffix
          ++ RBRACE :: (rev body ++ LBRACE :: rev (dropWhile isWhiteSpace prefix))).
  2:{ rewrite rev_app_distr. cbn [rev]. rewrite rev_app_distr. cbn [rev].
      list_normal. reflexivity. }
  rewrite (dropWhile_app_stop isWhiteSpace (rev suffix) RBRACE) by reflexivity.
  rewrite rev_app_distr. cbn [rev]. rewrite rev_app_distr. cbn [rev].
  rewrite !rev_involutive. list_normal. reflexivity.
Qed.

Lemma clean_no_brace s :
  Forall (fun c => (c =? LBRACE)%N = false) s ->
  Forall (fun c => (c =? RBRACE)%N = false) s ->
  fenceAtBoundary true (trim s) = false ->
  clean s = trim s.
Proof.
  intros Hl Hr Hfence. unfold clean.
  assert (Hl' : Forall (fun c => (c =? LBRACE)%N = false) (trim s)).
  { unfold trim. apply Forall_rev, dropWhile_Forall, Forall_rev, dropWhile_Forall. exact Hl. }
  assert (Hr' : Forall (fun c => (c =? RBRACE)%N = false) (trim s)).
  { unfold trim. apply Forall_rev, dropWhile_Forall, Forall_rev, dropWhile_Forall. exact Hr. }
  assert (Hindex : indexOf LBRACE (trim s) = None).
  { clear - Hl'. induction Hl' as [|x l Hx _ IH]; simpl; auto. rewrite Hx, IH. reflexivity. }
  rewrite Hindex, (lastIndexOf_none _ _ Hr').
  apply clean_unfenced. exact Hfence.
Qed.

End WrappedObjectFacts.

(** X15: whatever text surrounds it, an object text is recovered: when the
    response is a text without opening brace, then an object text (from an
    opening to a closing brace), then a text without closing brace, and no
    run of three backticks starts or ends a line of the object text,
    cleaning returns exactly the object text.  So the brackets of a
    top-level array of one object are dropped like prose.  And a response
    without any brace is only trimmed, when no fence starts or ends one of
    its lines. *)
Theorem text_around_object_is_dropped :
  (forall prefix body suffix,
     Forall (fun c => (c =? Cleaning.LBRACE)%N = false) prefix ->
     Forall (fun c => (c =? Cleaning.RBRACE)%N = false) suffix ->
     let object := Cleaning.LBRACE :: body ++ [Cleaning.RBRACE] in
     fenceAtBoundary true object = false ->
     Cleaning.clean (prefix ++ object ++ suffix) = object)
  /\ (forall s,
        Forall (fun c => (c =? Cleaning.LBRACE)%N = false) s ->
        Forall (fun c => (c =? Cleaning.RBRACE)%N = false) s ->
        fenceAtBoundary true (Cleaning.trim s) = false ->
        Cleaning.clean s = Cleaning.trim s).
Proof.
  split; [|exact clean_no_brace].
  intros prefix body suffix Hprefix Hsuffix object Hfence.
  unfold Cleaning.clean.
  replace (prefix ++ object ++ suffix)
    with (prefix ++ Cleaning.LBRACE :: body ++ Cleaning.RBRACE :: suffix)
    by (unfold object; list_normal; reflexivity).
  rewrite trim_around.
  set (prefix' := Cleaning.dropWhile Cleaning.isWhiteSpace prefix).
  set (suffix' := rev (Cleaning.dropWhile Cleaning.isWhiteSpace (rev suffix))).
  assert (Hprefix' : Forall (fun c => (c =? Cleaning.LBRACE)%N = false) prefix')
    by (apply dropWhile_Forall; exact Hprefix).
  assert (Hsuffix' : Forall (fun c => (c =? Cleaning.RBRACE)%N = false) suffix')
    by (apply Forall_rev, dropWhile_Forall, Forall_rev; exact Hsuffix).
  (* the last brace and the fences *)
  assert (Hrest :
            Cleaning.replaceAll Cleaning.lineEndFence
              (Cleaning.replaceAll (Cleaning.lineStartMarker (Cleaning.u "```"))
                 (Cleaning.replaceAll (Cleaning.lineStartMarker (Cleaning.u "```json"))
                    match
                      Cleaning.lastIndexOf Cleaning.RBRACE
                        (Cleaning.LBRACE :: body ++ Cleaning.RBRACE :: suffix')
                    with
                    | Some lastBrace =>
                        firstn (lastBrace + 1)
                          (Cleaning.LBRACE :: body ++ Cleaning.RBRACE :: suffix')
                    | None => Cleaning.LBRACE :: body ++ Cleaning.RBRACE :: suffix'
                    end))
            = object).
  { change (Cleaning.LBRACE :: body ++ Cleaning.RBRACE :: suffix')
      with ((Cleaning.LBRACE :: body) ++ Cleaning.RBRACE :: suffix').
    rewrite (lastIndexOf_last _ _ _ Hsuffix').
    rewrite firstn_app_succ.
    apply clean_unfenced. exact Hfence. }
  (* the first brace *)
  rewrite (indexOf_first _ _ _ Hprefix').
  destruct (List.length prefix') as [|n] eqn:Elen.
  - apply length_zero_iff_nil in Elen. rewrite Elen. exact Hrest.
  - rewrite <- Elen, skipn_length_app. exact Hrest.
Qed.

(** Witness for X15: the array of the object [{"a":1}], after a sentence. *)
Lemma text_around_object_is_dropped_witness :
  Cleaning.clean (Cleaning.u "Here is the list: [" ++ objectA1 ++ Cleaning.u "]") = objectA1.
Proof.
  apply (proj1 text_around_object_is_dropped
           (Cleaning.u "Here is the list: [") [34; 97; 34; 58; 49]%N (Cleaning.u "]")).
  - repeat constructor.
  - repeat constructor.
  - reflexivity.
Defined.

(* ================================================================= *)
(** ** The components that read the error list *)

Section PanelFacts.
Context {rt : Runtime}.

Lemma entityName_injective en en' : entityName en = entityName en' -> en = en'.
Proof. destruct en, en'; intros H; try discriminate H; reflexivity. Qed.

Lemma POST_ok clients workers tasks :
  Panels.ok (POST clients workers tasks)
  = (status (POST clients workers tasks) =? 200)%nat.
Proof.
  unfold Panels.ok.
  destruct (POST_status clients workers tasks) as [[-> _]|[-> _]]; reflexivity.
Qed.

Lemma validate_advisory clients workers tasks e :
  In e (validate clients workers tasks) ->
  (Panels.isError e = false <-> isAdvisory e).
Proof.
  intros He.
  destruct (validate_reported _ _ _ _ He) as [sg [Hsg [Hhas [_ Hsev]]]].
  pose proof (signature_types sg e Hsg Hhas) as Hty.
  unfold Panels.isError, isAdvisory. rewrite Hsev.
  unfold errorTypes in Hty. simpl in Hty.
  repeat (destruct Hty as [<-|Hty];
          [unfold severityOf; simpl; split;
           [intros H; try discriminate H; auto
           |intros [H|H]; try discriminate H; reflexivity]|]).
  destruct Hty.
Qed.

Lemma filter_length_zero {A} (f : A -> bool) l :
  List.length (filter f l) = 0%nat <-> Forall (fun x => f x = false) l.
Proof.
  induction l as [|x l IH]; simpl.
  - split; [constructor|reflexivity].
  - destruct (f x) eqn:E; simpl.
    + split; [discriminate|]. intros H. inversion H; subst. congruence.
    + rewrite IH. split; [intros H; constructor; assumption|].
      intros H. inversion H; subst. assumption.
Qed.

Lemma filter_partition_length {A} (f g : A -> bool) l :
  (forall x, In x l -> g x = negb (f x)) ->
  (List.length (filter f l) + List.length (filter g l) = List.length l)%nat.
Proof.
  induction l as [|x l IH]; intros H; [reflexivity|].
  simpl. rewrite (H x (or_introl eq_refl)).
  assert (IH' := IH (fun y Hy => H y (or_intror Hy))).
  destruct (f x); simpl; lia.
Qed.

(* ----------------------------------------------------------------- *)
(** *** The panel's groups *)

Lemma own_pushTo acc key e ty :
  Panels.own (Panels.pushTo acc key e) ty
  = if key =? ty then
      match Panels.own acc ty with
      | Some group => Some (group ++ [e])
      | None => None
      end
    else Panels.own acc ty.
Proof.
  induction acc as [|[k group] acc IH]; simpl.
  - destruct (key =? ty); reflexivity.
  - destruct (String.eqb_spec k key) as [->|Hk]; simpl.
    + destruct (String.eqb_spec key ty) as [->|Hty]; [reflexivity|reflexivity].
    + destruct (String.eqb_spec k ty) as [->|Hty].
      * destruct (String.eqb_spec key ty) as [->|_]; [contradiction|reflexivity].
      * exact IH.
Qed.

Lemma keys_pushTo acc key e : map fst (Panels.pushTo acc key e) = map fst acc.
Proof.
  induction acc as [|[k group] acc IH]; simpl; [reflexivity|].
  destruct (k =? key); simpl; [reflexivity|]. f_equal. exact IH.
Qed.

Lemma own_app acc key group ty :
  Panels.own (acc ++ [(key, group)]) ty
  = match Panels.own acc ty with
    | Some g => Some g
    | None => if key =? ty then Some group else None
    end.
Proof.
  induction acc as [|[k g] acc IH]; simpl; [reflexivity|].
  destruct (k =? ty); [reflexivity|exact IH].
Qed.

Lemma own_None acc key : Panels.own acc key = None -> ~ In key (map fst acc).
Proof.
  induction acc as [|[k g] acc IH]; simpl; [tauto|].
  destruct (String.eqb_spec k key) as [->|Hk]; [discriminate|].
  intros H [Heq|Hin]; [contradiction|]. exact (IH H Hin).
Qed.

Lemma ofType_app ty p e :
  ofType ty (p ++ [e]) = ofType ty p ++ (if type e =? ty then [e] else []).
Proof. unfold ofType. rewrite filter_app. reflexivity. Qed.

(** What the [reduce] keeps true of its accumulator after the errors [p]. *)
Lemma groupStep_groups acc p e :
  NoDup (map fst acc) ->
  (forall ty, Panels.own acc ty = groupOfType ty p) ->
  existsb (String.eqb (type e)) Panels.inherited = false ->
  exists acc',
    Panels.groupStep acc e = inr acc'
    /\ NoDup (map fst acc')
    /\ forall ty, Panels.own acc' ty = groupOfType ty (p ++ [e]).
Proof.
  intros Hkeys Hown Hplain. unfold Panels.groupStep.
  destruct (Panels.own acc (type e)) as [group|] eqn:E.
  - eexists. split; [reflexivity|]. split; [rewrite keys_pushTo; exact Hkeys|].
    intros ty. rewrite own_pushTo. unfold groupOfType. rewrite ofType_app.
    destruct (String.eqb_spec (type e) ty) as [<-|Hty].
    + rewrite E. rewrite Hown in E. unfold groupOfType in E.
      destruct (ofType (type e) p) as [|x rest]; [discriminate|].
      injection E as <-. reflexivity.
    + rewrite app_nil_r. apply Hown.
  - rewrite Hplain. eexists. split; [reflexivity|]. split.
    + rewrite map_app. simpl. apply NoDup_app; [exact Hkeys|repeat constructor; tauto|].
      intros k Hk [<-|[]]. exact (own_None _ _ E Hk).
    + intros ty. rewrite own_app. unfold groupOfType. rewrite ofType_app.
      destruct (String.eqb_spec (type e) ty) as [<-|Hty].
      * rewrite E. rewrite Hown in E. unfold groupOfType in E.
        destruct (ofType (type e) p) as [|x rest]; [reflexivity|discriminate].
      * rewrite app_nil_r. rewrite Hown. unfold groupOfType.
        destruct (ofType ty p); reflexivity.
Qed.

Lemma reduce_groups errs :
  forall acc p,
    NoDup (map fst acc) ->
    (forall ty, Panels.own acc ty = groupOfType ty p) ->
    Forall (fun e => existsb (String.eqb (type e)) Panels.inherited = false) errs ->
    exists groups,
      Panels.reduce errs acc = inr groups
      /\ NoDup (map fst groups)
      /\ forall ty, Panels.own groups ty = groupOfType ty (p ++ errs).
Proof.
  induction errs as [|e errs IH]; intros acc p Hkeys Hown Hplain.
  - exists acc. rewrite app_nil_r. auto.
  - inversion Hplain as [|? ? He Hrest]; subst.
    destruct (groupStep_groups acc p e Hkeys Hown He) as [acc' [Hstep [Hkeys' Hown']]].
    destruct (IH acc' (p ++ [e]) Hkeys' Hown' Hrest) as [groups [Hrun [Hk Ho]]].
    exists groups. simpl. rewrite Hstep. simpl. split; [exact Hrun|].
    split; [exact Hk|]. intros ty. rewrite Ho, <- app_assoc. reflexivity.
Qed.

End PanelFacts.

(** X16: the upload component shows the list of the pass: [validateData]
    on the response of [POST] is [validate].  So after an aborted pass, as
    after a request that fails, it shows no error at all.  The editors
    (corrections and grid) replace their list only by an ok response: after
    an aborted pass they keep the list they had. *)
Theorem readers_of_the_response {rt : Runtime} (clients workers tasks : list row)
    (previous : list ValidationError) :
  Panels.validateData (Some (POST clients workers tasks)) = validate clients workers tasks
  /\ Panels.validateData None = []
  /\ Panels.revalidate previous (Some (POST clients workers tasks))
     = (if (status (POST clients workers tasks) =? 200)%nat
        then validate clients workers tasks else previous)
  /\ (status (POST clients workers tasks) = 500 ->
      Panels.validateData (Some (POST clients workers tasks)) = []
      /\ Panels.revalidate previous (Some (POST clients workers tasks)) = previous).
Proof.
  unfold Panels.validateData, Panels.revalidate. rewrite POST_ok.
  destruct (POST_status clients workers tasks) as [[H200 _]|[H500 [Hnil _]]].
  - rewrite H200. cbn [Nat.eqb]. split; [reflexivity|]. split; [reflexivity|].
    split; [reflexivity|]. intros H500. discriminate H500.
  - rewrite H500, Hnil. cbn [Nat.eqb].
    split; [reflexivity|]. split; [reflexivity|]. split; [reflexivity|].
    intros _. split; reflexivity.
Qed.

(** X17: the export button is enabled for the list of a pass exactly when
    every finding is an overloadedWorker or uncoveredSkills warning; the
    eight other types of finding each disable it.  After an aborted pass
    the upload component's list is empty, so export is enabled although
    nothing was validated. *)
Theorem export_blocked_by_errors_only {rt : Runtime} (clients workers tasks : list row) :
  (Panels.canExport (validate clients workers tasks) = true
   <-> Forall isAdvisory (validate clients workers tasks))
  /\ (status (POST clients workers tasks) = 500 ->
      Panels.canExport (Panels.validateData (Some (POST clients workers tasks))) = true).
Proof.
  split.
  - unfold Panels.canExport, Panels.errorCount.
    rewrite Nat.eqb_eq, filter_length_zero, !Forall_forall.
    split; intros H e He; apply (validate_advisory _ _ _ e He); auto.
  - intros H500.
    destruct (POST_status clients workers tasks) as [[H200 _]|[_ [Hnil _]]];
      [rewrite H200 in H500; discriminate|].
    unfold Panels.validateData. rewrite POST_ok, H500. reflexivity.
Qed.

(** X18: the badges add up: for the list of a pass, the error count and
    the warning count of the panels sum to the length of the list, and so
    do the three per-entity counts of the grid. *)
Theorem badges_add_up {rt : Runtime} (clients workers tasks : list row) :
  let found := validate clients workers tasks in
  (Panels.errorCount found + Panels.warningCount found = List.length found)%nat
  /\ (Panels.entityErrors found "clients" + Panels.entityErrors found "workers"
      + Panels.entityErrors found "tasks" = List.length found)%nat.
Proof.
  cbv zeta. split.
  - unfold Panels.errorCount, Panels.warningCount. apply filter_partition_length.
    intros e _. unfold Panels.isError, Panels.isWarning. destruct (severity e); reflexivity.
  - unfold Panels.entityErrors.
    assert (H : forall e, In e (validate clients workers tasks) ->
                exists en, entityType e = entityName en)
      by (intros e He; destruct (validate_rows _ _ _ _ He) as [en [Hen _]]; eauto).
    induction (validate clients workers tasks) as [|e l IH]; [reflexivity|].
    destruct (H e (or_introl eq_refl)) as [en Hen].
    assert (IH' := IH (fun x Hx => H x (or_intror Hx))).
    simpl. rewrite Hen. destruct en; simpl; lia.
Qed.

(** X19: on the list of a pass the [reduce] of the validation panel never
    throws, and the object it builds has one own key per type that occurs,
    holding the errors of that type in the order of the list. *)
Theorem panel_groups_by_type {rt : Runtime} (clients workers tasks : list row) :
  exists groups,
    Panels.groupedErrors (validate clients workers tasks) = inr groups
    /\ NoDup (map fst groups)
    /\ forall ty, Panels.own groups ty = groupOfType ty (validate clients workers tasks).
Proof.
  unfold Panels.groupedErrors.
  destruct (reduce_groups (validate clients workers tasks) [] []) as [groups [Hrun [Hkeys Hown]]].
  - constructor.
  - intros ty. reflexivity.
  - apply Forall_forall. intros e He.
    destruct (validate_reported _ _ _ _ He) as [sg [Hsg [Hhas _]]].
    pose proof (signature_types sg e Hsg Hhas) as Hty.
    unfold errorTypes in Hty. simpl in Hty.
    repeat (destruct Hty as [<-|Hty]; [reflexivity|]). destruct Hty.
  - exists groups. split; [exact Hrun|]. split; [exact Hkeys|].
    intros ty. rewrite Hown. cbn [app]. reflexivity.
Qed.

(* ================================================================= *)
(** ** The grid and the corrections *)

Section GridFacts.
Context {rt : Runtime}.

(** The column a missingColumns error names is no key of the first row of
    its collection. *)
Lemma missingColumns_column clients workers tasks en e :
  In e (validate clients workers tasks) ->
  type e = "missingColumns" -> entityType e = entityName en ->
  ~ In (columnName e) (Panels.columns (collection en clients workers tasks)).
Proof.
  intros He Hty Hen.
  destruct (POST_status clients workers tasks) as [[H200 _]|[_ [Hnil _]]];
    [|rewrite Hnil in He; destruct He].
  destruct (validate_group clients workers tasks (isMissingColumns en) _ _ H200
              (catalog_requiredColumns clients workers tasks en)
              (isMissingColumns_signature en)) as [G [HG Hfilter]].
  assert (HinG : In e G).
  { rewrite <- Hfilter. apply filter_In. split; [exact He|].
    unfold isMissingColumns. rewrite Hty, Hen, !String.eqb_refl. reflexivity. }
  unfold validateRequiredColumns, push, ret in HG.
  destruct (collection en clients workers tasks) as [|first rest];
    [injection HG as <-; destruct HinG|].
  destruct (filter (fun col => negb (includes (keys first) col)) (requiredColumns en))
    as [|missing0 more] eqn:Emissing; injection HG as <-; [destruct HinG|].
  destruct HinG as [<-|[]]. cbn [columnName Panels.columns].
  assert (Hin : In missing0
                  (filter (fun col => negb (includes (keys first) col)) (requiredColumns en)))
    by (rewrite Emissing; left; reflexivity).
  apply filter_In in Hin. destruct Hin as [_ Hneg].
  intros Hkey. apply includes_In in Hkey. rewrite Hkey in Hneg. discriminate.
Qed.

Lemma cellErrors_In found entity entityData e :
  In e (Panels.cellErrors found entity entityData)
  <-> In e found /\ entityType e = entity
      /\ (rowIndex e < List.length entityData)%nat
      /\ In (columnName e) (Panels.columns entityData).
Proof.
  unfold Panels.cellErrors, Panels.getErrorsForCell. rewrite in_flat_map. split.
  - intros [index [Hindex Hcol]]. apply in_flat_map in Hcol.
    destruct Hcol as [column [Hcolumn Hin]]. apply filter_In in Hin.
    destruct Hin as [Hin Htest]. apply andb_true_iff in Htest.
    destruct Htest as [Htest Hc]. apply andb_true_iff in Htest. destruct Htest as [Hen Hrow].
    apply String.eqb_eq in Hen, Hc. apply Nat.eqb_eq in Hrow. apply in_seq in Hindex.
    subst. split; [exact Hin|]. split; [reflexivity|]. split; [lia|exact Hcolumn].
  - intros [Hin [Hen [Hrow Hcol]]]. exists (rowIndex e). split; [apply in_seq; lia|].
    apply in_flat_map. exists (columnName e). split; [exact Hcol|].
    apply filter_In. split; [exact Hin|].
    rewrite Hen, Nat.eqb_refl, !String.eqb_refl. reflexivity.
Qed.

End GridFacts.

(** X20: the table of an entity shows the errors of the pass for that
    entity whose column is a key of the entity's first row, and no others:
    an error for a column the first row lacks is on no cell.  In
    particular a missingColumns error, which names a column the first row
    lacks, is never shown in the grid. *)
Theorem grid_shows_first_row_columns {rt : Runtime} (clients workers tasks : list row)
    (en : Entity) :
  let found := validate clients workers tasks in
  let data := collection en clients workers tasks in
  (forall e, In e (Panels.cellErrors found (entityName en) data)
             <-> In e found /\ entityType e = entityName en
                 /\ In (columnName e) (Panels.columns data))
  /\ Forall (fun e => type e <> "missingColumns")
       (Panels.cellErrors found (entityName en) data).
Proof.
  cbv zeta. split.
  - intros e. rewrite cellErrors_In. split.
    + intros [Hin [Hen [_ Hcol]]]. auto.
    + intros [Hin [Hen Hcol]]. split; [exact Hin|]. split; [exact Hen|].
      split; [|exact Hcol].
      destruct (validate_rows _ _ _ _ Hin) as [en' [Hen' Hrow]].
      rewrite Hen in Hen'. apply entityName_injective in Hen'. subst en'. exact Hrow.
  - apply Forall_forall. intros e He Hty.
    apply cellErrors_In in He. destruct He as [Hin [Hen [_ Hcol]]].
    exact (missingColumns_column _ _ _ en e Hin Hty Hen Hcol).
Qed.

Section CorrectionFacts.
Import Corrections.

Lemma get_replaceField_same r f v :
  hasOwn r f = true -> get (replaceField r f v) f = Some v.
Proof.
  unfold hasOwn. induction r as [|[k x] r IH]; simpl; [discriminate|].
  destruct (String.eqb_spec k f) as [->|Hk]; simpl.
  - rewrite String.eqb_refl. reflexivity.
  - destruct (String.eqb_spec k f); [contradiction|exact IH].
Qed.

Lemma get_replaceField_other r f v g : g <> f -> get (replaceField r f v) g = get r g.
Proof.
  intros Hg. induction r as [|[k x] r IH]; simpl; [reflexivity|].
  destruct (String.eqb_spec k f) as [->|Hk]; simpl.
  - destruct (String.eqb_spec f g); [congruence|reflexivity].
  - destruct (String.eqb_spec k g); [reflexivity|exact IH].
Qed.

Lemma get_insertIndex_same r f n v :
  get r f = None -> get (insertIndex r f n v) f = Some v.
Proof.
  induction r as [|[k x] r IH]; simpl.
  - rewrite String.eqb_refl. reflexivity.
  - destruct (String.eqb_spec k f) as [->|Hk]; [discriminate|]. intros Hnone.
    destruct (arrayIndexOf k) as [m|]; [destruct (m <? n)%N|]; simpl;
      rewrite ?String.eqb_refl; try reflexivity.
    destruct (String.eqb_spec k f); [contradiction|]. exact (IH Hnone).
Qed.

Lemma get_insertIndex_other r f n v g :
  g <> f -> get (insertIndex r f n v) g = get r g.
Proof.
  intros Hg. induction r as [|[k x] r IH]; simpl.
  - destruct (String.eqb_spec f g); [congruence|reflexivity].
  - destruct (arrayIndexOf k) as [m|]; [destruct (m <? n)%N|]; simpl.
    + destruct (String.eqb_spec k g); [reflexivity|exact IH].
    + destruct (String.eqb_spec f g); [congruence|reflexivity].
    + destruct (String.eqb_spec f g); [congruence|reflexivity].
Qed.

Lemma get_app_same r f v : get r f = None -> get (r ++ [(f, v)]) f = Some v.
Proof.
  induction r as [|[k x] r IH]; simpl.
  - rewrite String.eqb_refl. reflexivity.
  - destruct (String.eqb_spec k f); [discriminate|exact IH].
Qed.

Lemma get_app_other r f v g : g <> f -> get (r ++ [(f, v)]) g = get r g.
Proof.
  intros Hg. induction r as [|[k x] r IH]; simpl.
  - destruct (String.eqb_spec f g); [congruence|reflexivity].
  - destruct (String.eqb_spec k g); [reflexivity|exact IH].
Qed.

(** After [row[f] = v] the row has the value under [f], unless [f] is
    [__proto__] and no own property of the row. *)
Lemma get_setField_same r f v :
  f <> "__proto__" \/ hasOwn r f = true -> get (setField r f v) f = Some v.
Proof.
  intros Hf. unfold setField. destruct (hasOwn r f) eqn:Eown.
  - apply get_replaceField_same. exact Eown.
  - destruct (String.eqb_spec f "__proto__") as [->|_].
    + destruct Hf as [Hf|Hf]; [contradiction|discriminate].
    + assert (Hnone : get r f = None)
        by (unfold hasOwn in Eown; destruct (get r f); [discriminate|reflexivity]).
      unfold defineField. destruct (arrayIndexOf f).
      * apply get_insertIndex_same. exact Hnone.
      * apply get_app_same. exact Hnone.
Qed.

Lemma get_setField_other r f v g : g <> f -> get (setField r f v) g = get r g.
Proof.
  intros Hg. unfold setField. destruct (hasOwn r f).
  - apply get_replaceField_other. exact Hg.
  - destruct (f =? "__proto__"); [reflexivity|].
    unfold defineField. destruct (arrayIndexOf f).
    + apply get_insertIndex_other. exact Hg.
    + apply get_app_other. exact Hg.
Qed.

Lemma length_setRow rows : forall i r, List.length (setRow rows i r) = List.length rows.
Proof.
  induction rows as [|x rows IH]; intros i r; [reflexivity|].
  destruct i; simpl; [reflexivity|]. f_equal. apply IH.
Qed.

Lemma nth_error_setRow_same rows :
  forall i r x, nth_error rows i = Some x -> nth_error (setRow rows i r) i = Some r.
Proof.
  induction rows as [|y rows IH]; intros i r x Hi; [destruct i; discriminate|].
  destruct i; simpl; [reflexivity|]. exact (IH i r x Hi).
Qed.

Lemma nth_error_setRow_other rows :
  forall i j r, j <> i -> nth_error (setRow rows i r) j = nth_error rows j.
Proof.
  induction rows as [|y rows IH]; intros i j r Hj; [reflexivity|].
  destruct i, j; simpl; try reflexivity; [congruence|]. apply IH. congruence.
Qed.

Lemma entityData_with data entity rows rows' entity' :
  entityData data entity = Some rows ->
  entityData (withEntityData data entity rows') entity'
  = if entity' =? entity then Some rows' else entityData data entity'.
Proof.
  unfold entityData, withEntityData. intros H.
  destruct (String.eqb_spec entity "clients") as [->|H1].
  { destruct (String.eqb_spec entity' "clients") as [->|]; [reflexivity|].
    cbn [clients workers tasks]. reflexivity. }
  destruct (String.eqb_spec entity "workers") as [->|H2].
  { destruct (String.eqb_spec entity' "workers") as [->|]; [reflexivity|].
    cbn [clients workers tasks]. reflexivity. }
  destruct (String.eqb_spec entity "tasks") as [->|H3]; [|discriminate].
  destruct (String.eqb_spec entity' "tasks") as [->|]; [reflexivity|].
  cbn [clients workers tasks]. reflexivity.
Qed.

Lemma edit_lengths data c :
  List.length (clients (edit data c)) = List.length (clients data)
  /\ List.length (workers (edit data c)) = List.length (workers data)
  /\ List.length (tasks (edit data c)) = List.length (tasks data).
Proof.
  unfold edit.
  destruct (entityData data (entityType c)) as [rows|] eqn:Erows; [|auto].
  destruct (arrayIndex (rowIndex c)) as [i|]; [|auto].
  destruct (nth_error rows i) as [r|]; [|auto].
  unfold entityData, withEntityData in *.
  destruct (entityType c =? "clients");
    [injection Erows as <-; cbn [clients workers tasks]; rewrite length_setRow; auto|].
  destruct (entityType c =? "workers");
    [injection Erows as <-; cbn [clients workers tasks]; rewrite length_setRow; auto|].
  destruct (entityType c =? "tasks");
    [injection Erows as <-; cbn [clients workers tasks]; rewrite length_setRow; auto|].
  discriminate.
Qed.

Lemma edit_frame data c entity index column :
  ~ targets c entity index column ->
  cell (edit data c) entity index column = cell data entity index column.
Proof.
  intros Hnot. unfold edit.
  destruct (entityData data (entityType c)) as [rows|] eqn:Erows; [|reflexivity].
  destruct (arrayIndex (rowIndex c)) as [i|] eqn:Ei; [|reflexivity].
  destruct (nth_error rows i) as [r|] eqn:Er; [|reflexivity].
  unfold cell, rowAt. rewrite (entityData_with _ _ _ _ _ Erows).
  destruct (String.eqb_spec entity (entityType c)) as [->|Hen]; [|reflexivity].
  rewrite Erows.
  destruct (Nat.eq_dec index i) as [->|Hi].
  - rewrite (nth_error_setRow_same _ _ _ _ Er), Er.
    apply get_setField_other. intros ->. apply Hnot. unfold targets. auto.
  - rewrite nth_error_setRow_other by exact Hi. reflexivity.
Qed.

Lemma edit_target data c entity index column :
  field c <> "__proto__" ->
  targets c entity index column -> rowAt data entity index <> None ->
  cell (edit data c) entity index column = Some (suggestedValue c).
Proof.
  intros Hfield [<- [Hi <-]] Hrow. unfold edit. unfold rowAt in Hrow.
  destruct (entityData data (entityType c)) as [rows|] eqn:Erows;
    [|exfalso; apply Hrow; reflexivity].
  rewrite Hi.
  destruct (nth_error rows index) as [r|] eqn:Er; [|exfalso; apply Hrow; reflexivity].
  unfold cell, rowAt. rewrite (entityData_with _ _ _ _ _ Erows), String.eqb_refl.
  rewrite (nth_error_setRow_same _ _ _ _ Er). apply get_setField_same. left. exact Hfield.
Qed.

(** An edit neither adds nor removes a row. *)
Lemma edit_rowAt data c entity index :
  rowAt (edit data c) entity index = None <-> rowAt data entity index = None.
Proof.
  unfold edit.
  destruct (entityData data (entityType c)) as [rows|] eqn:Erows; [|reflexivity].
  destruct (arrayIndex (rowIndex c)) as [i|] eqn:Ei; [|reflexivity].
  destruct (nth_error rows i) as [r|] eqn:Er; [|reflexivity].
  unfold rowAt. rewrite (entityData_with _ _ _ _ _ Erows).
  destruct (String.eqb_spec entity (entityType c)) as [->|Hen]; [|reflexivity].
  rewrite Erows.
  destruct (Nat.eq_dec index i) as [->|Hi].
  - rewrite (nth_error_setRow_same _ _ _ _ Er), Er. split; discriminate.
  - rewrite nth_error_setRow_other by exact Hi. reflexivity.
Qed.

End CorrectionFacts.

(** X21: applying a correction changes one cell.  The three collections
    keep their lengths; for a field other than [__proto__], every cell the
    correction is not aimed at (another entity, another row, another
    column) keeps its value, and the cell it is aimed at holds the
    suggested value afterwards when its row exists; and a correction for a
    row that does not exist (an unknown entity, an index that is negative,
    fractional or past the end) changes nothing. *)
Theorem correction_changes_one_cell (data : Corrections.Data)
    (c : Corrections.CorrectionSuggestion) (entity : string) (index : nat)
    (column : string) :
  (List.length (Corrections.clients (Corrections.edit data c))
   = List.length (Corrections.clients data)
   /\ List.length (Corrections.workers (Corrections.edit data c))
      = List.length (Corrections.workers data)
   /\ List.length (Corrections.tasks (Corrections.edit data c))
      = List.length (Corrections.tasks data))
  /\ (Corrections.field c <> "__proto__" -> ~ targets c entity index column ->
      cell (Corrections.edit data c) entity index column = cell data entity index column)
  /\ (Corrections.field c <> "__proto__" ->
      targets c entity index column -> rowAt data entity index <> None ->
      cell (Corrections.edit data c) entity index column
      = Some (Corrections.suggestedValue c))
  /\ ((forall i, Corrections.arrayIndex (Corrections.rowIndex c) = Some i ->
                 rowAt data (Corrections.entityType c) i = None) ->
      Corrections.edit data c = data).
Proof.
  split; [apply edit_lengths|]. split; [intros _; apply edit_frame|].
  split; [apply edit_target|].
  intros Hnone. unfold Corrections.edit.
  destruct (Corrections.entityData data (Corrections.entityType c)) as [rows|] eqn:Erows;
    [|reflexivity].
  destruct (Corrections.arrayIndex (Corrections.rowIndex c)) as [i|]; [|reflexivity].
  specialize (Hnone i eq_refl). unfold rowAt in Hnone. rewrite Erows in Hnone.
  rewrite Hnone. reflexivity.
Qed.

(** X22: [autoFixAll] applies the corrections that are flagged
    auto-applicable, have a confidence above the double 0.8 and are not
    applied yet, and ignores the others: the result is the same without
    them.  When none of the corrections it applies has the field
    [__proto__]: a cell that none of them is aimed at keeps its value; a
    cell of an existing row holds afterwards the suggested value of the
    last of them that is aimed at it. *)
Theorem auto_fix_applies_eligible_corrections (data : Corrections.Data)
    (corrections : list Corrections.CorrectionSuggestion) (appliedCorrections : list string)
    (entity : string) (index : nat) (column : string) :
  (forall c, In c corrections ->
             Corrections.autoApplicableNow appliedCorrections c = true ->
             Corrections.field c <> "__proto__") ->
  (forall c,
      Corrections.autoApplicableNow appliedCorrections c = true
      <-> Corrections.autoApplicable c = true
          /\ lt (Finite (Binary64.round (8 # 10))) (Corrections.confidence c) = true
          /\ ~ In (Corrections.id c) appliedCorrections)
  /\ Corrections.autoFixAll data corrections appliedCorrections
     = Corrections.autoFixAll data
         (filter (Corrections.autoApplicableNow appliedCorrections) corrections)
         appliedCorrections
  /\ ((forall c, In c corrections ->
                 Corrections.autoApplicableNow appliedCorrections c = true ->
                 ~ targets c entity index column) ->
      cell (Corrections.autoFixAll data corrections appliedCorrections) entity index column
      = cell data entity index column)
  /\ (forall before c after,
        corrections = (before ++ c :: after)%list ->
        Corrections.autoApplicableNow appliedCorrections c = true ->
        targets c entity index column ->
        rowAt data entity index <> None ->
        (forall c', In c' after ->
                    Corrections.autoApplicableNow appliedCorrections c' = true ->
                    ~ targets c' entity index column) ->
        cell (Corrections.autoFixAll data corrections appliedCorrections) entity index column
        = Some (Corrections.suggestedValue c)).
Proof.
  intros Hfields.
  assert (Hframe : forall l d,
            (forall c, In c l -> ~ targets c entity index column) ->
            cell (fold_left Corrections.edit l d) entity index column
            = cell d entity index column).
  { induction l as [|c l IH]; intros d H; [reflexivity|].
    simpl. rewrite IH by (intros c' Hc'; apply H; right; exact Hc').
    apply edit_frame. apply H. left. reflexivity. }
  assert (Hrows : forall l d,
            rowAt d entity index <> None ->
            rowAt (fold_left Corrections.edit l d) entity index <> None).
  { induction l as [|c l IH]; intros d H; [exact H|].
    simpl. apply IH. intros Hnone. apply H. apply (edit_rowAt d c). exact Hnone. }
  split; [|split; [|split]].
  - intros c. unfold Corrections.autoApplicableNow.
    rewrite !andb_true_iff, negb_true_iff. split.
    + intros [[Hauto Hconf] Hnew]. split; [exact Hauto|]. split; [exact Hconf|].
      intros Hin. assert (Hex : existsb (String.eqb (Corrections.id c)) appliedCorrections = true).
      { apply existsb_exists. exists (Corrections.id c). split; [exact Hin|].
        apply String.eqb_refl. }
      rewrite Hex in Hnew. discriminate Hnew.
    + intros [Hauto [Hconf Hnew]]. split; [split; assumption|].
      destruct (existsb (String.eqb (Corrections.id c)) appliedCorrections) eqn:Hex;
        [|reflexivity].
      exfalso. apply Hnew. apply existsb_exists in Hex. destruct Hex as [x [Hx Heq]].
      apply String.eqb_eq in Heq. rewrite Heq. exact Hx.
  - unfold Corrections.autoFixAll. f_equal.
    induction corrections as [|c l IH]; [reflexivity|]. cbn [filter].
    destruct (Corrections.autoApplicableNow appliedCorrections c) eqn:E.
    + cbn [filter]. rewrite E. f_equal. apply IH.
      intros c' Hc'. apply Hfields. right. exact Hc'.
    + apply IH. intros c' Hc'. apply Hfields. right. exact Hc'.
  - intros Hnone. unfold Corrections.autoFixAll. apply Hframe.
    intros c Hc. apply filter_In in Hc. destruct Hc as [Hin Hok]. exact (Hnone c Hin Hok).
  - intros before c after -> Hok Htarget Hrow Hlast.
    unfold Corrections.autoFixAll. rewrite filter_app. cbn [filter]. rewrite Hok.
    rewrite fold_left_app. cbn [fold_left].
    rewrite Hframe.
    + apply edit_target; [|exact Htarget|apply Hrows; exact Hrow].
      apply Hfields; [|exact Hok]. apply in_or_app. right. left. reflexivity.
    + intros c' Hc'. apply filter_In in Hc'. destruct Hc' as [Hin Hok'].
      exact (Hlast c' Hin Hok').
Qed.

(** Witness for X22: fixing the priority of the first client sets it to 4
    and leaves the name of the first worker alone. *)
Lemma auto_fix_applies_eligible_corrections_witness :
  cell (Corrections.autoFixAll urgentData [priorityFix] []) "clients" 0 "PriorityLevel"
  = Some (Num (Finite 4%Q)).
Proof.
  refine (proj2 (proj2 (proj2 (auto_fix_applies_eligible_corrections urgentData
                                 [priorityFix] [] "clients" 0 "PriorityLevel" _)))
            [] priorityFix [] eq_refl eq_refl _ _ _).
  - intros c [<-|[]] _. discriminate.
  - repeat split.
  - discriminate.
  - intros c' [].
Defined.

(** X23: a correction that sets the [PriorityLevel] of client [index] to a
    number from 1 to 5 clears the range error of that row: the pass over
    the corrected data reports no outOfRange error at [index], whether or
    not the row exists and whatever the other cells hold. *)
Theorem valid_priority_correction_clears_the_error {rt : Runtime}
    (data : Corrections.Data) (c : Corrections.CorrectionSuggestion) (index : nat)
    (n : number) :
  targets c "clients" index "PriorityLevel" ->
  Corrections.suggestedValue c = Num n ->
  isNaN n || lt n (Finite 1%Q) || lt (Finite 5%Q) n = false ->
  let data' := Corrections.edit data c in
  filter (fun e => (type e =? "outOfRange") && (rowIndex e =? index)%nat)
    (validate (Corrections.clients data') (Corrections.workers data')
       (Corrections.tasks data'))
  = [].
Proof.
  intros Htarget Hvalue Hrange data'. subst data'. apply filter_none. intros e He.
  destruct ((type e =? "outOfRange") && (rowIndex e =? index)%nat) eqn:Etest;
    [exfalso|reflexivity].
  apply andb_true_iff in Etest. destruct Etest as [Hty Hrow].
  apply String.eqb_eq in Hty. apply Nat.eqb_eq in Hrow.
  destruct (POST_status (Corrections.clients (Corrections.edit data c)) (Corrections.workers (Corrections.edit data c))
              (Corrections.tasks (Corrections.edit data c))) as [[H200 _]|[_ [Hnil _]]];
    [|rewrite Hnil in He; destruct He].
  assert (Hfound : exists e', In e' (validate (Corrections.clients (Corrections.edit data c))
                                       (Corrections.workers (Corrections.edit data c))
                                       (Corrections.tasks (Corrections.edit data c)))
                              /\ reportedAt "outOfRange" index e')
    by (exists e; split; [exact He|split; assumption]).
  apply (rule_iff _ _ _ 10 _ _
           (rangeRow "clients" "PriorityLevel" (Finite 1%Q) (Finite 5%Q))
           (Corrections.clients (Corrections.edit data c)) (reportedAt "outOfRange" index)
           (fun client => exists v m, get client "PriorityLevel" = Some v /\ v <> Null
                                      /\ ToNumber v = inr m
                                      /\ isNaN m || lt m (Finite 1%Q) || lt (Finite 5%Q) m
                                         = true)
           index H200 eq_refl eq_refl (rangeRow_appends _ _ _ _)) in Hfound.
  - destruct Hfound as [client [Hclient [v [m [Hget [_ [Hnum Hcond]]]]]]].
    assert (Hrowat : rowAt data "clients" index <> None).
    { unfold rowAt. cbn [Corrections.entityData String.eqb Ascii.eqb Bool.eqb].
      intros Hnone. apply nth_error_None in Hnone.
      destruct (edit_lengths data c) as [Hlen _].
      assert (Hsome : nth_error (Corrections.clients (Corrections.edit data c)) index <> None)
        by (intros Hn; pose proof (eq_trans (eq_sym Hn) Hclient) as Hbad;
            discriminate Hbad).
      apply nth_error_Some in Hsome. rewrite Hlen in Hsome.
      exact (Nat.lt_irrefl _ (Nat.lt_le_trans _ _ _ Hsome Hnone)). }
    assert (Hfield : Corrections.field c <> "__proto__")
      by (destruct Htarget as [_ [_ Hf]]; rewrite Hf; discriminate).
    pose proof (edit_target data c "clients" index "PriorityLevel" Hfield Htarget Hrowat)
      as Hcell.
    unfold cell, rowAt in Hcell.
    cbn [Corrections.entityData String.eqb Ascii.eqb Bool.eqb] in Hcell.
    unfold row in Hclient. rewrite Hclient, Hget, Hvalue in Hcell. injection Hcell as ->.
    cbn [ToNumber ret] in Hnum. injection Hnum as <-. congruence.
  - destruct (Corrections.clients (Corrections.edit data c)); reflexivity.
  - intros e'. apply reportedAt_call with (k := 10%nat); reflexivity.
  - intros r g e' Hg Hin _. apply (rangeRow_reported _ _ _ _ r index g e' Hg Hin).
  - intros r g Hg [v [m [H1 [H2 [H3 H4]]]]].
    destruct (rangeRow_reports _ _ _ _ r index g v m Hg H1 H2 H3 H4)
      as [e' [He' [Hty' [_ [_ Hrow']]]]].
    exists e'. split; [exact He'|]. split; assumption.
Qed.

(** Witness for X23: the client of priority nine, corrected to four. *)
Lemma valid_priority_correction_clears_the_error_witness :
  filter (fun e => (type e =? "outOfRange") && (rowIndex e =? 0)%nat)
    (validate (rt := exampleRuntime)
       (Corrections.clients (Corrections.edit urgentData priorityFix))
       (Corrections.workers (Corrections.edit urgentData priorityFix))
       (Corrections.tasks (Corrections.edit urgentData priorityFix)))
  = [].
Proof.
  apply (valid_priority_correction_clears_the_error (rt := exampleRuntime)
           urgentData priorityFix 0 (Finite 4%Q)).
  - repeat split.
  - reflexivity.
  - reflexivity.
Defined.

(* ================================================================= *)
(** ** The Ollama client *)

Section ClientFacts.
Import Cleaning Mediator OllamaClient.



Lemma dropWhile_nil {A} (p : A -> bool) l :
  dropWhile p l = [] <-> Forall (fun x => p x = true) l.
Proof.
  induction l as [|x l IH]; simpl.
  - split; [constructor|reflexivity].
  - destruct (p x) eqn:E.
    + rewrite IH. split; [intros H; constructor; assumption|].
      intros H. inversion H; assumption.
    + split; [discriminate|]. intros H. inversion H; subst. congruence.
Qed.

Lemma dropWhile_stops {A} (p : A -> bool) l x rest :
  dropWhile p l = x :: rest -> p x = false.
Proof.
  induction l as [|y l IH]; simpl; [discriminate|].
  destruct (p y) eqn:E; [exact IH|]. intros H. injection H as <- _. exact E.
Qed.

(** [trim] leaves nothing exactly of a text made of white space. *)
Lemma trim_nil s : trim s = [] <-> Forall (fun c => isWhiteSpace c = true) s.
Proof.
  unfold trim. rewrite <- dropWhile_nil.
  destruct (dropWhile isWhiteSpace s) as [|x rest] eqn:E; [split; reflexivity|].
  split; [|discriminate]. intros H. exfalso.
  apply (f_equal (@rev N)) in H. rewrite rev_involutive in H. cbn [rev] in H.
  rewrite (dropWhile_app_stop isWhiteSpace (rev rest) x [])
    in H by exact (dropWhile_stops _ _ _ _ E).
  destruct (dropWhile isWhiteSpace (rev rest)); discriminate H.
Qed.

Lemma orElse_nonempty a b : b <> [] -> orElse a b <> [].
Proof. intros Hb. destruct a as [[|c s]|]; simpl; auto; discriminate. Qed.

Lemma modelName_nonempty env modelArg : modelName env modelArg <> [].
Proof.
  unfold modelName, DEFAULT_MODEL. repeat apply orElse_nonempty. discriminate.
Qed.

End ClientFacts.


(** X25: the model name of a client is never empty, so the first half of
    the constructor's test never fires: the name is the argument, else
    OLLAMA_MODEL, else OLLAMA_DEFAULT_MODEL, else "llama3.1:8b", empty
    strings being skipped.  The constructor throws exactly when that name
    is made of white space.  With no argument and no variable set it
    returns the client for http://localhost:11434 and llama3.1:8b. *)
Theorem client_model_name (env : OllamaClient.Env)
    (baseUrlArg modelArg : option Cleaning.ustring) :
  OllamaClient.modelName env modelArg <> []
  /\ ((exists e, OllamaClient.constructor env baseUrlArg modelArg = inl e)
      <-> Forall (fun c => Cleaning.isWhiteSpace c = true)
            (OllamaClient.modelName env modelArg))
  /\ (forall client,
        OllamaClient.constructor env baseUrlArg modelArg = inr client ->
        OllamaClient.model client = OllamaClient.modelName env modelArg
        /\ OllamaClient.baseUrl client
           = match baseUrlArg with Some s => s | None => OllamaClient.BASE_URL env end)
  /\ OllamaClient.constructor noEnv None None
     = inr {| OllamaClient.baseUrl := Cleaning.u "http://localhost:11434";
              OllamaClient.model := Cleaning.u "llama3.1:8b" |}.
Proof.
  split; [apply modelName_nonempty|].
  pose proof (modelName_nonempty env modelArg) as Hname.
  pose proof (trim_nil (OllamaClient.modelName env modelArg)) as Htrim.
  unfold OllamaClient.constructor.
  destruct (OllamaClient.modelName env modelArg) as [|c name]; [contradiction|].
  split; [|split; [|reflexivity]].
  - destruct (Cleaning.trim (c :: name)) as [|c' rest].
    + split; [intros _; apply Htrim; reflexivity|eauto].
    + split; [intros [e He]; discriminate He|].
      intros H. apply Htrim in H. discriminate H.
  - intros client. destruct (Cleaning.trim (c :: name)); [discriminate|].
    intros H. injection H as <-. split; reflexivity.
Qed.

(* ================================================================= *)
(** ** Editing cells and headers *)

Section EditFacts.
Context {rt : Runtime}.
Variable trim : string -> string.

Lemma element_storedFor column piece :
  DataGrid.notEmptyString (DataGrid.element trim column piece) = true ->
  storedFor trim column piece (DataGrid.element trim column piece).
Proof.
  unfold DataGrid.element, storedFor.
  destruct (DataGrid.isNumberListColumn column).
  - destruct (isNaN (StringToNumber (trim piece))) eqn:Enan; simpl.
    + intros H. right. split; [reflexivity|]. split; [|reflexivity].
      intros Hs. rewrite Hs in H. discriminate H.
    + intros _. left. split; reflexivity.
  - simpl. intros H. split; [|reflexivity]. intros Hs. rewrite Hs in H. discriminate H.
Qed.

Lemma storedFor_element column piece x :
  storedFor trim column piece x ->
  x = DataGrid.element trim column piece /\ DataGrid.notEmptyString x = true.
Proof.
  unfold DataGrid.element, storedFor.
  destruct (DataGrid.isNumberListColumn column).
  - intros [[Hnan ->]|[Hnan [Hs ->]]]; rewrite Hnan; split; try reflexivity.
    simpl. destruct (String.eqb_spec (trim piece) ""); [contradiction|reflexivity].
  - intros [Hs ->]. split; [reflexivity|]. simpl.
    destruct (String.eqb_spec (trim piece) ""); [contradiction|reflexivity].
Qed.

Lemma storedFor_listElement column piece x :
  storedFor trim column piece x -> listElement column x.
Proof.
  unfold storedFor, listElement.
  destruct (DataGrid.isNumberListColumn column).
  - intros [[Hnan ->]|[Hnan [Hs ->]]]; auto.
  - intros [Hs ->]. split; [exact Hs|discriminate].
Qed.

Lemma processedValue_list column editValue :
  DataGrid.isListColumn column = true ->
  exists items,
    DataGrid.processedValue trim column editValue = Arr items
    /\ (forall x, In x items
                  <-> exists piece, In piece (DataGrid.split editValue)
                                    /\ storedFor trim column piece x)
    /\ Forall (listElement column) items.
Proof.
  intros Hcol. unfold DataGrid.processedValue. rewrite Hcol.
  eexists. split; [reflexivity|].
  assert (Hiff : forall x,
            In x (filter DataGrid.notEmptyString
                    (map (DataGrid.element trim column) (DataGrid.split editValue)))
            <-> exists piece, In piece (DataGrid.split editValue)
                              /\ storedFor trim column piece x).
  { intros x. rewrite filter_In, in_map_iff. split.
    - intros [[piece [<- Hin]] Hnot]. exists piece. split; [exact Hin|].
      apply element_storedFor. exact Hnot.
    - intros [piece [Hin Hstored]]. apply storedFor_element in Hstored.
      destruct Hstored as [-> Hnot]. split; [|exact Hnot]. exists piece. auto. }
  split; [exact Hiff|].
  apply Forall_forall. intros x Hx. apply Hiff in Hx. destruct Hx as [piece [_ Hstored]].
  exact (storedFor_listElement _ _ _ Hstored).
Qed.

Lemma entityData_collection data en :
  Corrections.entityData data (entityName en)
  = Some (collection en (Corrections.clients data) (Corrections.workers data)
            (Corrections.tasks data)).
Proof. destruct en; reflexivity. Qed.

End EditFacts.


(** X27: after a cell of one of the four array columns of [POST] has been
    edited in the grid, the pass over the new data reports no
    malformedArray error for that cell, whatever was typed. *)
Theorem edited_list_cell_is_never_malformed {rt : Runtime} (trim : string -> string)
    (data data' : Corrections.Data) (en : Entity) (f ty : string) (index : nat)
    (editValue : string) :
  In (en, f, ty) arrayCalls ->
  DataGrid.saveEdit trim data (entityName en) index f editValue = inr data' ->
  filter (malformedAt (entityName en) f index)
    (validate (Corrections.clients data') (Corrections.workers data')
       (Corrections.tasks data'))
  = [].
Proof.
  intros Hcall Hsave. apply filter_none. intros e He.
  destruct (malformedAt (entityName en) f index e) eqn:Etest; [exfalso|reflexivity].
  unfold malformedAt in Etest. rewrite !andb_true_iff in Etest.
  destruct Etest as [[[Hty Hen] Hcol] Hrow].
  apply String.eqb_eq in Hty, Hen, Hcol. apply Nat.eqb_eq in Hrow.
  destruct (POST_status (Corrections.clients data') (Corrections.workers data')
              (Corrections.tasks data')) as [[H200 _]|[_ [Hnil _]]];
    [|rewrite Hnil in He; destruct He].
  assert (Hlist : DataGrid.isListColumn f = true).
  { unfold arrayCalls in Hcall. simpl in Hcall.
    destruct Hcall as [H|[H|[H|[H|[]]]]]; injection H as <- <- <-; reflexivity. }
  assert (Hk : exists k,
             nth_error (catalog (Corrections.clients data') (Corrections.workers data')
                          (Corrections.tasks data')) k
             = Some (validateArrayFields
                       (collection en (Corrections.clients data')
                          (Corrections.workers data') (Corrections.tasks data'))
                       (entityName en) f ty)
             /\ nth_error signatures k
                = Some {| types := ["malformedArray"; "invalidArrayElements"];
                          entity := entityName en; column := Some f |}).
  { unfold arrayCalls in Hcall. simpl in Hcall.
    destruct Hcall as [H|[H|[H|[H|[]]]]]; injection H as <- <- <-;
      [exists 6%nat|exists 7%nat|exists 8%nat|exists 9%nat]; split; reflexivity. }
  destruct Hk as [k [Hcat Hsg]].
  assert (Hfound : exists e', In e' (validate (Corrections.clients data')
                                       (Corrections.workers data')
                                       (Corrections.tasks data'))
                              /\ reportedFor "malformedArray" en f index e')
    by (exists e; split; [exact He|repeat split; assumption]).
  apply (rule_iff _ _ _ k _ _
           (arrayFieldsRow (entityName en) f ty)
           (collection en (Corrections.clients data') (Corrections.workers data')
              (Corrections.tasks data'))
           (reportedFor "malformedArray" en f index)
           (fun r => exists v, get r f = Some v /\ v <> Null /\ isArray (Some v) = false)
           index H200 Hcat Hsg (arrayFieldsRow_appends _ _ _)) in Hfound.
  - destruct Hfound as [r [Hr [v [Hget [_ Harr]]]]].
    unfold DataGrid.saveEdit in Hsave.
    destruct (Corrections.entityData data (entityName en)) as [rows|] eqn:Erows;
      [|discriminate Hsave].
    destruct (nth_error rows index) as [r0|] eqn:Er0; [|discriminate Hsave].
    injection Hsave as <-.
    pose proof (entityData_collection
                  (Corrections.withEntityData data (entityName en)
                     (Corrections.setRow rows index
                        (Corrections.setField r0 f
                           (DataGrid.processedValue trim f editValue))))
                  en) as Hdata.
    rewrite (entityData_with _ _ _ _ _ Erows), String.eqb_refl in Hdata.
    injection Hdata as Hdata. rewrite <- Hdata in Hr.
    rewrite (nth_error_setRow_same _ _ _ _ Er0) in Hr. injection Hr as <-.
    assert (Hf : f <> "__proto__").
    { unfold arrayCalls in Hcall. simpl in Hcall.
      destruct Hcall as [H|[H|[H|[H|[]]]]]; injection H as <- <- <-; discriminate. }
    rewrite (get_setField_same _ _ _ (or_introl Hf)) in Hget. injection Hget as <-.
    destruct (processedValue_list trim f editValue Hlist) as [items [Hitems _]].
    rewrite Hitems in Harr. discriminate Harr.
  - destruct (collection en (Corrections.clients data') (Corrections.workers data')
                (Corrections.tasks data')); reflexivity.
  - intros e' _. apply reportedFor_call; simpl; auto.
  - intros r g e' Hg Hin [Hty' _].
    apply (arrayFieldsRow_malformed _ _ _ r index g e' Hg Hin Hty').
  - intros r g Hg [v [H1 [H2 H3]]].
    apply (arrayFieldsRow_reports_malformed _ _ _ r index g v Hg H1 H2 H3).
Qed.

(** Witness for X27: the slots of the first worker, retyped as prose. *)
Lemma edited_list_cell_is_never_malformed_witness :
  filter (malformedAt "workers" "AvailableSlots" 0)
    (validate (rt := exampleRuntime)
       []
       [Corrections.setField busyWorker "AvailableSlots"
          (DataGrid.processedValue (rt := exampleRuntime) noTrim "AvailableSlots"
             "one, two")]
       [])
  = [].
Proof.
  apply (edited_list_cell_is_never_malformed (rt := exampleRuntime) noTrim busyData
           {| Corrections.clients := [];
              Corrections.workers :=
                [Corrections.setField busyWorker "AvailableSlots"
                   (DataGrid.processedValue (rt := exampleRuntime) noTrim "AvailableSlots"
                      "one, two")];
              Corrections.tasks := [] |}
           Workers "AvailableSlots" "number" 0 "one, two").
  - left. reflexivity.
  - reflexivity.
Defined.

(** X28: the grid that stores the text as typed turns every edited cell of
    an array column into a string: after such an edit, a completed pass
    over the new data reports a malformedArray error for that cell,
    whatever was typed, the empty text included. *)
Theorem cell_edited_as_typed_is_malformed {rt : Runtime}
    (data data' : Corrections.Data) (en : Entity) (f ty : string) (index : nat)
    (editValue : string) :
  In (en, f, ty) arrayCalls ->
  DataGrid.saveEditAsTyped data (entityName en) index f editValue = inr data' ->
  status (POST (Corrections.clients data') (Corrections.workers data')
            (Corrections.tasks data')) = 200 ->
  exists e,
    In e (validate (Corrections.clients data') (Corrections.workers data')
            (Corrections.tasks data'))
    /\ reportedFor "malformedArray" en f index e.
Proof.
  intros Hcall Hsave H200.
  assert (Hk : exists k,
             nth_error (catalog (Corrections.clients data') (Corrections.workers data')
                          (Corrections.tasks data')) k
             = Some (validateArrayFields
                       (collection en (Corrections.clients data')
                          (Corrections.workers data') (Corrections.tasks data'))
                       (entityName en) f ty)
             /\ nth_error signatures k
                = Some {| types := ["malformedArray"; "invalidArrayElements"];
                          entity := entityName en; column := Some f |}).
  { unfold arrayCalls in Hcall. simpl in Hcall.
    destruct Hcall as [H|[H|[H|[H|[]]]]]; injection H as <- <- <-;
      [exists 6%nat|exists 7%nat|exists 8%nat|exists 9%nat]; split; reflexivity. }
  destruct Hk as [k [Hcat Hsg]].
  apply (rule_iff _ _ _ k _ _
           (arrayFieldsRow (entityName en) f ty)
           (collection en (Corrections.clients data') (Corrections.workers data')
              (Corrections.tasks data'))
           (reportedFor "malformedArray" en f index)
           (fun r => exists v, get r f = Some v /\ v <> Null /\ isArray (Some v) = false)
           index H200 Hcat Hsg (arrayFieldsRow_appends _ _ _)).
  - destruct (collection en (Corrections.clients data') (Corrections.workers data')
                (Corrections.tasks data')); reflexivity.
  - intros e' _. apply reportedFor_call; simpl; auto.
  - intros r g e' Hg Hin [Hty' _].
    apply (arrayFieldsRow_malformed _ _ _ r index g e' Hg Hin Hty').
  - intros r g Hg [v [H1 [H2 H3]]].
    apply (arrayFieldsRow_reports_malformed _ _ _ r index g v Hg H1 H2 H3).
  - unfold DataGrid.saveEditAsTyped in Hsave.
    destruct (Corrections.entityData data (entityName en)) as [rows|] eqn:Erows;
      [|discriminate Hsave].
    destruct (nth_error rows index) as [r0|] eqn:Er0; [|discriminate Hsave].
    injection Hsave as <-.
    pose proof (entityData_collection
                  (Corrections.withEntityData data (entityName en)
                     (Corrections.setRow rows index
                        (Corrections.setField r0 f (Str editValue))))
                  en) as Hdata.
    rewrite (entityData_with _ _ _ _ _ Erows), String.eqb_refl in Hdata.
    injection Hdata as Hdata. rewrite <- Hdata.
    exists (Corrections.setField r0 f (Str editValue)).
    split; [exact (nth_error_setRow_same _ _ _ _ Er0)|].
    exists (Str editValue). split.
    { apply get_setField_same. left.
      unfold arrayCalls in Hcall. simpl in Hcall.
      destruct Hcall as [H|[H|[H|[H|[]]]]]; injection H as <- <- <-; discriminate. }
    split; [discriminate|reflexivity].
Qed.

(** Witness for X28: the slots of the first worker, retyped as "1, 2". *)
Lemma cell_edited_as_typed_is_malformed_witness :
  exists e,
    In e (validate (rt := exampleRuntime) []
            [Corrections.setField busyWorker "AvailableSlots" (Str "1, 2")] [])
    /\ reportedFor "malformedArray" Workers "AvailableSlots" 0 e.
Proof.
  apply (cell_edited_as_typed_is_malformed (rt := exampleRuntime) busyData
           {| Corrections.clients := [];
              Corrections.workers :=
                [Corrections.setField busyWorker "AvailableSlots" (Str "1, 2")];
              Corrections.tasks := [] |}
           Workers "AvailableSlots" "number" 0 "1, 2").
  - left. reflexivity.
  - reflexivity.
  - reflexivity.
Defined.

Section RenameFacts.
Import DataGrid Corrections.

Lemma hasOwn_In r f : hasOwn r f = true <-> In f (keys r).
Proof.
  unfold hasOwn. induction r as [|[k x] r IH]; simpl.
  - split; [discriminate|tauto].
  - destruct (String.eqb_spec k f) as [->|Hk].
    + split; auto.
    + rewrite IH. split; [auto|]. intros [H|H]; [contradiction|exact H].
Qed.

Lemma keys_replaceField r f v : keys (replaceField r f v) = keys r.
Proof.
  induction r as [|[k x] r IH]; simpl; [reflexivity|].
  destruct (k =? f); simpl; [reflexivity|]. f_equal. exact IH.
Qed.

Lemma keys_setField_old r f v :
  In f (keys r) -> keys (setField r f v) = keys r.
Proof.
  intros Hin. apply hasOwn_In in Hin. unfold setField. rewrite Hin.
  apply keys_replaceField.
Qed.

Lemma hasOwn_absent r f : ~ In f (keys r) -> hasOwn r f = false.
Proof.
  intros Hnot. destruct (hasOwn r f) eqn:E; [|reflexivity].
  apply hasOwn_In in E. contradiction.
Qed.

Lemma keys_setField_new r f v :
  ~ In f (keys r) -> f <> "__proto__" -> arrayIndexOf f = None ->
  keys (setField r f v) = (keys r ++ [f])%list.
Proof.
  intros Hnot Hproto Hindex. unfold setField, defineField.
  rewrite (hasOwn_absent _ _ Hnot), Hindex.
  destruct (String.eqb_spec f "__proto__"); [contradiction|].
  unfold keys. rewrite map_app. reflexivity.
Qed.

Lemma setField_proto r v : ~ In "__proto__" (keys r) -> setField r "__proto__" v = r.
Proof.
  intros Hnot. unfold setField. rewrite (hasOwn_absent _ _ Hnot). reflexivity.
Qed.

Lemma keys_insertIndex_In r f n v g :
  In g (keys (insertIndex r f n v)) <-> g = f \/ In g (keys r).
Proof.
  induction r as [|[k x] r IH]; simpl.
  - split; intros [H|H]; auto.
  - destruct (arrayIndexOf k) as [m|]; [destruct (m <? n)%N|]; simpl.
    + rewrite IH. tauto.
    + split; intros [H|H]; auto.
    + split; intros [H|H]; auto.
Qed.

Lemma insertIndex_NoDup r f n v :
  ~ In f (keys r) -> NoDup (keys r) -> NoDup (keys (insertIndex r f n v)).
Proof.
  induction r as [|[k x] r IH]; simpl; intros Hnot H.
  - constructor; [tauto|constructor].
  - inversion H as [|? ? Hk Hrest]; subst.
    destruct (arrayIndexOf k) as [m|]; [destruct (m <? n)%N|]; simpl.
    + constructor.
      * rewrite keys_insertIndex_In. intros [->|Hin]; [apply Hnot; left; reflexivity|].
        exact (Hk Hin).
      * apply IH; [tauto|exact Hrest].
    + constructor; [exact Hnot|exact H].
    + constructor; [exact Hnot|exact H].
Qed.

(** In a row without index-named columns a new index-named column comes
    first. *)
Lemma keys_insertIndex_first r f n v :
  (forall k, In k (keys r) -> arrayIndexOf k = None) ->
  keys (insertIndex r f n v) = f :: keys r.
Proof.
  destruct r as [|[k x] r]; simpl; [reflexivity|].
  intros H. rewrite (H k) by (left; reflexivity). reflexivity.
Qed.

Lemma setField_NoDup r f v : NoDup (keys r) -> NoDup (keys (setField r f v)).
Proof.
  intros H. destruct (in_dec string_dec f (keys r)) as [Hin|Hnot].
  - rewrite keys_setField_old by exact Hin. exact H.
  - unfold setField, defineField. rewrite (hasOwn_absent _ _ Hnot).
    destruct (f =? "__proto__"); [exact H|].
    destruct (arrayIndexOf f) as [n|].
    + apply insertIndex_NoDup; assumption.
    + unfold keys. rewrite map_app.
      apply NoDup_app; [exact H|repeat constructor; simpl; tauto|].
      intros k Hk [<-|[]]. exact (Hnot Hk).
Qed.

Lemma get_absent r k : ~ In k (keys r) -> get r k = None.
Proof.
  induction r as [|[k' x] r IH]; simpl; [reflexivity|].
  intros Hnot. destruct (String.eqb_spec k' k) as [->|]; [tauto|]. apply IH. tauto.
Qed.

Lemma get_deleteField_same r k : NoDup (keys r) -> get (deleteField r k) k = None.
Proof.
  induction r as [|[k' x] r IH]; simpl; [reflexivity|].
  intros H. inversion H as [|? ? Hnot Hrest]; subst.
  destruct (String.eqb_spec k' k) as [->|Hk].
  - apply get_absent. exact Hnot.
  - simpl. destruct (String.eqb_spec k' k); [contradiction|]. exact (IH Hrest).
Qed.

Lemma get_deleteField_other r k g : g <> k -> get (deleteField r k) g = get r g.
Proof.
  intros Hg. induction r as [|[k' x] r IH]; simpl; [reflexivity|].
  destruct (String.eqb_spec k' k) as [->|Hk].
  - destruct (String.eqb_spec k g); [congruence|reflexivity].
  - simpl. destruct (k' =? g); [reflexivity|exact IH].
Qed.

Lemma keys_deleteField r k :
  NoDup (keys r) -> keys (deleteField r k) = filter (fun c => negb (c =? k)) (keys r).
Proof.
  induction r as [|[k' x] r IH]; simpl; [reflexivity|].
  intros H. inversion H as [|? ? Hnot Hrest]; subst.
  destruct (String.eqb_spec k' k) as [->|Hk]; simpl.
  - symmetry. clear - Hnot. induction (keys r) as [|c l IH]; [reflexivity|].
    simpl. destruct (String.eqb_spec c k) as [->|]; simpl.
    + exfalso. apply Hnot. left. reflexivity.
    + f_equal. apply IH. intros Hin. apply Hnot. right. exact Hin.
  - f_equal. exact (IH Hrest).
Qed.

End RenameFacts.

(** X29: renaming a header, row by row.  A row that has a column named
    hasOwnProperty makes the rename throw.  Otherwise a row that has the
    old column no longer has it.  Unless the new name is [__proto__] and no
    column of the row, the value is found under the new name and every
    column other than the old and the new reads as before; for
    [__proto__] the value is lost.  When the new name is new to the row,
    the renamed column becomes the last column of the row; except that a
    name that spells an array index comes before the columns that are no
    array indices (first, in a row without such columns), as [Object.keys]
    lists them. *)
Theorem renamed_column_moves_to_the_end (oldColumn newColumn : string)
    (r : list (string * value)) (v : value) :
  oldColumn <> newColumn -> NoDup (keys r) -> get r oldColumn = Some v ->
  (hasOwn r "hasOwnProperty" = true ->
   DataGrid.renameColumn oldColumn newColumn r = inl DataGrid.notCallable)
  /\ (hasOwn r "hasOwnProperty" = false ->
      exists renamed,
        DataGrid.renameColumn oldColumn newColumn r = inr renamed
        /\ ~ In oldColumn (keys renamed)
        /\ (newColumn <> "__proto__" \/ In newColumn (keys r) ->
            get renamed newColumn = Some v
            /\ forall g, g <> oldColumn -> g <> newColumn -> get renamed g = get r g)
        /\ (~ In newColumn (keys r) ->
            (newColumn <> "__proto__" -> Corrections.arrayIndexOf newColumn = None ->
             keys renamed
             = (filter (fun c => negb (c =? oldColumn)) (keys r) ++ [newColumn])%list)
            /\ (newColumn = "__proto__" ->
                keys renamed = filter (fun c => negb (c =? oldColumn)) (keys r))
            /\ (Corrections.arrayIndexOf newColumn <> None ->
                (forall k, In k (keys r) -> Corrections.arrayIndexOf k = None) ->
                keys renamed
                = newColumn :: filter (fun c => negb (c =? oldColumn)) (keys r)))).
Proof.
  intros Hdiff Hkeys Hget. unfold DataGrid.renameColumn.
  split; [intros ->; reflexivity|]. intros ->. rewrite Hget.
  eexists. split; [reflexivity|].
  split.
  { rewrite keys_deleteField by (apply setField_NoDup; exact Hkeys).
    intros Hin. apply filter_In in Hin. destruct Hin as [_ Hin].
    rewrite String.eqb_refl in Hin. discriminate Hin. }
  split.
  { intros Hnew. split.
    - rewrite get_deleteField_other by congruence.
      apply get_setField_same. destruct Hnew as [Hnew|Hnew]; [left; exact Hnew|].
      right. apply hasOwn_In. exact Hnew.
    - intros g Hold Hg. rewrite get_deleteField_other by exact Hold.
      apply get_setField_other. exact Hg. }
  intros Hnot. rewrite keys_deleteField by (apply setField_NoDup; exact Hkeys).
  split; [|split].
  - intros Hproto Hindex. rewrite keys_setField_new by assumption.
    rewrite filter_app. simpl.
    destruct (String.eqb_spec newColumn oldColumn); [congruence|reflexivity].
  - intros ->. rewrite setField_proto by exact Hnot. reflexivity.
  - intros Hindex Hplain. unfold Corrections.setField, Corrections.defineField.
    rewrite (hasOwn_absent _ _ Hnot).
    destruct (String.eqb_spec newColumn "__proto__") as [->|_];
      [exfalso; apply Hindex; reflexivity|].
    destruct (Corrections.arrayIndexOf newColumn) as [n|];
      [|exfalso; apply Hindex; reflexivity].
    rewrite keys_insertIndex_first by exact Hplain. simpl.
    destruct (String.eqb_spec newColumn oldColumn); [congruence|reflexivity].
Qed.

(** Witness for X29: the worker's Name renamed to FullName. *)
Lemma renamed_column_moves_to_the_end_witness :
  exists renamed,
    DataGrid.renameColumn "Name" "FullName" busyWorker = inr renamed
    /\ ~ In "Name" (keys renamed)
    /\ get renamed "FullName" = Some (Str "Ann")
    /\ keys renamed
       = (filter (fun c => negb (c =? "Name")) (keys busyWorker) ++ ["FullName"])%list.
Proof.
  destruct (proj2 (renamed_column_moves_to_the_end "Name" "FullName" busyWorker (Str "Ann")
                     ltac:(discriminate)
                     ltac:(repeat constructor; simpl; intuition discriminate)
                     eq_refl) eq_refl)
    as [renamed [Hrun [Hold [Hnew Hlast]]]].
  exists renamed. split; [exact Hrun|]. split; [exact Hold|].
  split; [apply Hnew; left; discriminate|].
  apply Hlast; [simpl; intuition discriminate|discriminate|reflexivity].
Defined.

(* ================================================================= *)
(** ** The CSV export *)

Section ExportFacts.
Context {rt : Runtime}.
Import ExportPanel.

Lemma append_assoc (a b c : string) : ((a ++ b) ++ c = a ++ (b ++ c))%string.
Proof. induction a as [|x a IH]; simpl; [reflexivity|]. f_equal. exact IH. Qed.

Lemma append_nil_r (a : string) : (a ++ "")%string = a.
Proof. induction a as [|x a IH]; simpl; [reflexivity|]. f_equal. exact IH. Qed.

Lemma special_cons c v :
  special (String c v) = false ->
  Ascii.eqb c COMMA = false /\ Ascii.eqb c QUOTE = false /\ Ascii.eqb c NEWLINE = false
  /\ Ascii.eqb c RETURN = false /\ special v = false.
Proof.
  unfold special. cbn [contains]. intros H.
  repeat (apply orb_false_iff in H; destruct H as [H ?]).
  repeat match goal with
         | H : (_ || _)%bool = false |- _ => apply orb_false_iff in H; destruct H
         end.
  repeat split; try assumption.
  repeat (apply orb_false_iff; split); assumption.
Qed.

(** Inside an unquoted field the reader takes the ordinary characters as
    they come. *)
Lemma run_raw v : forall rd tail,
  special v = false -> readerState rd = InRaw ->
  run rd (v ++ tail)
  = run {| readerState := InRaw; pending := pending rd ++ v; fields := fields rd |} tail.
Proof.
  induction v as [|c v IH]; intros rd tail Hv Hst.
  - cbn [append]. rewrite append_nil_r. destruct rd as [st p f]. cbn in *. subst st. reflexivity.
  - apply special_cons in Hv. destruct Hv as [Hc [Hq [Hn [Hr Hv]]]].
    cbn [append run]. unfold step. rewrite Hst. unfold unquoted. rewrite Hc, Hn, Hr.
    cbn [app]. rewrite (IH (extend rd InRaw c) tail Hv eq_refl). unfold extend. cbn [pending fields].
    rewrite append_assoc. reflexivity.
Qed.

(** Inside a quoted field a doubled quote is a quote, and the next single
    quote closes the field. *)
Lemma run_quoted v : forall rd tail,
  readerState rd = InQuoted ->
  run rd (doubleQuotes v ++ String QUOTE tail)
  = run {| readerState := AfterQuote; pending := pending rd ++ v; fields := fields rd |} tail.
Proof.
  induction v as [|c v IH]; intros rd tail Hst.
  - cbn [doubleQuotes append run]. unfold step. rewrite Hst.
    change (Ascii.eqb QUOTE QUOTE) with true. cbn iota. cbn [app].
    rewrite append_nil_r. reflexivity.
  - cbn [doubleQuotes]. destruct (Ascii.eqb c QUOTE) eqn:Ec.
    + apply Ascii.eqb_eq in Ec. subst c. cbn [append run]. unfold step at 1. rewrite Hst.
      change (Ascii.eqb QUOTE QUOTE) with true. cbn iota. cbn [app].
      unfold step at 1. cbn [readerState].
      change (Ascii.eqb QUOTE QUOTE) with true. cbn iota. cbn [app].
      unfold extend. cbn [pending fields].
      rewrite (IH {| readerState := InQuoted;
                     pending := pending rd ++ String QUOTE EmptyString;
                     fields := fields rd |} tail eq_refl).
      cbn [pending fields]. rewrite append_assoc. reflexivity.
    + cbn [append run]. unfold step at 1. rewrite Hst, Ec. cbn [app].
      rewrite (IH (extend rd InQuoted c) tail eq_refl). unfold extend. cbn [pending fields].
      rewrite append_assoc. reflexivity.
Qed.

(** The reader at the end of a field: the text read is pending. *)
Definition atEndOf (v : string) (record : list string) (rd : Reader) : Prop :=
  pending rd = v /\ fields rd = record
  /\ (readerState rd = InRaw \/ readerState rd = AfterQuote
      \/ (readerState rd = FieldStart /\ v = "")).

Lemma run_field w v record tail :
  writes w v ->
  exists rd,
    atEndOf v record rd
    /\ run {| readerState := FieldStart; pending := ""; fields := record |} (w ++ tail)
       = run rd tail.
Proof.
  intros [[-> Hv] | ->].
  - destruct v as [|c v].
    + eexists. split; [|reflexivity]. repeat split. right. right. split; reflexivity.
    + exists {| readerState := InRaw; pending := String c v; fields := record |}.
      split; [repeat split; left; reflexivity|].
      pose proof (special_cons _ _ Hv) as [Hc [Hq [Hn [Hr Hv']]]].
      cbn [append run]. unfold step. cbn [readerState]. unfold atFieldStart, unquoted.
      rewrite Hq, Hc, Hn, Hr. cbn [app]. unfold extend. cbn [pending fields append].
      rewrite (run_raw v {| readerState := InRaw; pending := String c EmptyString;
                            fields := record |} tail Hv' eq_refl).
      reflexivity.
  - exists {| readerState := AfterQuote; pending := v; fields := record |}.
    split; [repeat split; right; left; reflexivity|].
    cbn [append run]. unfold step. cbn [readerState]. unfold atFieldStart.
    change (Ascii.eqb QUOTE QUOTE) with true. cbn iota. cbn [app].
    rewrite append_assoc. cbn [append fields].
    rewrite (run_quoted v {| readerState := InQuoted; pending := ""; fields := record |}
               tail eq_refl).
    reflexivity.
Qed.

Lemma step_comma v record rd :
  atEndOf v record rd ->
  step rd COMMA
  = ({| readerState := FieldStart; pending := ""; fields := (record ++ [v])%list |}, []).
Proof.
  intros [Hp [Hf Hst]]. destruct rd as [st p f]. cbn in *. subst p f.
  destruct Hst as [->|[->|[-> _]]]; reflexivity.
Qed.

Lemma step_newline v record rd :
  atEndOf v record rd -> step rd NEWLINE = (startOfRecord, [(record ++ [v])%list]).
Proof.
  intros [Hp [Hf Hst]]. destruct rd as [st p f]. cbn in *. subst p f.
  destruct Hst as [->|[->|[-> _]]]; reflexivity.
Qed.

Lemma finish_field v record rd :
  atEndOf v record rd -> record <> [] -> finish rd = [(record ++ [v])%list].
Proof.
  intros [Hp [Hf Hst]] Hne. destruct rd as [st p f]. cbn in *. subst p f.
  destruct Hst as [->|[->|[-> _]]]; try reflexivity.
  unfold finish. cbn. destruct record; [contradiction|reflexivity].
Qed.

(** A line of written fields is read as one record. *)
Lemma run_line ws vs :
  Forall2 writes ws vs -> ws <> [] ->
  forall record,
    (forall rest,
        run {| readerState := FieldStart; pending := ""; fields := record |}
          (String.concat "," ws ++ String NEWLINE rest)
        = (record ++ vs)%list :: run startOfRecord rest)
    /\ (record <> [] \/ 2 <= List.length ws ->
        run {| readerState := FieldStart; pending := ""; fields := record |}
          (String.concat "," ws)
        = [(record ++ vs)%list]).
Proof.
  induction 1 as [|w v ws vs Hw Hrest IH]; intros Hne record; [contradiction|].
  destruct ws as [|w2 ws].
  - inversion Hrest; subst. cbn [String.concat]. split.
    + intros rest. destruct (run_field w v record (String NEWLINE rest) Hw) as [rd [Hend Hrun]].
      rewrite Hrun. cbn [run]. rewrite (step_newline _ _ _ Hend). reflexivity.
    + intros [Hrec|Hlen]; [|cbn in Hlen; lia].
      destruct (run_field w v record "" Hw) as [rd [Hend Hrun]].
      rewrite append_nil_r in Hrun. rewrite Hrun. cbn [run].
      apply finish_field; assumption.
  - assert (Hne2 : w2 :: ws <> []) by discriminate.
    specialize (IH Hne2 (record ++ [v])%list). destruct IH as [IHline IHend].
    change (String.concat "," (w :: w2 :: ws))
      with (w ++ String COMMA (String.concat "," (w2 :: ws)))%string.
    split.
    + intros rest. rewrite append_assoc. cbn [append].
      destruct (run_field w v record
                  (String COMMA (String.concat "," (w2 :: ws) ++ String NEWLINE rest)) Hw)
        as [rd [Hend Hrun]].
      rewrite Hrun. cbn [run]. rewrite (step_comma _ _ _ Hend). cbn [app].
      rewrite IHline, <- app_assoc. reflexivity.
    + intros _.
      destruct (run_field w v record (String COMMA (String.concat "," (w2 :: ws))) Hw)
        as [rd [Hend Hrun]].
      rewrite Hrun. cbn [run]. rewrite (step_comma _ _ _ Hend). cbn [app].
      rewrite IHend, <- app_assoc; [reflexivity|].
      left. destruct record; discriminate.
Qed.

(** Lines of at least two written fields each, joined by line breaks, are
    read as their records. *)
Lemma run_lines wss : forall vss,
  Forall2 (Forall2 writes) wss vss ->
  Forall (fun ws => 2 <= List.length ws) wss ->
  readCSV (String.concat (String NEWLINE EmptyString) (map (String.concat ",") wss)) = vss.
Proof.
  unfold readCSV.
  induction wss as [|ws wss IH]; intros vss H2 Hlen.
  - inversion H2; subst. reflexivity.
  - inversion H2 as [|? vs ? vss' Hws Hrest]; subst.
    inversion Hlen as [|? ? Hl Hlens]; subst.
    assert (Hne : ws <> []) by (destruct ws; [cbn in Hl; lia|discriminate]).
    destruct (run_line ws vs Hws Hne []) as [Hline Hend].
    destruct wss as [|ws2 wss].
    + inversion Hrest; subst. cbn [map String.concat].
      apply Hend. right. exact Hl.
    + change (String.concat (String NEWLINE EmptyString)
                (map (String.concat ",") (ws :: ws2 :: wss)))
        with (String.concat "," ws
              ++ String NEWLINE
                   (String.concat (String NEWLINE EmptyString)
                      (map (String.concat ",") (ws2 :: wss))))%string.
      rewrite Hline. cbn [app]. f_equal. apply IH; assumption.
Qed.

Lemma joinWith_concat {A} sep (conv : A -> M string) l : forall ws,
  Forall2 (fun x w => conv x = inr w) l ws ->
  joinWith sep conv l = inr (String.concat sep ws).
Proof.
  induction l as [|x l IH]; intros ws H; inversion H as [|? w ? ws' Hx Hrest]; subst.
  - reflexivity.
  - cbn [joinWith]. rewrite Hx. cbn [bind].
    destruct l as [|x2 l].
    + inversion Hrest; subst. reflexivity.
    + fold (joinWith sep conv (x2 :: l)). rewrite (IH ws' Hrest). cbn [bind ret].
      inversion Hrest; subst. reflexivity.
Qed.

Lemma csvField_writes r header :
  exportable r header ->
  exists w, csvField r header = inr w /\ writes w (textOf r header).
Proof.
  intros [s [Hget Hbreak]]. unfold csvField, textOf. rewrite Hget.
  destruct (contains COMMA s || contains QUOTE s) eqn:E.
  - eexists. split; [reflexivity|]. right. reflexivity.
  - exists s. split; [reflexivity|]. left. split; [reflexivity|]. apply Hbreak. reflexivity.
Qed.

Lemma csvLine_writes headers r :
  Forall (exportable r) headers ->
  exists ws, csvLine headers r = inr (String.concat "," ws)
             /\ Forall2 writes ws (map (textOf r) headers).
Proof.
  intros Hall.
  assert (H : exists ws, Forall2 (fun h w => csvField r h = inr w) headers ws
                         /\ Forall2 writes ws (map (textOf r) headers)).
  { induction Hall as [|h headers Hh _ [ws [Hconv Hws]]].
    - exists []. split; constructor.
    - destruct (csvField_writes r h Hh) as [w [Hw Hwrites]].
      exists (w :: ws). split; constructor; assumption. }
  destruct H as [ws [Hconv Hws]]. exists ws. split; [|exact Hws].
  apply joinWith_concat. exact Hconv.
Qed.

Lemma mapM_csvLine headers data :
  Forall (fun r => Forall (exportable r) headers) data ->
  exists wss,
    mapM (csvLine headers) data = inr (map (String.concat ",") wss)
    /\ Forall2 (Forall2 writes) wss (map (fun r => map (textOf r) headers) data).
Proof.
  induction 1 as [|r data Hr _ [wss [Hmap Hwss]]].
  - exists []. split; [reflexivity|constructor].
  - destruct (csvLine_writes headers r Hr) as [ws [Hline Hws]].
    exists (ws :: wss). split; [|constructor; assumption].
    cbn [mapM]. rewrite Hline. cbn [bind]. rewrite Hmap. reflexivity.
Qed.

End ExportFacts.

(** The export over rows whose cells it writes so that they are read
    back. *)
Lemma csvContent_reads_back {rt : Runtime} (first : row) (others : list row) :
  2 <= List.length (keys first) ->
  Forall (fun header => special header = false) (keys first) ->
  Forall (fun r => Forall (exportable r) (keys first)) (first :: others) ->
  exists content,
    ExportPanel.csvContent (first :: others) = Some (inr content)
    /\ readCSV content
       = keys first :: map (fun r => map (textOf r) (keys first)) (first :: others).
Proof.
  intros Hlen Hheaders Hcells.
  destruct (mapM_csvLine (keys first) (first :: others) Hcells) as [wss [Hmap Hwss]].
  unfold ExportPanel.csvContent. rewrite Hmap. cbn [bind ret].
  eexists. split; [reflexivity|].
  change (String.concat "," (keys first) :: map (String.concat ",") wss)
    with (map (String.concat ",") (keys first :: wss)).
  apply run_lines.
  - constructor; [|exact Hwss].
    clear - Hheaders. induction Hheaders as [|h hs Hh _ IH]; constructor; [|exact IH].
    left. split; [reflexivity|exact Hh].
  - constructor; [exact Hlen|].
    assert (Hvss : Forall (fun vs => 2 <= List.length vs)
                     (map (fun r => map (textOf r) (keys first)) (first :: others))).
    { apply Forall_forall. intros vs Hvs. apply in_map_iff in Hvs.
      destruct Hvs as [r [<- _]]. rewrite length_map. exact Hlen. }
    clear - Hwss Hvss.
    induction Hwss as [|ws vs wss vss Hws _ IH]; constructor.
    + inversion Hvss; subst. rewrite (Forall2_length Hws). assumption.
    + apply IH. inversion Hvss; assumption.
Qed.

(** X30: the file the export writes is read back by a reader of CSV as
    the record of the headers followed by one record for each row, with
    the texts of its cells, when the first row has at least two columns,
    no header has a comma, a quote or a line break, and every cell under
    the headers is a string that has a line break only if it has a comma
    or a quote as well.  The export wraps a cell in quotes for a comma or
    a quote only: a string with neither is written as it is, so that a
    name with a line break splits its record (the reader finds three
    records where the export wrote two). *)
Theorem csv_export_reads_back {rt : Runtime} (first : row) (others : list row) :
  (2 <= List.length (keys first) ->
   Forall (fun header => special header = false) (keys first) ->
   Forall (fun r => Forall (exportable r) (keys first)) (first :: others) ->
   exists content,
     ExportPanel.csvContent (first :: others) = Some (inr content)
     /\ readCSV content
        = keys first :: map (fun r => map (textOf r) (keys first)) (first :: others))
  /\ (forall (r : row) (header s : string),
        get r header = Some (Str s) ->
        ExportPanel.contains ExportPanel.COMMA s
        || ExportPanel.contains ExportPanel.QUOTE s = false ->
        ExportPanel.csvField r header = inr s)
  /\ (exists content,
        ExportPanel.csvContent [brokenWorker] = Some (inr content)
        /\ readCSV content = [["WorkerID"; "Name"; "Group"]; ["W1"; "A"]; ["B"; "g"]]).
Proof.
  split; [apply csvContent_reads_back|]. split.
  - intros r header s Hget Hplain. unfold ExportPanel.csvField. rewrite Hget, Hplain.
    reflexivity.
  - eexists. split; reflexivity.
Qed.

(** Witness for X30: a worker whose name has a comma and a quote. *)
Lemma csv_export_reads_back_witness :
  exists content,
    ExportPanel.csvContent (rt := exampleRuntime) [awkwardWorker] = Some (inr content)
    /\ readCSV content
       = [keys awkwardWorker; map (textOf awkwardWorker) (keys awkwardWorker)].
Proof.
  apply (proj1 (csv_export_reads_back (rt := exampleRuntime) awkwardWorker [])).
  - simpl. lia.
  - repeat constructor.
  - repeat constructor; eexists; (split; [reflexivity|]); intros H; try discriminate H;
      reflexivity.
Defined.
